(** * quran-databases: the page downloader, the chapter-name extractor and
    the relational loader

    A shallow embedding of [get_quran_pages.py] (class [QuranDownloader]), of
    [get_chapters_names.py] and of [build_quran_db.py] (class
    [QuranDatabaseBuilder], the edition menu and [main]), with the properties
    of the natural-language specification stated over it, and further
    properties of the code after them.

    Conventions of the embedding.
    - A Python call that may raise is a value of [py A]: [Returns a] or
      [Raises e].  A [try]/[except] is a [match] on it.
    - Python integers are [Z]; JSON objects (dicts) keep their insertion order
      and are association lists where the code iterates over them, [gmap]s
      where it only looks keys up.
    - The documents are typed as the code reads them: a fragment has an
      integer chapter, an integer verse number and a text. An integer of a
      document that is bound to a statement and does not fit the 64 bits of an
      SQLite INTEGER makes [execute] raise [OverflowError]; the counters of a
      run (tallies, [verse_order], row ids) are taken within that range.
    - The network, the file system and the SQLite engine are not source of this
      repository. The first two are a record of outcomes ([remote], [file]).
      The third is modelled by the constraints that [create_tables] declares,
      each checked by the statement that inserts (foreign keys are enforced:
      [DB_PRAGMAS] switches them on); opening the connection, the pragmas and
      the SELECT queries are taken not to fail.
    - Logging, printing and the timing report are left out. *)

From Stdlib Require Import ZArith List String Ascii Lia.
From Stdlib Require Import Decimal DecimalString DecimalZ DecimalPos.
From stdpp Require Import base tactics option list list_numbers gmap strings sorting.

Local Open Scope Z_scope.

(** ** Python exceptions and calls that may raise *)

Module Py.

(** The exception classes the programs can meet. All of them derive from
    [Exception]; only [IntegrityError] derives from [sqlite3.Error]. *)
Inductive exn : Type :=
  | IntegrityError   (* sqlite3.IntegrityError: a constraint failed *)
  | OverflowError    (* an integer parameter outside the range of an SQLite INTEGER *)
  | KeyError
  | IndexError
  | ValueError
  | TypeError
  | OSError
  | ClientError      (* aiohttp.ClientError: the request itself failed *)
  | JSONDecodeError. (* the text is not JSON *)

Definition is_sqlite_error (e : exn) : bool :=
  match e with IntegrityError => true | _ => false end.

Inductive py (A : Type) : Type :=
  | Returns (a : A)
  | Raises (e : exn).
Arguments Returns {A} a.
Arguments Raises {A} e.

Global Instance exn_eq_dec : EqDecision exn.
Proof. solve_decision. Defined.

Global Instance py_eq_dec {A : Type} `{EqDecision A} : EqDecision (py A).
Proof. solve_decision. Defined.

Definition bind {A B : Type} (c : py A) (k : A -> py B) : py B :=
  match c with
  | Returns a => k a
  | Raises e => Raises e
  end.

(** [for x in l: acc = body(acc, x)], stopping at the first exception. *)
Fixpoint for_each {S A : Type} (body : S -> A -> py S) (l : list A) (acc : S) : py S :=
  match l with
  | [] => Returns acc
  | x :: rest => bind (body acc x) (for_each body rest)
  end.

(** [range(start, stop, step)]: [ValueError] on a zero step. *)
Definition range3 (start stop step : Z) : py (list Z) :=
  if step =? 0 then Raises ValueError
  else if 0 <? step
       then Returns ((fun i => start + i * step) <$> seqZ 0 ((stop - start + step - 1) / step))
       else Returns ((fun i => start + i * step) <$> seqZ 0 ((start - stop - step - 1) / (- step))).

(** [range(start, stop)]. *)
Definition range2 (start stop : Z) : list Z := seqZ start (stop - start).

End Py.

Import Py.

Notation "x <- c ;; k" := (Py.bind c (fun x => k))
  (at level 100, c at next level, right associativity, only parsing).

(** ** get_quran_pages.py *)

Module Downloader.

Section Fetch.

(** The JSON value found under ["pages"] in a page document of the remote API. *)
Context {payload : Type}.

(** What [response.json()] gives: a body that is not JSON, or a document with
    or without a ["pages"] field. *)
Inductive body : Type :=
  | NotJson
  | Json (pages_field : option payload).

(** What [session.get(url)] gives for one page. *)
Inductive reply : Type :=
  | Unreachable
  | Response (status : Z) (b : body).

(** The world a run meets: the reply to each page's request, and whether the
    write of each artifact succeeds. *)
Record remote : Type := {
  get : Z -> reply;
  save_page : Z -> bool;
  save_complete : bool
}.

(** The object [{f"page_{page_num}": data["pages"]}], by its page number. *)
Definition page_object : Type := (Z * payload)%type.

Record DownloadResult : Type := {
  page_num : Z;
  data : option page_object
}.

(** The [try] block of [download_page]. *)
Definition download_page_try (w : remote) (n : Z) : py DownloadResult :=
  match get w n with
  | Unreachable => Raises ClientError
  | Response status b =>
      if status =? 200 then
        match b with
        | NotJson => Raises JSONDecodeError
        | Json None => Raises KeyError
        | Json (Some p) =>
            if save_page w n
            then Returns {| page_num := n; data := Some (n, p) |}
            else Raises OSError
        end
      else Returns {| page_num := n; data := None |}
  end.

(** [download_page]: [except Exception] turns every exception of the block
    into a result without data. The two lines before the [try] format the URL
    and the path of the artifact; they do not raise for an edition name
    without braces, such as those of [QURAN_EDITIONS]. Cancellation
    ([asyncio.CancelledError], not an [Exception]) is outside the model. *)
Definition download_page (w : remote) (n : Z) : py DownloadResult :=
  match download_page_try w n with
  | Returns r => Returns r
  | Raises _ => Returns {| page_num := n; data := None |}
  end.

(** [asyncio.gather] over the tasks: the results in the order of the tasks; the first
    exception of a task is raised. *)
Fixpoint gather (w : remote) (batch_pages : list Z) : py (list DownloadResult) :=
  match batch_pages with
  | [] => Returns []
  | n :: rest =>
      r <- download_page w n ;;
      rs <- gather w rest ;;
      Returns (r :: rs)
  end.

Definition process_batch (w : remote) (batch_pages : list Z) : py (list page_object) :=
  results <- gather w batch_pages ;;
  Returns (omap data results).

Record QuranDownloader : Type := {
  start_page : Z;
  end_page : Z;
  batch_size : Z
}.

(** The body of the [for batch_start in range(...)] loop of [download_all]. *)
Definition batch_step (self : QuranDownloader) (w : remote)
    (all_pages : list page_object) (batch_start : Z) : py (list page_object) :=
  let batch_end := Z.min (batch_start + batch_size self) (end_page self + 1) in
  batch_results <- process_batch w (range2 batch_start batch_end) ;;
  Returns (all_pages ++ batch_results).

(** [download_all]: the value returned is the list under ["pages"] of the
    document written to the combined file. Creating the directory and
    reporting the progress are left out. *)
Definition download_all (self : QuranDownloader) (w : remote) : py (list page_object) :=
  starts <- range3 (start_page self) (end_page self + 1) (batch_size self) ;;
  all_pages <- for_each (batch_step self w) starts [] ;;
  if save_complete w then Returns all_pages else Raises OSError.

(** A page's fetch succeeds: status 200, a JSON body with ["pages"], and the
    page artifact written. *)
Definition fetch_succeeds (w : remote) (n : Z) : Prop :=
  exists p, get w n = Response 200 (Json (Some p)) /\ save_page w n = true.

(** The page object of a page, when its fetch succeeds. *)
Definition survivor (w : remote) (n : Z) : option page_object :=
  match download_page w n with
  | Returns r => data r
  | Raises _ => None
  end.

End Fetch.

Arguments body : clear implicits.
Arguments reply : clear implicits.
Arguments remote : clear implicits.
Arguments page_object : clear implicits.
Arguments DownloadResult : clear implicits.

(** *** Concrete remotes *)

(** A remote where every request succeeds, and one where page 2 answers 404. *)
Definition all_ok : remote unit :=
  {| get := fun _ => Response 200 (Json (Some tt));
     save_page := fun _ => true;
     save_complete := true |}.

Definition page2_missing : remote unit :=
  {| get := fun n => if n =? 2 then Response 404 NotJson else Response 200 (Json (Some tt));
     save_page := fun _ => true;
     save_complete := true |}.

End Downloader.

(** ** build_quran_db.py *)

Module Builder.

(** *** The two JSON inputs *)

(** One verse fragment of a page: [verse['chapter']], [verse['verse']] and
    [verse['text']]. *)
Record fragment : Type := {
  chapter : Z;
  verse : Z;
  text : string
}.

(** One element of [quran_data['pages']]: a dict from a key such as
    [page_12] to the fragments of that page, in the order of [items()]. *)
Definition page_dict : Type := list (string * list fragment).

(** The corpus document: a JSON object, in the order of its keys. *)
Definition quran_doc : Type := list (string * list page_dict).

(** The chapter-name map: chapter number (as text) to chapter name, in the
    order of [items()]. *)
Definition names_map : Type := list (string * string).

(** What a path holds when it is opened and parsed. [Unreadable e]: [open],
    the decoding of the bytes or [json.load] raises [e], an exception other
    than [FileNotFoundError] (a directory, a file without read permission, bytes
    that are not UTF-8: [OSError], [ValueError]). *)
Inductive file (A : Type) : Type :=
  | Missing           (* FileNotFoundError *)
  | Malformed         (* json.JSONDecodeError *)
  | Unreadable (e : exn)
  | Document (d : A).
Arguments Missing {A}.
Arguments Malformed {A}.
Arguments Unreadable {A} e.
Arguments Document {A} d.

(** [_load_json]: [except (json.JSONDecodeError, FileNotFoundError)] gives
    [None]; any other exception leaves the function. *)
Definition _load_json {A : Type} (path : file A) : py (option A) :=
  match path with
  | Document d => Returns (Some d)
  | Missing | Malformed => Returns None
  | Unreadable e => if decide (e = JSONDecodeError) then Returns None else Raises e
  end.

(** [d[key]] on a JSON object. *)
Fixpoint getitem {A : Type} (d : list (string * A)) (key : string) : py A :=
  match d with
  | [] => Raises KeyError
  | (k, v) :: rest => if String.eqb k key then Returns v else getitem rest key
  end.

(** [s.split('_')]. *)
Fixpoint split_underscore (s : string) : list string :=
  match s with
  | EmptyString => [EmptyString]
  | String c rest =>
      if Ascii.eqb c "_"%char then EmptyString :: split_underscore rest
      else match split_underscore rest with
           | [] => [String c EmptyString]
           | w :: ws => String c w :: ws
           end
  end.

(** *** The relational store *)

Record chapter_row : Type := {
  chapter_id : Z;
  chapter_name : string;
  total_verses : Z
}.

(** A row of [verses]; [v_chapter_id] is its column [chapter_id]. *)
Record verse_row : Type := {
  verse_id : Z;
  v_chapter_id : Z;
  verse_number : Z;
  verse_text : string
}.

(** A row of [page_verses]; [pv_page_id] and [pv_verse_id] are its columns
    [page_id] and [verse_id]. *)
Record page_verse_row : Type := {
  pv_page_id : Z;
  pv_verse_id : Z;
  verse_order : Z;
  starts_new_chapter : bool
}.

(** The four tables and the AUTOINCREMENT counter of [verses] (the largest
    [verse_id] ever given out). Each table is the list of its rows in the
    order of insertion. For [verses] and [page_verses] that is the order of
    their rowids. The key of [chapters] and of [pages] is the rowid itself,
    so these tables do not keep the order of insertion: the order of their
    lists belongs to the model only, and the properties speak of their rows
    as a set. *)
Record store : Type := {
  chapters : list chapter_row;
  verses : list verse_row;
  verses_seq : Z;
  pages : list Z;
  page_verses : list page_verse_row
}.

Definition empty_store : store :=
  {| chapters := []; verses := []; verses_seq := 0; pages := []; page_verses := [] |}.

(** The natural key of a verse row. *)
Definition verse_key (v : verse_row) : Z * Z := (v_chapter_id v, verse_number v).

(** The pair under [UNIQUE (page_id, verse_order)]. *)
Definition page_order (r : page_verse_row) : Z * Z := (pv_page_id r, verse_order r).

(** The pair under [PRIMARY KEY (page_id, verse_id)]. *)
Definition page_verse (r : page_verse_row) : Z * Z := (pv_page_id r, pv_verse_id r).


(** *** Statements on a cursor

    A statement acts on the store of the open transaction; a statement that
    fails leaves it as it was. *)

Definition cur (A : Type) : Type := store -> py A * store.

Definition ret {A : Type} (a : A) : cur A := fun s => (Returns a, s).

Definition raise {A : Type} (e : exn) : cur A := fun s => (Raises e, s).

Definition cbind {A B : Type} (m : cur A) (k : A -> cur B) : cur B :=
  fun s =>
    match m s with
    | (Returns a, s') => k a s'
    | (Raises e, s') => (Raises e, s')
    end.

(** A Python computation that touches no table. *)
Definition lift {A : Type} (c : py A) : cur A := fun s => (c, s).

Declare Scope cur_scope.
Delimit Scope cur_scope with cur.
Notation "x <- c ;; k" := (cbind c (fun x => k))
  (at level 100, c at next level, right associativity, only parsing) : cur_scope.

Local Open Scope cur_scope.

(** [for x in l: acc = body(acc, x)] over a cursor. *)
Fixpoint cfor {S A : Type} (body : S -> A -> cur S) (l : list A) (acc : S) : cur S :=
  match l with
  | [] => ret acc
  | x :: rest => acc' <- body acc x ;; cfor body rest acc'
  end.

(** [INSERT INTO chapters (chapter_id, chapter_name, total_verses)]:
    primary key [chapter_id], [CHECK (total_verses > 0)]. *)
Definition insert_chapter (cid : Z) (name : string) (total : Z) : cur unit :=
  fun s =>
    if decide (cid ∈ chapter_id <$> chapters s) then (Raises IntegrityError, s)
    else if decide (0 < total) then
      (Returns tt,
       {| chapters := chapters s ++ [{| chapter_id := cid; chapter_name := name; total_verses := total |}];
          verses := verses s; verses_seq := verses_seq s;
          pages := pages s; page_verses := page_verses s |})
    else (Raises IntegrityError, s).

(** The rowid AUTOINCREMENT gives the next verse: one more than the largest
    ever used in the table. *)
Definition next_verse_id (s : store) : Z :=
  1 + foldr Z.max (verses_seq s) (verse_id <$> verses s).

(** [INSERT INTO verses (chapter_id, verse_number, verse_text)]: foreign key
    to [chapters], [CHECK (verse_number > 0)], [UNIQUE(chapter_id, verse_number)].
    Returns [cursor.lastrowid]. *)
Definition insert_verse (cid vn : Z) (txt : string) : cur Z :=
  fun s =>
    if decide (cid ∈ chapter_id <$> chapters s) then
      if decide (0 < vn) then
        if decide ((cid, vn) ∈ verse_key <$> verses s) then (Raises IntegrityError, s)
        else
          let rowid := next_verse_id s in
          (Returns rowid,
           {| chapters := chapters s;
              verses := verses s ++ [{| verse_id := rowid; v_chapter_id := cid;
                                        verse_number := vn; verse_text := txt |}];
              verses_seq := rowid;
              pages := pages s; page_verses := page_verses s |})
      else (Raises IntegrityError, s)
    else (Raises IntegrityError, s).

(** [INSERT INTO pages (page_id)]: primary key [page_id]. *)
Definition insert_page (p : Z) : cur unit :=
  fun s =>
    if decide (p ∈ pages s) then (Raises IntegrityError, s)
    else
      (Returns tt,
       {| chapters := chapters s; verses := verses s; verses_seq := verses_seq s;
          pages := pages s ++ [p]; page_verses := page_verses s |}).

(** [INSERT INTO page_verses (page_id, verse_id, verse_order, starts_new_chapter)]:
    foreign keys to [pages] and [verses], [PRIMARY KEY (page_id, verse_id)],
    [UNIQUE (page_id, verse_order)]. *)
Definition insert_page_verse (p vid ord : Z) (flag : bool) : cur unit :=
  fun s =>
    if decide (p ∈ pages s) then
      if decide (vid ∈ verse_id <$> verses s) then
        if decide ((p, vid) ∈ page_verse <$> page_verses s) then (Raises IntegrityError, s)
        else if decide ((p, ord) ∈ page_order <$> page_verses s) then (Raises IntegrityError, s)
        else
          (Returns tt,
           {| chapters := chapters s; verses := verses s; verses_seq := verses_seq s;
              pages := pages s;
              page_verses := page_verses s ++
                [{| pv_page_id := p; pv_verse_id := vid; verse_order := ord;
                    starts_new_chapter := flag |}] |})
      else (Raises IntegrityError, s)
    else (Raises IntegrityError, s).

(** The range of an SQLite INTEGER. *)
Definition int64 (z : Z) : Prop := - 2 ^ 63 <= z < 2 ^ 63.

Global Instance int64_dec (z : Z) : Decision (int64 z).
Proof. unfold int64. apply _. Defined.

(** [cursor.execute(sql, params)] binds the parameters before the statement
    runs: for a Python integer outside the range of an SQLite INTEGER the
    [sqlite3] module raises [OverflowError], which is not a [sqlite3.Error].
    [bind_int] is the check, on the integers that a statement takes from the
    two documents. The other integer parameters ([total_verses],
    [verse_order], [cursor.lastrowid]) count fragments and rows of the run
    and are taken within the range. *)
Definition bind_int (params : list Z) : cur unit :=
  fun s =>
    if decide (Forall int64 params) then (Returns tt, s)
    else (Raises OverflowError, s).

(** *** The loader *)

Section Loader.

(** Python's [int] on a string: [None] stands for [ValueError]. *)
Variable py_int : string -> option Z.

(** [int(page_num_str.split('_')[1])]. *)
Definition page_num_of (page_num_str : string) : py Z :=
  match split_underscore page_num_str !! 1%nat with
  | None => Raises IndexError
  | Some w =>
      match py_int w with
      | None => Raises ValueError
      | Some n => Returns n
      end
  end.

(** [chapter_verse_counts.get(chapter_id, 0)]. *)
Definition get_count (counts : gmap Z Z) (chapter_id : Z) : Z :=
  default 0 (counts !! chapter_id).

(** The innermost statement of [_calculate_verse_counts]. *)
Definition count_verse (counts : gmap Z Z) (v : fragment) : gmap Z Z :=
  <[chapter v := get_count counts (chapter v) + 1]> counts.

Definition _calculate_verse_counts (pages_data : list page_dict) : gmap Z Z :=
  foldl (fun counts page_data =>
           foldl (fun counts verses => foldl count_verse counts verses)
                 counts (snd <$> page_data))
        ∅ pages_data.

(** The body of the loop of [_insert_chapters]. *)
Definition chapter_step (verse_counts : gmap Z Z) (_ : unit)
    (item : string * string) : cur unit :=
  match py_int (fst item) with
  | None => raise ValueError
  | Some cid =>
      let total := get_count verse_counts cid in
      if total =? 0 then ret tt
      else (_ <- bind_int [cid] ;; insert_chapter cid (snd item) total)
  end.

Definition _insert_chapters (chapters_names : names_map) (verse_counts : gmap Z Z) : cur unit :=
  cfor (chapter_step verse_counts) chapters_names tt.

(** What the loop over the fragments of one page carries along:
    [verse_cache], [current_chapter] and the counter [verse_order]. *)
Record page_state : Type := {
  verse_cache : gmap (Z * Z) Z;
  current_chapter : option Z;
  order : Z
}.

(** The body of [for verse in verses]. The key [f"{chapter_id}_{verse_number}"]
    of the cache is the pair itself: the format is injective on integers. *)
Definition verse_step (page_num : Z) (st : page_state) (v : fragment) : cur page_state :=
  let chapter_id := chapter v in
  let verse_number := verse v in
  let verse_key := (chapter_id, verse_number) in
  cache <- match verse_cache st !! verse_key with
           | None =>
               _ <- bind_int [chapter_id; verse_number] ;;
               rowid <- insert_verse chapter_id verse_number (text v) ;;
               ret (<[verse_key := rowid]> (verse_cache st))
           | Some _ => ret (verse_cache st)
           end ;;
  verse_id <- match cache !! verse_key with
              | None => raise KeyError
              | Some i => ret i
              end ;;
  let starts_new_chapter := bool_decide (current_chapter st <> Some chapter_id) in
  _ <- insert_page_verse page_num verse_id (order st) starts_new_chapter ;;
  ret {| verse_cache := cache; current_chapter := Some chapter_id; order := order st + 1 |}.

(** [try: INSERT INTO pages ... except sqlite3.IntegrityError: pass]. *)
Definition insert_page_or_ignore (page_num : Z) : cur unit :=
  fun s =>
    match insert_page page_num s with
    | (Raises IntegrityError, s') => (Returns tt, s')
    | other => other
    end.

(** The body of [for page_num_str, verses in page_data.items()]. The
    [OverflowError] of binding [page_num] passes the [except] clause of the
    pages insert, so the check stands before the [try]. *)
Definition page_step (verse_cache0 : gmap (Z * Z) Z) (item : string * list fragment)
    : cur (gmap (Z * Z) Z) :=
  page_num <- lift (page_num_of (fst item)) ;;
  _ <- bind_int [page_num] ;;
  _ <- insert_page_or_ignore page_num ;;
  st <- cfor (verse_step page_num) (snd item)
          {| verse_cache := verse_cache0; current_chapter := None; order := 0 |} ;;
  ret (verse_cache st).

Definition _insert_pages_and_verses (pages_data : list page_dict) : cur unit :=
  _ <- cfor (fun cache page_data => cfor page_step page_data cache) pages_data ∅ ;;
  ret tt.

(** *** The connection and the load run *)

(** A connection: what the file holds ([durable]), what the open transaction
    sees ([working]), and how many times [commit] was called. *)
Record connection : Type := {
  durable : store;
  working : store;
  commits : nat
}.

Definition connect (db_path : store) : connection :=
  {| durable := db_path; working := db_path; commits := 0 |}.

Definition commit (c : connection) : connection :=
  {| durable := working c; working := working c; commits := Datatypes.S (commits c) |}.

Definition rollback (c : connection) : connection :=
  {| durable := durable c; working := durable c; commits := commits c |}.

(** [conn.close()]: what was not committed is lost. *)
Definition close (c : connection) : connection :=
  {| durable := durable c; working := durable c; commits := commits c |}.

(** Statements of a cursor, run in the transaction of its connection. *)
Definition execute {A : Type} (m : cur A) (c : connection) : py A * connection :=
  match m (working c) with
  | (r, w) => (r, {| durable := durable c; working := w; commits := commits c |})
  end.

(** [with self.get_connection() as (conn, cursor): body]: roll back on a
    [sqlite3.Error], close in every case, and let the exception through. *)
Definition get_connection {A : Type} (db_path : store)
    (body : connection -> py A * connection) : py A * connection :=
  match body (connect db_path) with
  | (Returns a, c) => (Returns a, close c)
  | (Raises e, c) => (Raises e, close (if is_sqlite_error e then rollback c else c))
  end.

(** The block under [with] in [load_data]. The integrity verification that
    follows the commit only reads and logs ([_verify_data_integrity] below);
    its queries are taken not to fail, so nothing is raised after the commit. *)
Definition load_body (quran_data : quran_doc) (chapters_names : names_map)
    (c : connection) : py unit * connection :=
  match getitem quran_data "pages" with
  | Raises e => (Raises e, c)
  | Returns pages_data =>
      let chapter_verse_counts := _calculate_verse_counts pages_data in
      match execute (_ <- _insert_chapters chapters_names chapter_verse_counts ;;
                     _insert_pages_and_verses pages_data) c with
      | (Raises e, c') => (Raises e, c')
      | (Returns _, c') => (Returns tt, commit c')
      end
  end.

(** [load_data]: the outcome for the caller, and the connection once closed
    (its [durable] store is the database file after the run). The two files
    are read in turn, the corpus first; an exception of [_load_json] is logged
    and raised again. When a file is missing or malformed, or a document is
    empty, the guard returns. In these cases no connection is opened. *)
Definition load_data (db_path : store) (quran_path : file quran_doc)
    (chapters_names_path : file names_map) : py unit * connection :=
  match _load_json quran_path with
  | Raises e => (Raises e, connect db_path)
  | Returns quran_data =>
      match _load_json chapters_names_path with
      | Raises e => (Raises e, connect db_path)
      | Returns chapters_names =>
          match quran_data, chapters_names with
          | Some ((_ :: _) as quran_data), Some ((_ :: _) as chapters_names) =>
              get_connection db_path (load_body quran_data chapters_names)
          | _, _ => (Returns tt, connect db_path)
          end
      end
  end.

End Loader.

(** *** The integrity verification *)

(** The first query of [_verify_data_integrity]: the chapters whose
    [total_verses] differs from the number of their verse rows, as
    [(chapter_id, total_verses, actual_verses)]. The query has no ORDER BY:
    the order of the list is the model's. *)
Definition actual_verses (s : store) (cid : Z) : Z :=
  Z.of_nat (length (filter (fun v => v_chapter_id v = cid) (verses s))).

Definition count_discrepancies (s : store) : list (Z * Z * Z) :=
  omap (fun c =>
          let actual := actual_verses s (chapter_id c) in
          if decide (total_verses c <> actual)
          then Some (chapter_id c, total_verses c, actual)
          else None)
       (chapters s).

(** The second query: the [(page_id, verse_order)] groups with more than one
    row, as [(page_id, duplicate_orders)], in an order that is the model's. *)
Definition duplicate_orders (s : store) : list (Z * Z) :=
  omap (fun po =>
          let n := Z.of_nat (length (filter (fun r => page_order r = po) (page_verses s))) in
          if decide (1 < n) then Some (fst po, n) else None)
       (remove_dups (page_order <$> page_verses s)).

Definition _verify_data_integrity (s : store) : list (Z * Z * Z) * list (Z * Z) :=
  (count_discrepancies s, duplicate_orders s).

(** *** Concrete inputs

    [int] on a non-empty string of ASCII digits, where Python's [int] and this
    function agree; it is the reading of keys in the concrete runs below. *)
Fixpoint digits_value (s : string) (acc : Z) : option Z :=
  match s with
  | EmptyString => Some acc
  | String c rest =>
      let d := Z.of_N (N_of_ascii c) - 48 in
      if (0 <=? d) && (d <=? 9) then digits_value rest (10 * acc + d) else None
  end.

Definition int_of_digits (s : string) : option Z :=
  match s with
  | EmptyString => None
  | _ => digits_value s 0
  end.

Definition frag (c v : Z) (t : string) : fragment :=
  {| chapter := c; verse := v; text := t |}.

(** The scenario of the specification: page 1 with one verse of chapter 1
    and two of chapter 2; the name map lists a chapter 115 as well. *)
Definition scenario_pages : list page_dict :=
  [[("page_1", [frag 1 7 "text A"; frag 2 1 "text B"; frag 2 2 "text C"])]].

Definition scenario_doc : quran_doc := [("pages", scenario_pages)].

Definition scenario_names : names_map :=
  [("1", "first"); ("2", "second"); ("115", "absent")].

(** The verse (1, 1) as a fragment of page 1 and of page 2. *)
Definition repeated_verse_pages : list page_dict :=
  [[("page_1", [frag 1 1 "text A"])]; [("page_2", [frag 1 1 "text A"])]].

Definition repeated_verse_doc : quran_doc := [("pages", repeated_verse_pages)].



(** Page 1 submitted twice, as a retry would leave it. *)
Definition repeated_page_pages : list page_dict :=
  [[("page_1", [frag 1 1 "text A"])]; [("page_1", [frag 1 1 "text A"])]].

Definition repeated_page_doc : quran_doc := [("pages", repeated_page_pages)].

(** Page 1 submitted twice, the second time without fragments. *)
Definition repeated_empty_page_doc : quran_doc :=
  [("pages", [[("page_1", [frag 1 1 "text A"])]; [("page_1", [])]])].

(** *** Vocabulary of the properties *)

(** The natural key of a fragment. *)
Definition fragment_key (f : fragment) : Z * Z := (chapter f, verse f).

(** What a [page_verses] row says besides its verse:
    [(page_id, verse_order, starts_new_chapter)]. *)
Definition row_shape (r : page_verse_row) : Z * Z * bool :=
  (pv_page_id r, verse_order r, starts_new_chapter r).

(** The rows of [page_verses] of a page, and the rows of [verses] with a
    natural key, in insertion order. *)
Definition rows_of_page (P : Z) (s : store) : list page_verse_row :=
  filter (fun r => pv_page_id r = P) (page_verses s).


(** Every [(key, fragments)] grouping of the corpus, in document order, and
    every fragment of the corpus. *)
Definition groupings (pages_data : list page_dict) : list (string * list fragment) :=
  concat pages_data.

Definition corpus_fragments (pages_data : list page_dict) : list fragment :=
  concat (snd <$> groupings pages_data).

(** A run of [load_data] that loaded: it returned after its commit. *)
Definition loaded (run : py unit * connection) : Prop :=
  fst run = Returns tt /\ commits (snd run) = 1%nat.

(** The database file once the run is over. *)
Definition store_after (run : py unit * connection) : store := durable (snd run).

(** Every entry of the cache is a stored verse: its natural key and its id. *)
Definition cache_sound (cache : gmap (Z * Z) Z) (s : store) : Prop :=
  forall k i, cache !! k = Some i ->
    exists v, v ∈ verses s /\ verse_key v = k /\ verse_id v = i.

(** Every key of the cache names a chapter that has a row. *)
Definition cache_fk (cache : gmap (Z * Z) Z) (s : store) : Prop :=
  forall k i, cache !! k = Some i -> fst k ∈ chapter_id <$> chapters s.

(** What pass 2 writes for one fragment: the shape of its [page_verses] row,
    and the fragment. *)
Definition entry : Type := (Z * Z * bool) * fragment.

Definition entry_order (e : entry) : Z * Z := (fst (fst (fst e)), snd (fst (fst e))).

(** The row [r] was written for the entry [e]: it has the shape of [e], and
    its verse is the one cached for the fragment of [e]. *)
Definition written_for (cache : gmap (Z * Z) Z) (r : page_verse_row) (e : entry) : Prop :=
  row_shape r = fst e /\ cache !! fragment_key (snd e) = Some (pv_verse_id r).

(** [grows s s' cache cache' entries keys]: from [s] and [cache], pass 2
    reached [s'] and [cache'] by appending verse rows with keys among [keys]
    and the [page_verses] rows written for [entries], caching the keys
    [keys], and keeping the uniqueness constraints and the cache invariants. *)
Definition grows (s s' : store) (cache cache' : gmap (Z * Z) Z)
    (entries : list entry) (keys : list (Z * Z)) : Prop :=
  chapters s' = chapters s /\
  (exists vs, verses s' = verses s ++ vs /\ forall v, v ∈ vs -> verse_key v ∈ keys) /\
  (exists new, page_verses s' = page_verses s ++ new /\
               Forall2 (written_for cache') new entries) /\
  cache ⊆ cache' /\
  (forall k, k ∈ keys -> is_Some (cache' !! k)) /\
  (NoDup (verse_key <$> verses s) -> NoDup (verse_key <$> verses s')) /\
  (NoDup (page_order <$> page_verses s) -> NoDup (page_order <$> page_verses s')) /\
  (cache_sound cache s -> cache_sound cache' s') /\
  (cache_fk cache s -> cache_fk cache' s').

(** What the fragment loop writes for a page, from the counter and the
    chapter cursor it starts with. *)
Fixpoint page_rows (p ord : Z) (cursor : option Z) (frs : list fragment) : list entry :=
  match frs with
  | [] => []
  | f :: rest =>
      ((p, ord, bool_decide (cursor <> Some (chapter f))), f)
        :: page_rows p (ord + 1) (Some (chapter f)) rest
  end.

Section Pages.

Variable py_int : string -> option Z.

(** What pass 2 writes for one grouping. *)
Definition grouping_rows (item : string * list fragment) : list entry :=
  match page_num_of py_int (fst item) with
  | Returns p => page_rows p 0 None (snd item)
  | Raises _ => []
  end.

(** The fragments of page [P]: those of every grouping whose key reads [P]. *)
Definition fragments_on (P : Z) (pages_data : list page_dict) : list fragment :=
  concat (snd <$> filter (fun it => page_num_of py_int (fst it) = Returns P)
                         (groupings pages_data)).

End Pages.

(** *** The constraints of the schema

    What [create_tables] declares, as a property of a store: the primary keys
    and the UNIQUE constraints, the CHECK constraints, the foreign keys, and
    the AUTOINCREMENT counter, which is at least every [verse_id] in use. *)
Record store_ok (s : store) : Prop := {
  chapters_pk : NoDup (chapter_id <$> chapters s);
  chapters_check : forall c, c ∈ chapters s -> 0 < total_verses c;
  verses_pk : NoDup (verse_id <$> verses s);
  verses_unique : NoDup (verse_key <$> verses s);
  verses_check : forall v, v ∈ verses s -> 0 < verse_number v;
  verses_fk : forall v, v ∈ verses s -> v_chapter_id v ∈ chapter_id <$> chapters s;
  verses_autoincrement : forall v, v ∈ verses s -> verse_id v <= verses_seq s;
  pages_pk : NoDup (pages s);
  page_verses_pk : NoDup (page_verse <$> page_verses s);
  page_verses_unique : NoDup (page_order <$> page_verses s);
  page_verses_fk_page : forall r, r ∈ page_verses s -> pv_page_id r ∈ pages s;
  page_verses_fk_verse :
    forall r, r ∈ page_verses s -> pv_verse_id r ∈ verse_id <$> verses s
}.

(** The statements [m] keep the property [P] of the store, whether they
    return or raise. *)
Definition keeps {A : Type} (P : store -> Prop) (m : cur A) : Prop :=
  forall s r s', m s = (r, s') -> P s -> P s'.

Section ChapterRows.

Variable py_int : string -> option Z.

(** The rows that [_insert_chapters] sets out to insert: one for each entry
    of the name map whose chapter has a tally other than 0, in the order of
    the map. *)
Definition chapter_rows_of (chapters_names : names_map) (verse_counts : gmap Z Z)
    : list chapter_row :=
  omap (fun item : string * string =>
          match py_int (fst item) with
          | Some cid =>
              if get_count verse_counts cid =? 0 then None
              else Some {| chapter_id := cid; chapter_name := snd item;
                           total_verses := get_count verse_counts cid |}
          | None => None
          end)
       chapters_names.

End ChapterRows.

(** A store with more chapter rows. *)
Definition with_chapters (s : store) (rows : list chapter_row) : store :=
  {| chapters := chapters s ++ rows; verses := verses s; verses_seq := verses_seq s;
     pages := pages s; page_verses := page_verses s |}.

(** The keys of a list in the order of their first occurrence. *)
Definition add_new (seen : list (Z * Z)) (k : Z * Z) : list (Z * Z) :=
  if decide (k ∈ seen) then seen else seen ++ [k].

Definition first_occurrences (keys : list (Z * Z)) : list (Z * Z) :=
  foldl add_new [] keys.

(** The cache holds the stored natural keys and no other, and the verse ids
    are 1, 2, ... in insertion order, the counter being the last of them. *)
Definition numbered (cache : gmap (Z * Z) Z) (s : store) : Prop :=
  (forall k, is_Some (cache !! k) <-> k ∈ verse_key <$> verses s) /\
  verse_id <$> verses s = seqZ 1 (Z.of_nat (length (verses s))) /\
  verses_seq s = Z.of_nat (length (verses s)).

Section Loadable.

Variable py_int : string -> option Z.

(** The page numbers of the groupings that have a fragment, in document
    order. *)
Definition pages_with_fragments (items : list (string * list fragment)) : list Z :=
  omap (fun it : string * list fragment =>
          match snd it, page_num_of py_int (fst it) with
          | _ :: _, Returns p => Some p
          | _, _ => None
          end)
       items.

(** What makes a name map and a corpus load into a new store: the keys of
    both read as integers; the name map gives the chapters it is to insert
    once each, and names the chapter of every fragment; every verse number is
    positive; no page holds two fragments of one verse; no two groupings
    with fragments are of the same page; and the page numbers, the chapters
    and the verse numbers are within the range of an SQLite INTEGER. *)
Record loadable (chapters_names : names_map) (pages_data : list page_dict) : Prop := {
  names_read : forall k, k ∈ fst <$> chapters_names -> is_Some (py_int k);
  names_distinct :
    NoDup (chapter_id <$> chapter_rows_of py_int chapters_names
                            (_calculate_verse_counts pages_data));
  keys_read :
    forall it, it ∈ groupings pages_data -> exists p, page_num_of py_int (fst it) = Returns p;
  fragments_named :
    forall f, f ∈ corpus_fragments pages_data ->
      exists k, k ∈ fst <$> chapters_names /\ py_int k = Some (chapter f);
  fragments_positive : forall f, f ∈ corpus_fragments pages_data -> 0 < verse f;
  page_keys_distinct :
    forall it, it ∈ groupings pages_data -> NoDup (fragment_key <$> snd it);
  page_numbers_distinct : NoDup (pages_with_fragments (groupings pages_data));
  pages_in_range :
    forall it p, it ∈ groupings pages_data ->
      page_num_of py_int (fst it) = Returns p -> int64 p;
  fragments_in_range :
    forall f, f ∈ corpus_fragments pages_data -> int64 (chapter f) /\ int64 (verse f)
}.

End Loadable.

(** Every row of [page_verses] is of a page of [P]. *)
Definition rows_in (P : list Z) (s : store) : Prop :=
  forall r, r ∈ page_verses s -> pv_page_id r ∈ P.

(** While the fragments of page [p] are written: its rows are at orders
    below [n], of verses cached under keys of [D]; every other row is of a
    page of [P]. *)
Definition page_open (P : list Z) (p n : Z) (D : list (Z * Z))
    (cache : gmap (Z * Z) Z) (s : store) : Prop :=
  forall r, r ∈ page_verses s ->
    pv_page_id r ∈ P \/
    (pv_page_id r = p /\ verse_order r < n /\
     exists k, k ∈ D /\ cache !! k = Some (pv_verse_id r)).

(** The keys of the cache are within the range of an SQLite INTEGER. *)
Definition cache_int64 (cache : gmap (Z * Z) Z) : Prop :=
  forall k i, cache !! k = Some i -> int64 (fst k) /\ int64 (snd k).

(** The page and the natural key of an entry: what
    [PRIMARY KEY (page_id, verse_id)] tells apart. *)
Definition entry_verse (e : entry) : Z * (Z * Z) :=
  (fst (fst (fst e)), fragment_key (snd e)).

(** What pass 2 of a run on a new store does to [verses] for one fragment:
    nothing when the natural key has a row; else it appends a row with the
    next id and the text of the fragment. *)
Definition store_verse (rows : list verse_row) (f : fragment) : list verse_row :=
  if decide (fragment_key f ∈ verse_key <$> rows) then rows
  else rows ++ [{| verse_id := Z.of_nat (length rows) + 1; v_chapter_id := chapter f;
                   verse_number := verse f; verse_text := text f |}].

(** What it does to [pages] for one grouping. *)
Definition add_page (seen : list Z) (p : Z) : list Z :=
  if decide (p ∈ seen) then seen else seen ++ [p].

Section PageNumbers.

Variable py_int : string -> option Z.

(** The page numbers of the groupings whose key reads as one, in document
    order. *)
Definition page_numbers (items : list (string * list fragment)) : list Z :=
  omap (fun it : string * list fragment =>
          match page_num_of py_int (fst it) with
          | Returns p => Some p
          | Raises _ => None
          end)
       items.

End PageNumbers.

End Builder.

(** ** What one program writes and the next reads *)

Module Artifacts.

Import Downloader Builder.

(** [str] of an integer, as an f-string formats it and as [json.dump] writes
    an integer key: the decimal digits, and [-] before a negative number. *)
Definition py_str (n : Z) : string := NilZero.string_of_int (Z.to_int n).

(** [f"page_{page_num}"], the key of a page object in [download_page]. *)
Definition page_key (page_num : Z) : string := String.append "page_" (py_str page_num).

(** The page object [{f"page_{page_num}": data["pages"]}] as the loader reads
    it, the payload being a list of fragments. *)
Definition page_object_dict (o : page_object (list fragment)) : page_dict :=
  [(page_key (fst o), snd o)].

(** [complete_quran = {"pages": all_pages}], the document that [download_all]
    dumps to the combined file of an edition; [main] of [build_quran_db.py]
    hands the same path to [load_data]. [json.load] gives back what
    [json.dump] wrote. *)
Definition complete_quran (all_pages : list (page_object (list fragment))) : quran_doc :=
  [("pages", page_object_dict <$> all_pages)].

(** Concrete runs: a remote with the pages 1 and 2 and no other. *)
Definition two_pages : remote (list fragment) :=
  {| get := fun n =>
       if n =? 1 then Response 200 (Json (Some [frag 1 7 "text A"; frag 2 1 "text B"]))
       else if n =? 2 then Response 200 (Json (Some [frag 2 2 "text C"]))
       else Response 404 NotJson;
     save_page := fun _ => true;
     save_complete := true |}.

Definition two_pages_run : QuranDownloader :=
  {| start_page := 1; end_page := 3; batch_size := 2 |}.

Definition two_pages_written : list (page_object (list fragment)) :=
  [(1, [frag 1 7 "text A"; frag 2 1 "text B"]); (2, [frag 2 2 "text C"])].

(** A reading of decimal numerals, with or without a sign, where Python's
    [int] and this function agree; it is the [int] of the concrete runs on
    keys written by [py_str]. *)
Definition int_of_decimal (s : string) : option Z :=
  option_map Z.of_int (NilZero.int_of_string s).

End Artifacts.

(** ** get_chapters_names.py *)

Module Names.

Import Builder Artifacts.

(** One element of [quran_data["chapters"]]: the values under ["chapter"]
    and ["arabicname"], when the keys are there. *)
Record chapter_info : Type := {
  info_chapter : option Z;
  info_arabicname : option string
}.

(** The info document as the code reads it: the list under ["chapters"],
    when the key is there, and whether the object has any other key. *)
Record info_doc : Type := {
  info_chapters : option (list chapter_info);
  info_other_keys : bool
}.

(** [not quran_data] on a document: true of the empty object only. *)
Definition is_empty (d : info_doc) : bool :=
  match info_chapters d with
  | None => negb (info_other_keys d)
  | Some _ => false
  end.

(** What the API gives: [requests.get(QURAN_INFO)] or [raise_for_status]
    raises a [requests.RequestException], or there is a response, whose body
    [res.json()] reads as the document, or as no JSON at all. *)
Inductive info_reply : Type :=
  | RequestFailed
  | Body (d : option info_doc).

(** The world a run meets: whether the directory of the output file can be
    made ([mkdir] with [exist_ok]; it raises an [OSError] when a file stands in
    the way or permission is missing); the input path; the reply of the API;
    whether the error of [res.json()] on a body that is not JSON is a
    [requests.RequestException] (it is from version 2.27 of [requests]);
    whether the directory of the input file can be made, and the file be
    opened for writing and written; and whether the write of the output file
    succeeds. *)
Record world : Type := {
  output_dir : bool;
  input_path : file info_doc;
  api : info_reply;
  json_error_caught : bool;
  input_dir : bool;
  open_input : bool;
  write_input : bool;
  save_output : bool
}.

(** [_get_quran_data]: only [json.JSONDecodeError] is caught around the
    reading of a file that exists, and only [requests.RequestException]
    around the download, where [res.json()] is first called once the input
    file is open. *)
Definition _get_quran_data (w : world) : py (option info_doc) :=
  match input_path w with
  | Document d => Returns (Some d)
  | Malformed => Returns None
  | Unreadable e => if decide (e = JSONDecodeError) then Returns None else Raises e
  | Missing =>
      match api w with
      | RequestFailed => Returns None
      | Body b =>
          if input_dir w && open_input w then
            match b with
            | None => if json_error_caught w then Returns None else Raises JSONDecodeError
            | Some d => if write_input w then Returns (Some d) else Raises OSError
            end
          else Raises OSError
      end
  end.

(** [d[k] = v] on a dict, in insertion order: a key that is there keeps its
    place and takes the new value. *)
Definition setitem (d : list (Z * string)) (k : Z) (v : string) : list (Z * string) :=
  if decide (k ∈ fst <$> d)
  then (fun kv : Z * string => if decide (fst kv = k) then (k, v) else kv) <$> d
  else d ++ [(k, v)].

(** One step of the dict comprehension
    [{chapter["chapter"]: chapter["arabicname"] for chapter in chapters}]. *)
Definition comprehension_step (d : list (Z * string)) (chapter : chapter_info)
    : py (list (Z * string)) :=
  match info_chapter chapter with
  | None => Raises KeyError
  | Some k =>
      match info_arabicname chapter with
      | None => Raises KeyError
      | Some v => Returns (setitem d k v)
      end
  end.

Definition chapter_names_of (chapters : list chapter_info) : py (list (Z * string)) :=
  for_each comprehension_step chapters [].

(** [json.dump] of a dict with integer keys: each key is written as [str(key)]. *)
Definition dump_names (d : list (Z * string)) : names_map :=
  (fun kv : Z * string => (py_str (fst kv), snd kv)) <$> d.

(** [get_quran_chapters_names]: what the call writes to the output file
    ([None]: nothing), or the exception that leaves it. The [try] block ends
    in [except Exception]; [mkdir] and the call of [_get_quran_data] are
    before it. *)
Definition get_quran_chapters_names (w : world) : py (option names_map) :=
  _ <- (if output_dir w then Returns tt else Raises OSError) ;;
  quran_data <- _get_quran_data w ;;
  match quran_data with
  | None => Returns None
  | Some d =>
      if is_empty d then Returns None
      else
        match chapter_names_of (default [] (info_chapters d)) with
        | Raises _ => Returns None
        | Returns chapter_names =>
            if save_output w then Returns (Some (dump_names chapter_names))
            else Returns None
        end
  end.

(** The name given last to chapter [c] in a list of pairs, if any. *)
Definition last_name (chapters : list (Z * string)) (c : Z) : option string :=
  foldl (fun r (kv : Z * string) => if decide (fst kv = c) then Some (snd kv) else r)
        None chapters.

(** The pairs of the chapters that have both fields. *)
Definition info_pairs (chapters : list chapter_info) : list (Z * string) :=
  omap (fun ch => match info_chapter ch, info_arabicname ch with
                  | Some k, Some v => Some (k, v)
                  | _, _ => None
                  end)
       chapters.

(** The dict [acc] holds the chapters of [seen], each once, under the name
    given last. *)
Definition dict_of (acc seen : list (Z * string)) : Prop :=
  NoDup (fst <$> acc) /\
  forall c name, (c, name) ∈ acc <-> last_name seen c = Some name.

(** An element of the list with both fields. *)
Definition complete (ch : chapter_info) : Prop :=
  is_Some (info_chapter ch) /\ is_Some (info_arabicname ch).

(** Concrete runs: an info document that names chapter 2 twice. *)
Definition info_scenario : info_doc :=
  {| info_chapters :=
       Some [{| info_chapter := Some 1; info_arabicname := Some "first" |};
             {| info_chapter := Some 2; info_arabicname := Some "draft" |};
             {| info_chapter := Some 2; info_arabicname := Some "second" |}];
     info_other_keys := true |}.

Definition world_scenario : world :=
  {| output_dir := true; input_path := Document info_scenario; api := RequestFailed;
     json_error_caught := true; input_dir := true; open_input := true;
     write_input := true; save_output := true |}.

End Names.

(** ** The command lines *)

Module Cli.

Import Builder.

(** [QURAN_EDITIONS] of [config.py]. *)
Definition QURAN_EDITIONS : list string :=
  ["ara-quransimple"; "ara-quranuthmanienc"; "ara-quranuthmanihaf"; "ara-quranuthmanihaf1"].

(** How the menu ends: an edition is returned; [exit(0)] after the line
    [0]; [EOFError] from [input] when the lines run out; [IndexError] from
    the list. *)
Inductive selection : Type :=
  | Selected (edition : string)
  | Exited
  | EndOfInput
  | OutOfRange.

Section Menu.

Variable py_int : string -> option Z.

(** [get_user_edition_selection] of [build_quran_db.py] and
    [get_user_selection] of [get_quran_pages.py], which have the same body,
    on the lines that [input] reads. Only [ValueError] is caught. *)
Fixpoint get_user_edition_selection (lines : list string) : selection :=
  match lines with
  | [] => EndOfInput
  | edition :: rest =>
      if String.eqb edition "0" then Exited
      else
        match py_int edition with
        | None => get_user_edition_selection rest
        | Some edition_num =>
            if (1 <=? edition_num) && (edition_num <=? Z.of_nat (length QURAN_EDITIONS))
            then match QURAN_EDITIONS !! Z.to_nat (edition_num - 1) with
                 | Some e => Selected e
                 | None => OutOfRange
                 end
            else get_user_edition_selection rest
        end
  end.

(** A line that makes the menu ask again. *)
Definition asks_again (line : string) : Prop :=
  line <> "0" /\
  match py_int line with
  | None => True
  | Some n => ~ (1 <= n <= Z.of_nat (length QURAN_EDITIONS))
  end.

(** How the lines explain the end of the menu: the lines before the one
    that decides all make it ask again. *)
Definition ends_as (lines : list string) (r : selection) : Prop :=
  match r with
  | Selected e =>
      exists skipped line rest n,
        lines = skipped ++ line :: rest /\ Forall asks_again skipped /\
        line <> "0" /\ py_int line = Some n /\
        1 <= n <= Z.of_nat (length QURAN_EDITIONS) /\
        QURAN_EDITIONS !! Z.to_nat (n - 1) = Some e
  | Exited =>
      exists skipped rest, lines = skipped ++ "0" :: rest /\ Forall asks_again skipped
  | EndOfInput => Forall asks_again lines
  | OutOfRange => False
  end.



End Menu.

End Cli.

(** * Properties *)

(** ** The downloader *)

Module DownloaderFacts.

Import Downloader.

Section Fetch.

Context {payload : Type}.
Implicit Types (w : remote payload) (n : Z) (l : list Z).

Lemma download_page_returns w n :
  exists r, download_page w n = Returns r /\ page_num r = n.
Proof.
  unfold download_page, download_page_try.
  destruct (get w n) as [|status [|[p|]]]; try (destruct (status =? 200));
    try (destruct (save_page w n)); eauto.
Qed.

Lemma survivor_page w n p : survivor w n = Some p -> fst p = n.
Proof.
  unfold survivor, download_page, download_page_try.
  destruct (get w n) as [|status [|[q|]]]; try (destruct (status =? 200));
    try (destruct (save_page w n)); simpl; intros Hp; inversion Hp; reflexivity.
Qed.

Lemma survivor_success w n :
  fetch_succeeds w n -> exists q, survivor w n = Some (n, q).
Proof.
  intros (q & Hget & Hsave). exists q.
  unfold survivor, download_page, download_page_try.
  rewrite Hget, Hsave. reflexivity.
Qed.

Lemma survivor_failure w n : ~ fetch_succeeds w n -> survivor w n = None.
Proof.
  intros Hno. unfold survivor, download_page, download_page_try.
  destruct (get w n) as [|status [|[q|]]] eqn:Hget; try reflexivity;
    destruct (status =? 200) eqn:Hst; try reflexivity.
  destruct (save_page w n) eqn:Hsave; try reflexivity.
  exfalso. apply Hno. exists q. apply Z.eqb_eq in Hst. subst status. auto.
Qed.

Lemma gather_results w l :
  exists rs, gather w l = Returns rs /\ omap data rs = omap (survivor w) l.
Proof.
  induction l as [|n l (rs & Hrs & Hdata)]; simpl.
  - exists []. auto.
  - destruct (download_page_returns w n) as (r & Hr & _).
    exists (r :: rs). rewrite Hr. simpl. rewrite Hrs. simpl. split; [reflexivity|].
    unfold survivor at 1. rewrite Hr. destruct (data r); [f_equal|]; exact Hdata.
Qed.

Lemma process_batch_survivors w l :
  process_batch w l = Returns (omap (survivor w) l).
Proof.
  unfold process_batch. destruct (gather_results w l) as (rs & -> & <-). reflexivity.
Qed.

(** The pages of a run of batches, for any list of batch starts. *)
Lemma batches_survivors (self : QuranDownloader) w (starts : list Z) acc :
  for_each (batch_step self w) starts acc =
  Returns (acc ++ omap (survivor w)
             (concat ((fun b => range2 b (Z.min (b + batch_size self) (end_page self + 1)))
                        <$> starts))).
Proof.
  revert acc. induction starts as [|b starts IH]; intros acc; simpl.
  - rewrite app_nil_r. reflexivity.
  - unfold batch_step at 1. rewrite process_batch_survivors. simpl.
    rewrite IH, omap_app, app_assoc. reflexivity.
Qed.

(** The batches of [download_all] tile the page range. *)
Lemma batches_tile (s stop bs : Z) (k : nat) :
  0 < bs -> s <= stop ->
  concat ((fun b => range2 b (Z.min (b + bs) stop))
            <$> ((fun i => s + i * bs) <$> seqZ 0 (Z.of_nat k)))
  = range2 s (Z.min (s + Z.of_nat k * bs) stop).
Proof.
  intros Hbs Hs. induction k as [|k IH].
  - simpl. unfold range2. rewrite seqZ_nil by lia. reflexivity.
  - rewrite seqZ_S, !fmap_app, concat_app, IH. simpl. rewrite app_nil_r.
    replace (0 + Z.of_nat k) with (Z.of_nat k) by lia.
    replace (s + Z.of_nat (S k) * bs) with (s + Z.of_nat k * bs + bs) by lia.
    assert (Hsb : s <= s + Z.of_nat k * bs) by nia.
    revert Hsb. generalize (s + Z.of_nat k * bs). intros b Hsb.
    unfold range2. destruct (decide (b <= stop)) as [Hle|Hgt].
    + rewrite (Z.min_l b stop) by lia.
      replace (Z.min (b + bs) stop - s) with ((b - s) + (Z.min (b + bs) stop - b)) by lia.
      rewrite seqZ_app by lia. replace (s + (b - s)) with b by lia. reflexivity.
    + rewrite (Z.min_r b stop) by lia. rewrite (Z.min_r (b + bs) stop) by lia.
      rewrite (seqZ_nil b) by lia. rewrite app_nil_r. reflexivity.
Qed.

Lemma range3_tiles (s stop bs : Z) :
  0 < bs -> s <= stop ->
  exists starts, range3 s stop bs = Returns starts /\
    concat ((fun b => range2 b (Z.min (b + bs) stop)) <$> starts) = range2 s stop.
Proof.
  intros Hbs Hs. unfold range3.
  destruct (bs =? 0) eqn:E0; [apply Z.eqb_eq in E0; lia|].
  destruct (0 <? bs) eqn:Epos; [|apply Z.ltb_ge in Epos; lia].
  eexists. split; [reflexivity|].
  set (n := (stop - s + bs - 1) / bs).
  assert (Hn : 0 <= n) by (apply Z.div_pos; lia).
  assert (Hcover : stop - s <= n * bs).
  { pose proof (Z.mul_succ_div_gt (stop - s + bs - 1) bs Hbs) as H. fold n in H. lia. }
  rewrite <- (Z2Nat.id n Hn), batches_tile by lia.
  rewrite Z2Nat.id by lia. f_equal. lia.
Qed.

Lemma sorted_survivors (f : Z -> option (page_object payload)) l :
  (forall n p, f n = Some p -> fst p = n) ->
  StronglySorted Z.lt l -> StronglySorted Z.lt (fst <$> omap f l).
Proof.
  intros Hf Hl. induction Hl as [|n l Hl IH Hn]; simpl; [constructor|].
  destruct (f n) as [p|] eqn:Hp; [|exact IH].
  simpl. constructor; [exact IH|].
  rewrite (Hf _ _ Hp). apply Forall_forall. intros m Hm.
  apply list_elem_of_fmap in Hm as (q & -> & Hq).
  apply list_elem_of_omap in Hq as (m & Hm & Hfm).
  rewrite (Hf _ _ Hfm). rewrite Forall_forall in Hn. by apply Hn.
Qed.

Lemma sorted_seqZ (m len : Z) : StronglySorted Z.lt (seqZ m len).
Proof.
  destruct (decide (0 <= len)) as [Hlen|Hneg]; [|rewrite seqZ_nil by lia; constructor].
  rewrite <- (Z2Nat.id len Hlen). generalize (Z.to_nat len) as k. clear.
  intros k. revert m. induction k as [|k IH]; intros m.
  - rewrite seqZ_nil by lia. constructor.
  - rewrite seqZ_cons by lia. constructor.
    + replace (Z.pred (Z.of_nat (S k))) with (Z.of_nat k) by lia. apply IH.
    + apply Forall_forall. intros x Hx. apply elem_of_seqZ in Hx. lia.
Qed.

Lemma all_survive w l :
  (forall n, n ∈ l -> fetch_succeeds w n) ->
  fst <$> omap (survivor w) l = l.
Proof.
  induction l as [|n l IH]; intros Hall; simpl; [reflexivity|].
  destruct (survivor_success w n) as (q & ->); [apply Hall; left|].
  simpl. f_equal. apply IH. intros m Hm. apply Hall. by right.
Qed.

(** C7. [download_page] always returns, and never raises: the result carries
    the page number it was asked for; its data is absent when the request
    fails, when the status is not 200, when the body is not JSON or has no
    ["pages"] field, and when the page artifact cannot be written (so whenever
    the fetch does not succeed); it is the page object when the fetch
    succeeds. No exception of one page reaches the batch. *)
Theorem download_page_total w n :
  exists r, download_page w n = Returns r /\ page_num r = n /\
    (get w n = Unreachable -> data r = None) /\
    (forall status b, get w n = Response status b -> status <> 200 -> data r = None) /\
    (forall status, get w n = Response status NotJson -> data r = None) /\
    (forall status, get w n = Response status (Json None) -> data r = None) /\
    (save_page w n = false -> data r = None) /\
    (~ fetch_succeeds w n -> data r = None) /\
    (forall p, get w n = Response 200 (Json (Some p)) -> save_page w n = true ->
       data r = Some (n, p)).
Proof.
  destruct (download_page_returns w n) as (r & Hr & Hn).
  exists r. split; [exact Hr|]. split; [exact Hn|].
  unfold download_page, download_page_try in Hr.
  repeat split.
  - intros Hget. rewrite Hget in Hr. by inversion Hr.
  - intros status b Hget Hst. rewrite Hget in Hr.
    apply Z.eqb_neq in Hst. rewrite Hst in Hr. by inversion Hr.
  - intros status Hget. rewrite Hget in Hr.
    destruct (status =? 200); by inversion Hr.
  - intros status Hget. rewrite Hget in Hr.
    destruct (status =? 200); by inversion Hr.
  - intros Hsave. rewrite Hsave in Hr.
    destruct (get w n) as [|status [|[q|]]]; try (destruct (status =? 200));
      by inversion Hr.
  - intros Hno. pose proof (survivor_failure w n Hno) as Hs.
    unfold survivor, download_page, download_page_try in Hs.
    destruct (get w n) as [|status [|[q|]]]; try (destruct (status =? 200));
      try (destruct (save_page w n)); inversion Hr; subst; simpl in *; congruence.
  - intros p Hget Hsave. rewrite Hget, Hsave in Hr. simpl in Hr. by inversion Hr.
Qed.

(** C6. For the page range [1, N] and a positive batch size, [download_all]
    writes as combined list the page objects of the pages whose fetch did not
    fail, in ascending order of page number (whatever the pattern of
    failures); when every fetch succeeds, the list has exactly N entries, the
    pages 1, ..., N in this order. *)
Theorem download_all_pages_in_order w (N bs : Z) :
  0 <= N -> 0 < bs -> save_complete w = true ->
  exists all_pages,
    download_all {| start_page := 1; end_page := N; batch_size := bs |} w = Returns all_pages /\
    all_pages = omap (survivor w) (seqZ 1 N) /\
    StronglySorted Z.lt (fst <$> all_pages) /\
    ((forall n, 1 <= n <= N -> fetch_succeeds w n) ->
       length all_pages = Z.to_nat N /\ fst <$> all_pages = seqZ 1 N).
Proof.
  intros HN Hbs Hsave.
  exists (omap (survivor w) (seqZ 1 N)).
  assert (Hsorted : StronglySorted Z.lt (fst <$> omap (survivor w) (seqZ 1 N))).
  { apply sorted_survivors; [apply survivor_page | apply sorted_seqZ]. }
  split; [|split; [reflexivity|split; [exact Hsorted|]]].
  - unfold download_all. simpl.
    destruct (range3_tiles 1 (N + 1) bs) as (starts & -> & Htile); [lia..|].
    simpl. rewrite batches_survivors. simpl. rewrite Htile, Hsave.
    unfold range2. replace (N + 1 - 1) with N by lia. reflexivity.
  - intros Hall.
    assert (Hnums : fst <$> omap (survivor w) (seqZ 1 N) = seqZ 1 N).
    { apply all_survive. intros n Hn. apply elem_of_seqZ in Hn. apply Hall. lia. }
    split; [|exact Hnums].
    transitivity (length (fst <$> omap (survivor w) (seqZ 1 N))).
    + symmetry. apply length_fmap.
    + rewrite Hnums. apply length_seqZ.
Qed.

End Fetch.

(** *** Concrete runs *)

Example download_all_ok_5 :
  download_all {| start_page := 1; end_page := 5; batch_size := 2 |} all_ok
  = Returns [(1, tt); (2, tt); (3, tt); (4, tt); (5, tt)].
Proof. reflexivity. Qed.

Example download_all_gap_5 :
  download_all {| start_page := 1; end_page := 5; batch_size := 2 |} page2_missing
  = Returns [(1, tt); (3, tt); (4, tt); (5, tt)].
Proof. reflexivity. Qed.

Lemma download_all_pages_in_order_witness :
  exists all_pages,
    download_all {| start_page := 1; end_page := 5; batch_size := 2 |} page2_missing
      = Returns all_pages /\
    all_pages = omap (survivor page2_missing) (seqZ 1 5) /\
    StronglySorted Z.lt (fst <$> all_pages) /\
    ((forall n, 1 <= n <= 5 -> fetch_succeeds page2_missing n) ->
       length all_pages = Z.to_nat 5 /\ fst <$> all_pages = seqZ 1 5).
Proof.
  apply (download_all_pages_in_order page2_missing 5 2); [lia | lia | reflexivity].
Defined.

End DownloaderFacts.

(** ** The loader *)

Module BuilderFacts.

Import Builder.
Local Open Scope cur_scope.

(** *** Statements: what a success says, and failures change nothing *)

Lemma insert_chapter_inv cid name total s r s' :
  insert_chapter cid name total s = (r, s') ->
  (r = Raises IntegrityError /\ s' = s) \/
  (r = Returns tt /\ (cid ∉ chapter_id <$> chapters s) /\ 0 < total /\
   chapters s' = chapters s ++
     [{| chapter_id := cid; chapter_name := name; total_verses := total |}] /\
   verses s' = verses s /\ verses_seq s' = verses_seq s /\
   pages s' = pages s /\ page_verses s' = page_verses s).
Proof.
  unfold insert_chapter. intros H.
  repeat case_decide; inversion H; subst; simpl; auto 10.
Qed.

Lemma insert_verse_inv cid vn txt s r s' :
  insert_verse cid vn txt s = (r, s') ->
  (r = Raises IntegrityError /\ s' = s) \/
  (r = Returns (next_verse_id s) /\
   cid ∈ (chapter_id <$> chapters s) /\ 0 < vn /\ ((cid, vn) ∉ verse_key <$> verses s) /\
   chapters s' = chapters s /\
   verses s' = verses s ++
     [{| verse_id := next_verse_id s; v_chapter_id := cid;
         verse_number := vn; verse_text := txt |}] /\
   pages s' = pages s /\ page_verses s' = page_verses s).
Proof.
  unfold insert_verse. intros H.
  repeat case_decide; inversion H; subst; simpl; auto 10.
Qed.

Lemma insert_page_or_ignore_inv p s :
  exists s', insert_page_or_ignore p s = (Returns tt, s') /\
    chapters s' = chapters s /\ verses s' = verses s /\ verses_seq s' = verses_seq s /\
    page_verses s' = page_verses s /\
    (p ∈ pages s -> s' = s) /\ (p ∉ pages s -> pages s' = pages s ++ [p]).
Proof.
  unfold insert_page_or_ignore, insert_page.
  case_decide; eexists; (split; [reflexivity|]); simpl; tauto.
Qed.

Lemma insert_page_verse_inv p vid ord flag s r s' :
  insert_page_verse p vid ord flag s = (r, s') ->
  (r = Raises IntegrityError /\ s' = s) \/
  (r = Returns tt /\
   p ∈ pages s /\ vid ∈ (verse_id <$> verses s) /\
   ((p, vid) ∉ page_verse <$> page_verses s) /\
   ((p, ord) ∉ page_order <$> page_verses s) /\
   chapters s' = chapters s /\ verses s' = verses s /\ pages s' = pages s /\
   page_verses s' = page_verses s ++
     [{| pv_page_id := p; pv_verse_id := vid; verse_order := ord;
         starts_new_chapter := flag |}]).
Proof.
  unfold insert_page_verse. intros H.
  repeat case_decide; inversion H; subst; simpl; auto 10.
Qed.

(** A statement with bound parameters: the binding raises and nothing
    changes, or the parameters are in range and the statement runs. *)
Lemma bound_inv {A : Type} (params : list Z) (m : cur A) s r s' :
  cbind (bind_int params) (fun _ => m) s = (r, s') ->
  (r = Raises OverflowError /\ s' = s /\ ~ Forall int64 params) \/
  (Forall int64 params /\ m s = (r, s')).
Proof.
  unfold cbind, bind_int. destruct (decide (Forall int64 params)) as [Hb|Hb]; intros H.
  - by right.
  - left. by inversion H.
Qed.

Lemma bound_returns {A : Type} (params : list Z) (m : cur A) s :
  Forall int64 params -> cbind (bind_int params) (fun _ => m) s = m s.
Proof. intros Hb. unfold cbind, bind_int. by rewrite decide_True. Qed.

(** *** What pass 2 keeps true *)

Lemma cache_sound_empty s : cache_sound ∅ s.
Proof. intros k i H. by rewrite lookup_empty in H. Qed.

Lemma cache_fk_empty s : cache_fk ∅ s.
Proof. intros k i H. by rewrite lookup_empty in H. Qed.

Lemma written_for_weaken cache cache' r e :
  cache ⊆ cache' -> written_for cache r e -> written_for cache' r e.
Proof.
  intros Hsub [Hshape Hid]. split; [exact Hshape|]. by apply (lookup_weaken cache cache').
Qed.

(** The rows written for entries have their shapes. *)
Lemma written_shapes cache new entries :
  Forall2 (written_for cache) new entries -> row_shape <$> new = fst <$> entries.
Proof.
  induction 1 as [|r e new entries [Hshape _] _ IH]; [reflexivity|].
  rewrite !fmap_cons. by f_equal.
Qed.

Lemma written_verse_orders cache new entries :
  Forall2 (written_for cache) new entries ->
  verse_order <$> new = (fun e : entry => snd (fst (fst e))) <$> entries.
Proof.
  induction 1 as [|r e new entries [Hshape _] _ IH]; [reflexivity|].
  rewrite !fmap_cons. f_equal; [|exact IH]. rewrite <- Hshape. reflexivity.
Qed.

Lemma written_orders cache new entries :
  Forall2 (written_for cache) new entries -> page_order <$> new = entry_order <$> entries.
Proof.
  induction 1 as [|r e new entries [Hshape _] _ IH]; [reflexivity|].
  rewrite !fmap_cons. f_equal; [|exact IH].
  unfold page_order, entry_order. rewrite <- Hshape. reflexivity.
Qed.

(** The keys may be listed twice. *)
Lemma grows_keys s s' cache cache' entries keys keys' :
  keys ⊆ keys' -> keys' ⊆ keys ->
  grows s s' cache cache' entries keys -> grows s s' cache cache' entries keys'.
Proof.
  intros Hsub Hsup (Hch & (vs & Hv & Hin) & Hnew & Hc & Hk & Hrest).
  unfold grows. split; [exact Hch|]. split; [|split; [exact Hnew|]].
  - exists vs. split; [exact Hv|]. intros v Hvs. apply Hsub. by apply Hin.
  - split; [exact Hc|]. split; [|exact Hrest]. intros k Hk'. apply Hk. by apply Hsup.
Qed.

Lemma grows_refl s cache : grows s s cache cache [] [].
Proof.
  unfold grows. repeat split; auto.
  - exists []. split; [by rewrite app_nil_r|]. intros v Hv. by apply elem_of_nil in Hv.
  - exists []. split; [by rewrite app_nil_r | constructor].
  - intros k Hk. by apply elem_of_nil in Hk.
Qed.

Lemma grows_trans s1 s2 s3 c1 c2 c3 entries12 entries23 keys12 keys23 :
  grows s1 s2 c1 c2 entries12 keys12 ->
  grows s2 s3 c2 c3 entries23 keys23 ->
  grows s1 s3 c1 c3 (entries12 ++ entries23) (keys12 ++ keys23).
Proof.
  intros (Hch1 & (vs1 & Hv1 & Hin1) & (n1 & Hp1 & Hr1) & Hc1 & Hk1 & Hu1 & Ho1 & Hs1 & Hf1)
         (Hch2 & (vs2 & Hv2 & Hin2) & (n2 & Hp2 & Hr2) & Hc2 & Hk2 & Hu2 & Ho2 & Hs2 & Hf2).
  unfold grows. repeat split; auto.
  - congruence.
  - exists (vs1 ++ vs2). split; [rewrite Hv2, Hv1; by rewrite app_assoc|].
    intros v Hv. apply elem_of_app. apply elem_of_app in Hv as [Hv|Hv]; auto.
  - exists (n1 ++ n2). split; [rewrite Hp2, Hp1; by rewrite app_assoc|].
    apply Forall2_app; [|exact Hr2].
    eapply Forall2_impl; [exact Hr1|]. intros r e. by apply written_for_weaken.
  - by transitivity c2.
  - intros k Hk. apply elem_of_app in Hk as [Hk|Hk]; [|by apply Hk2].
    destruct (Hk1 k Hk) as [i Hi]. exists i.
    by apply (lookup_weaken c2 c3).
Qed.

(** A change of [pages] alone is no growth of the other tables. *)
Lemma grows_pages s s' cache :
  chapters s' = chapters s -> verses s' = verses s -> page_verses s' = page_verses s ->
  grows s s' cache cache [] [].
Proof.
  intros Hc Hv Hp. unfold grows, cache_sound, cache_fk. rewrite Hc, Hv, Hp.
  repeat split; auto.
  - exists []. split; [by rewrite app_nil_r|]. intros v Hv'. by apply elem_of_nil in Hv'.
  - exists []. split; [by rewrite app_nil_r | constructor].
  - intros k Hk. by apply elem_of_nil in Hk.
Qed.

Lemma NoDup_snoc {A : Type} (l : list A) (x : A) :
  NoDup l -> x ∉ l -> NoDup (l ++ [x]).
Proof.
  intros Hl Hx. apply NoDup_app. split; [exact Hl|]. split.
  - intros y Hy Hy'. apply list_elem_of_singleton in Hy'. by subst.
  - apply NoDup_singleton.
Qed.

(** The link of a fragment to its page: one [INSERT INTO page_verses]. *)
Lemma link_grows p vid ord flag s s' cache f :
  insert_page_verse p vid ord flag s = (Returns tt, s') ->
  cache !! fragment_key f = Some vid ->
  grows s s' cache cache [((p, ord, flag), f)] [fragment_key f] /\ pages s' = pages s.
Proof.
  intros H Hk.
  apply insert_page_verse_inv in H as [[? _]|(_ & _ & _ & _ & Hfree & Hc & Hv & Hp & Hpv)];
    [discriminate|].
  split; [|exact Hp].
  unfold grows, cache_sound, cache_fk. rewrite Hc, Hv, Hpv.
  repeat split; auto.
  - exists []. split; [by rewrite app_nil_r|]. intros v Hv'. by apply elem_of_nil in Hv'.
  - eexists. split; [reflexivity|]. repeat constructor. exact Hk.
  - intros k' Hk'. apply list_elem_of_singleton in Hk'. subst. by exists vid.
  - intros Hnd. rewrite fmap_app. by apply NoDup_snoc.
Qed.

Section Loader.

Variable py_int : string -> option Z.

Lemma verse_step_grows p st f s st' s' :
  verse_step p st f s = (Returns st', s') ->
  grows s s' (verse_cache st) (verse_cache st')
        [((p, order st, bool_decide (current_chapter st <> Some (chapter f))), f)]
        [fragment_key f] /\
  current_chapter st' = Some (chapter f) /\ order st' = order st + 1 /\
  pages s' = pages s.
Proof.
  unfold verse_step, cbind, ret, raise. intros H.
  destruct (verse_cache st !! (chapter f, verse f)) as [i|] eqn:Hcache.
  - rewrite Hcache in H.
    destruct (insert_page_verse p i (order st) _ s) as [[[]|e] s2] eqn:Hlink;
      inversion H; subst; clear H. simpl.
    destruct (link_grows _ _ _ _ _ _ (verse_cache st) f Hlink Hcache) as [Hg Hp]. auto.
  - unfold bind_int in H.
    destruct (decide (Forall int64 [chapter f; verse f])) as [Hbind|Hbind]; [|discriminate].
    destruct (insert_verse (chapter f) (verse f) (text f) s) as [[rowid|e] s1] eqn:Hins;
      [|discriminate].
    rewrite lookup_insert_eq in H.
    destruct (insert_page_verse p rowid (order st) _ s1) as [[[]|e] s2] eqn:Hlink;
      inversion H; subst; clear H. simpl.
    apply insert_verse_inv in Hins
      as [[? _]|(Hid & Hfk & _ & Hnew & Hc & Hv & Hp & Hpv)]; [discriminate|].
    set (cache1 := <[(chapter f, verse f) := rowid]> (verse_cache st)).
    destruct (link_grows _ _ _ _ _ _ cache1 f Hlink) as [Hg Hp'].
    { apply lookup_insert_eq. }
    split; [|repeat split; congruence].
    assert (Hfirst : grows s s1 (verse_cache st) cache1 [] [fragment_key f]).
    { unfold grows, cache_sound, cache_fk. rewrite Hc, Hv, Hpv.
      repeat split; auto.
      - eexists. split; [reflexivity|]. intros v Hv'.
        apply list_elem_of_singleton in Hv'. subst v. left.
      - exists []. split; [by rewrite app_nil_r | constructor].
      - by apply insert_subseteq.
      - intros k Hk. apply list_elem_of_singleton in Hk. subst k.
        exists rowid. apply lookup_insert_eq.
      - intros Hnd. rewrite fmap_app. by apply NoDup_snoc.
      - intros Hs k i Hk.
        unfold cache1 in Hk. rewrite lookup_insert in Hk. case_decide.
        + inversion Hk; subst.
          exists {| verse_id := next_verse_id s; v_chapter_id := chapter f;
                    verse_number := verse f; verse_text := text f |}.
          split; [apply elem_of_app; right; left|].
          split; [reflexivity | simpl; congruence].
        + destruct (Hs k i Hk) as (v & Hin & Hkey & Hvid).
          exists v. split; [|by split]. apply elem_of_app. by left.
      - intros Hs k i Hk.
        unfold cache1 in Hk. rewrite lookup_insert in Hk. case_decide.
        + by subst k.
        + by apply (Hs k i). }
    pose proof (grows_trans _ _ _ _ _ _ _ _ _ _ Hfirst Hg) as Hboth.
    simpl in Hboth. revert Hboth.
    apply grows_keys; intros k Hk; [|by right].
    apply elem_of_cons in Hk as [->|Hk]; [left | exact Hk].
Qed.

Lemma cfor_app {S A : Type} (body : S -> A -> cur S) l1 l2 acc s :
  cfor body (l1 ++ l2) acc s =
  match cfor body l1 acc s with
  | (Returns acc', s') => cfor body l2 acc' s'
  | (Raises e, s') => (Raises e, s')
  end.
Proof.
  revert acc s. induction l1 as [|x l1 IH]; intros acc s; simpl; [reflexivity|].
  unfold cbind. destruct (body acc x s) as [[acc'|e] s']; [apply IH | reflexivity].
Qed.

(** Nested loops are one loop over the concatenation. *)
Lemma cfor_concat {S A : Type} (body : S -> A -> cur S) (ls : list (list A)) acc s :
  cfor (fun a l => cfor body l a) ls acc s = cfor body (concat ls) acc s.
Proof.
  revert acc s. induction ls as [|l ls IH]; intros acc s; simpl; [reflexivity|].
  rewrite cfor_app. unfold cbind.
  destruct (cfor body l acc s) as [[acc'|e] s']; [apply IH | reflexivity].
Qed.

Lemma fragments_grow p frs st s st' s' :
  cfor (verse_step p) frs st s = (Returns st', s') ->
  grows s s' (verse_cache st) (verse_cache st')
        (page_rows p (order st) (current_chapter st) frs) (fragment_key <$> frs) /\
  pages s' = pages s.
Proof.
  revert st s. induction frs as [|f frs IH]; intros st s H; simpl in *.
  - inversion H; subst. split; [apply grows_refl | reflexivity].
  - unfold cbind in H.
    destruct (verse_step p st f s) as [[st1|e] s1] eqn:Hstep; [|discriminate].
    apply verse_step_grows in Hstep as (Hg1 & Hcur & Hord & Hp1).
    apply IH in H as (Hg2 & Hp2). rewrite Hcur, Hord in Hg2.
    split; [|congruence].
    exact (grows_trans _ _ _ _ _ _ _ _ _ _ Hg1 Hg2).
Qed.

Lemma page_step_grows cache item s cache' s' :
  page_step py_int cache item s = (Returns cache', s') ->
  grows s s' cache cache' (grouping_rows py_int item) (fragment_key <$> snd item) /\
  exists p, page_num_of py_int (fst item) = Returns p /\ p ∈ pages s'.
Proof.
  unfold page_step, grouping_rows, cbind, lift, ret. intros H.
  destruct (page_num_of py_int (fst item)) as [p|e]; [|discriminate].
  unfold bind_int in H.
  destruct (decide (Forall int64 [p])) as [Hbind|Hbind]; [|discriminate].
  destruct (insert_page_or_ignore_inv p s) as (s1 & Hins & Hc & Hv & _ & Hpv & Hold & Hnew).
  rewrite Hins in H.
  destruct (cfor (verse_step p) (snd item) _ s1) as [[st|e] s2] eqn:Hloop;
    inversion H; subst; clear H.
  apply fragments_grow in Hloop as (Hg & Hp). simpl in Hg.
  split.
  - exact (grows_trans _ _ _ _ _ _ _ _ _ _ (grows_pages s s1 cache Hc Hv Hpv) Hg).
  - exists p. split; [reflexivity|]. rewrite Hp.
    destruct (decide (p ∈ pages s)) as [Hin|Hout].
    + by rewrite (Hold Hin).
    + rewrite (Hnew Hout). apply elem_of_app. right. by apply list_elem_of_singleton.
Qed.

Lemma groupings_grow items cache s cache' s' :
  cfor (page_step py_int) items cache s = (Returns cache', s') ->
  grows s s' cache cache' (concat (grouping_rows py_int <$> items))
        (fragment_key <$> concat (snd <$> items)).
Proof.
  revert cache s. induction items as [|item items IH]; intros cache s H; simpl in *.
  - inversion H; subst. apply grows_refl.
  - unfold cbind in H.
    destruct (page_step py_int cache item s) as [[cache1|e] s1] eqn:Hstep; [|discriminate].
    apply page_step_grows in Hstep as (Hg1 & _). apply IH in H.
    rewrite fmap_app. exact (grows_trans _ _ _ _ _ _ _ _ _ _ Hg1 H).
Qed.

(** Pass 2 as a whole, when it returns. *)
Lemma pass2_grows pages_data s s' :
  _insert_pages_and_verses py_int pages_data s = (Returns tt, s') ->
  exists cache',
    grows s s' ∅ cache' (concat (grouping_rows py_int <$> groupings pages_data))
          (fragment_key <$> corpus_fragments pages_data).
Proof.
  unfold _insert_pages_and_verses, cbind, ret. rewrite cfor_concat. intros H.
  destruct (cfor (page_step py_int) (concat pages_data) ∅ s) as [[cache'|e] s1] eqn:Hloop;
    inversion H; subst; clear H.
  exists cache'. by apply groupings_grow.
Qed.

(** *** The shape of the rows of one page *)

Lemma filter_fmap {A B : Type} (f : A -> B) (P : B -> Prop) `{forall y, Decision (P y)}
    (l : list A) :
  filter P (f <$> l) = f <$> filter (fun x => P (f x)) l.
Proof.
  induction l as [|x l IH]; [reflexivity|].
  rewrite fmap_cons, !filter_cons. destruct (decide (P (f x))); simpl; by rewrite IH.
Qed.

Lemma page_rows_page p ord cursor frs (e : entry) :
  e ∈ page_rows p ord cursor frs -> fst (fst (fst e)) = p.
Proof.
  revert ord cursor. induction frs as [|f frs IH]; intros ord cursor He; simpl in He.
  - by apply elem_of_nil in He.
  - apply elem_of_cons in He as [->|He]; [reflexivity | by eapply IH].
Qed.

Lemma page_rows_orders p ord cursor frs :
  (fun e : entry => snd (fst (fst e))) <$> page_rows p ord cursor frs
  = seqZ ord (Z.of_nat (length frs)).
Proof.
  revert ord cursor. induction frs as [|f frs IH]; intros ord cursor; simpl.
  - by rewrite seqZ_nil.
  - rewrite IH, (seqZ_cons ord) by lia. do 2 f_equal; lia.
Qed.

Lemma page_rows_lookup p ord cursor frs (i : nat) (e : entry) :
  page_rows p ord cursor frs !! i = Some e ->
  exists f, frs !! i = Some f /\
    e = ((p, ord + Z.of_nat i,
          bool_decide (match i with
                       | O => cursor
                       | Datatypes.S j => chapter <$> frs !! j
                       end <> Some (chapter f))), f).
Proof.
  revert ord cursor i. induction frs as [|f frs IH]; intros ord cursor i He; simpl in He.
  - by rewrite lookup_nil in He.
  - destruct i as [|i]; simpl in *.
    + inversion He; subst. exists f. split; [reflexivity|]. by rewrite Z.add_0_r.
    + apply IH in He as (g & Hg & ->). exists g. split; [exact Hg|].
      f_equal. f_equal; [f_equal; lia|]. destruct i; reflexivity.
Qed.

Lemma page_rows_length p ord cursor frs :
  length (page_rows p ord cursor frs) = length frs.
Proof.
  revert ord cursor. induction frs as [|f frs IH]; intros ord cursor; simpl; auto.
Qed.

Lemma elem_of_concat {A : Type} (x : A) (ls : list (list A)) :
  x ∈ concat ls <-> exists l, l ∈ ls /\ x ∈ l.
Proof.
  rewrite list_elem_of_In, in_concat. split; intros (l & Hl & Hx); exists l.
  - by rewrite !list_elem_of_In.
  - by rewrite <- !list_elem_of_In.
Qed.

Lemma Forall2_filter {A B : Type} (R : A -> B -> Prop) (P : A -> Prop) (Q : B -> Prop)
    `{forall x, Decision (P x)} `{forall y, Decision (Q y)} (l : list A) (k : list B) :
  Forall2 R l k -> (forall x y, R x y -> (P x <-> Q y)) ->
  Forall2 R (filter P l) (filter Q k).
Proof.
  intros HR Hiff. induction HR as [|x y l k Hxy _ IH]; [constructor|].
  rewrite !filter_cons. destruct (decide (P x)) as [HP|HP], (decide (Q y)) as [HQ|HQ].
  - by constructor.
  - by apply (Hiff x y Hxy) in HP.
  - by apply (Hiff x y Hxy) in HQ.
  - exact IH.
Qed.

Lemma filter_all {A : Type} (P : A -> Prop) `{forall x, Decision (P x)} (l : list A) :
  (forall x, x ∈ l -> P x) -> filter P l = l.
Proof.
  induction l as [|x l IH]; intros Hall; [reflexivity|].
  rewrite filter_cons_True by (apply Hall; left).
  f_equal. apply IH. intros y Hy. apply Hall. by right.
Qed.

Lemma filter_none {A : Type} (P : A -> Prop) `{forall x, Decision (P x)} (l : list A) :
  (forall x, x ∈ l -> ~ P x) -> filter P l = [].
Proof.
  induction l as [|x l IH]; intros Hnone; [reflexivity|].
  rewrite filter_cons_False by (apply Hnone; left).
  apply IH. intros y Hy. apply Hnone. by right.
Qed.

(** Under [UNIQUE (page_id, verse_order)], the rows of page [P] are those of
    the fragments of [P], numbered from 0: of the groupings that read [P], at
    most one has fragments. *)
Lemma rows_of_page_groupings (P : Z) (items : list (string * list fragment)) :
  NoDup (entry_order <$> concat (grouping_rows py_int <$> items)) ->
  filter (fun e : entry => fst (fst (fst e)) = P) (concat (grouping_rows py_int <$> items)) =
  page_rows P 0 None
    (concat (snd <$> filter (fun it => page_num_of py_int (fst it) = Returns P) items)).
Proof.
  induction items as [|item items IH]; intros Hnd; [reflexivity|].
  rewrite fmap_cons, concat_cons, fmap_app in Hnd.
  apply NoDup_app in Hnd as (_ & Hdisj & Hrest). specialize (IH Hrest).
  rewrite fmap_cons, concat_cons, filter_app, IH.
  destruct (decide (page_num_of py_int (fst item) = Returns P)) as [HP|HP].
  - rewrite filter_cons_True by exact HP. rewrite fmap_cons, concat_cons.
    unfold grouping_rows at 1. unfold grouping_rows at 1 in Hdisj. rewrite HP in *.
    rewrite filter_all by (intros x Hx; by apply page_rows_page in Hx).
    destruct (snd item) as [|f frs]; [reflexivity|].
    destruct (concat (snd <$> filter _ items)) as [|g others].
    { by rewrite !app_nil_r. }
    exfalso. apply (Hdisj (P, 0)).
    + simpl. left.
    + simpl in IH.
      apply (list_elem_of_fmap_2' _ _ ((P, 0, bool_decide (None <> Some (chapter g))), g));
        [|reflexivity].
      assert (Hin : ((P, 0, bool_decide (None <> Some (chapter g))), g)
                    ∈ filter (fun e : entry => fst (fst (fst e)) = P)
                        (concat (grouping_rows py_int <$> items))).
      { rewrite IH. left. }
      by apply list_elem_of_filter in Hin as [_ Hin].
  - rewrite filter_cons_False by exact HP.
    rewrite filter_none; [reflexivity|].
    intros x Hx Hpage. apply HP. unfold grouping_rows in Hx.
    destruct (page_num_of py_int (fst item)) as [p|e]; [|by apply elem_of_nil in Hx].
    apply page_rows_page in Hx. congruence.
Qed.

(** *** Chapter insertion and the run as a whole *)

Lemma insert_chapters_inv names counts s r s' :
  _insert_chapters py_int names counts s = (r, s') ->
  verses s' = verses s /\ verses_seq s' = verses_seq s /\
  pages s' = pages s /\ page_verses s' = page_verses s /\
  (forall row, row ∈ chapters s' ->
     row ∈ chapters s \/
     (total_verses row = get_count counts (chapter_id row) /\
      exists k, k ∈ fst <$> names /\ py_int k = Some (chapter_id row))).
Proof.
  unfold _insert_chapters. generalize tt at 1. revert s.
  induction names as [|[k name] names IH]; intros s u H; simpl in H.
  - inversion H; subst. repeat split; auto.
  - unfold cbind in H.
    destruct (chapter_step py_int counts u (k, name) s) as [[u1|e] s1] eqn:Hstep.
    + apply IH in H as (Hv & Hq & Hp & Hpv & Hrows).
      unfold chapter_step in Hstep. simpl in Hstep.
      destruct (py_int k) as [cid|] eqn:Hk; [|discriminate].
      destruct (get_count counts cid =? 0).
      * inversion Hstep; subst. repeat split; auto.
        intros row Hrow. destruct (Hrows row Hrow) as [?|(Ht & k' & Hk' & Hint)]; [by left|].
        right. split; [exact Ht|]. exists k'. split; [by right | exact Hint].
      * apply bound_inv in Hstep as [(? & _)|[_ Hstep]]; [discriminate|].
        apply insert_chapter_inv in Hstep
          as [[? _]|(_ & _ & _ & Hc1 & Hv1 & Hq1 & Hp1 & Hpv1)]; [discriminate|].
        repeat split; try congruence.
        intros row Hrow. destruct (Hrows row Hrow) as [Hold|(Ht & k' & Hk' & Hint)].
        -- rewrite Hc1 in Hold. apply elem_of_app in Hold as [?|Hnew]; [by left|].
           apply list_elem_of_singleton in Hnew. subst row. simpl.
           right. split; [reflexivity|]. exists k. split; [left | exact Hk].
        -- right. split; [exact Ht|]. exists k'. split; [by right | exact Hint].
    + inversion H; subst.
      unfold chapter_step in Hstep. simpl in Hstep.
      destruct (py_int k) as [cid|] eqn:Hk.
      * destruct (get_count counts cid =? 0); [discriminate|].
        apply bound_inv in Hstep as [(_ & -> & _)|[_ Hstep]]; [repeat split; auto|].
        apply insert_chapter_inv in Hstep as [[_ ->]|[? _]];
          [repeat split; auto | discriminate].
      * inversion Hstep; subst. repeat split; auto.
Qed.

Lemma load_json_document {A : Type} (path : file A) (d : A) :
  _load_json path = Returns (Some d) -> path = Document d.
Proof.
  destruct path as [| |e|d']; simpl; try discriminate.
  - by destruct (decide (e = JSONDecodeError)).
  - intros H. by inversion H.
Qed.

(** A run that loaded read both documents, found ["pages"], ran chapter
    insertion and pass 2 to their end on the store it was given, and left
    their result in the file. *)
Lemma loaded_inv db quran_path chapters_names_path :
  loaded (load_data py_int db quran_path chapters_names_path) ->
  exists quran_data chapters_names pages_data s1 s2,
    quran_path = Document quran_data /\
    chapters_names_path = Document chapters_names /\
    chapters_names <> [] /\
    getitem quran_data "pages" = Returns pages_data /\
    _insert_chapters py_int chapters_names (_calculate_verse_counts pages_data) db
      = (Returns tt, s1) /\
    _insert_pages_and_verses py_int pages_data s1 = (Returns tt, s2) /\
    snd (load_data py_int db quran_path chapters_names_path)
      = {| durable := s2; working := s2; commits := 1 |}.
Proof.
  unfold loaded, load_data. intros [Hret Hcommits].
  destruct (_load_json quran_path) as [[[|entry quran_data]|]|e] eqn:Hq;
    destruct (_load_json chapters_names_path) as [[[|name chapters_names]|]|e'] eqn:Hn;
    try discriminate.
  apply load_json_document in Hq as ->. apply load_json_document in Hn as ->.
  simpl in *. unfold get_connection, load_body in *.
  exists (entry :: quran_data), (name :: chapters_names).
  destruct (getitem (entry :: quran_data) "pages") as [pages_data|e] eqn:Hpages;
    [|discriminate].
  unfold execute, cbind, connect in *. simpl in *.
  destruct (_insert_chapters py_int (name :: chapters_names) _ db) as [[[]|e] s1] eqn:H1;
    [|destruct (is_sqlite_error e); discriminate].
  destruct (_insert_pages_and_verses py_int pages_data s1) as [[[]|e] s2] eqn:H2;
    [|destruct (is_sqlite_error e); discriminate].
  exists pages_data, s1, s2. repeat split; auto.
Qed.

Lemma count_one {A B : Type} `{EqDecision B} (f : A -> B) (l : list A) (k : B) :
  NoDup (f <$> l) -> k ∈ f <$> l -> length (filter (fun x => f x = k) l) = 1%nat.
Proof.
  induction l as [|x l IH]; intros Hnd Hk; simpl in *.
  - by apply elem_of_nil in Hk.
  - apply NoDup_cons in Hnd as [Hx Hnd]. destruct (decide (f x = k)) as [Hfx|Hfx].
    + rewrite filter_cons_True by exact Hfx. simpl. f_equal.
      rewrite filter_none; [reflexivity|].
      intros y Hy Hfy. apply Hx. rewrite Hfx, <- Hfy. by apply list_elem_of_fmap_2.
    + rewrite filter_cons_False by exact Hfx. apply IH; [exact Hnd|].
      apply elem_of_cons in Hk as [Hk|Hk]; [congruence | exact Hk].
Qed.

(** *** What the two counts of a chapter are *)

Lemma foldl_concat {A B : Type} (f : A -> B -> A) (ls : list (list B)) (a : A) :
  foldl (fun a l => foldl f a l) a ls = foldl f a (concat ls).
Proof.
  revert a. induction ls as [|l ls IH]; intros a; simpl; [reflexivity|].
  by rewrite IH, foldl_app.
Qed.

Lemma count_verses_fold (frs : list fragment) (counts : gmap Z Z) (c : Z) :
  get_count (foldl count_verse counts frs) c
  = get_count counts c + Z.of_nat (length (filter (fun f => chapter f = c) frs)).
Proof.
  revert counts. induction frs as [|f frs IH]; intros counts; simpl; [lia|].
  rewrite IH, filter_cons. unfold count_verse at 1, get_count at 1.
  rewrite lookup_insert. destruct (decide (chapter f = c)) as [->|Hne]; simpl.
  - fold (get_count counts c). lia.
  - fold (get_count counts c). lia.
Qed.

(** Pass 1 tallies the fragments of each chapter. *)
Lemma calculate_verse_counts_tally (pages_data : list page_dict) (c : Z) :
  get_count (_calculate_verse_counts pages_data) c
  = Z.of_nat (length (filter (fun f => chapter f = c) (corpus_fragments pages_data))).
Proof.
  unfold _calculate_verse_counts.
  assert (Hfold : forall counts,
    foldl (fun counts page_data =>
             foldl (fun counts verses => foldl count_verse counts verses)
                   counts (snd <$> page_data)) counts pages_data
    = foldl count_verse counts (corpus_fragments pages_data)).
  { unfold corpus_fragments, groupings.
    induction pages_data as [|page_data rest IH]; intros counts; simpl; [reflexivity|].
    by rewrite IH, fmap_app, concat_app, foldl_app, foldl_concat. }
  rewrite Hfold, count_verses_fold. unfold get_count. rewrite lookup_empty. simpl. lia.
Qed.

(** *** Runs that loaded *)

Section LoadedRun.

(** A store [db], the two documents, and the run of [load_data] on them. *)
Variables (db : store) (quran_data : quran_doc) (chapters_names : names_map).
Variable pages_data : list page_dict.

Let run : py unit * connection :=
  load_data py_int db (Document quran_data) (Document chapters_names).

Hypothesis corpus_pages : getitem quran_data "pages" = Returns pages_data.
Hypothesis run_loaded : loaded run.

(** Pass 2 started from the [verses] and [page_verses] of [db] and an empty
    cache, and the file holds what it reached. *)
Lemma loaded_grows :
  exists s1 cache',
    _insert_chapters py_int chapters_names (_calculate_verse_counts pages_data) db
      = (Returns tt, s1) /\
    verses s1 = verses db /\ page_verses s1 = page_verses db /\
    grows s1 (store_after run) ∅ cache'
          (concat (grouping_rows py_int <$> groupings pages_data))
          (fragment_key <$> corpus_fragments pages_data).
Proof.
  destruct (loaded_inv _ _ _ run_loaded)
    as (qd & names & pd & s1 & s2 & Hq & Hn & _ & Hpd & H1 & H2 & Hrun).
  inversion Hq; subst qd. inversion Hn; subst names.
  rewrite corpus_pages in Hpd. inversion Hpd; subst pd. clear Hq Hn Hpd.
  destruct (pass2_grows _ _ _ H2) as (cache' & Hg).
  exists s1, cache'. unfold store_after, run. rewrite Hrun. simpl.
  destruct (insert_chapters_inv _ _ _ _ _ H1) as (Hv & _ & _ & Hpv & _).
  split; [exact H1|]. split; [exact Hv|]. split; [exact Hpv | exact Hg].
Qed.

(** The rows of a page that had none before the run: one for each fragment
    of the page, in order. *)
Lemma rows_of_page_written (P : Z) :
  NoDup (page_order <$> page_verses db) ->
  rows_of_page P db = [] ->
  exists cache',
    cache_sound cache' (store_after run) /\
    Forall2 (written_for cache') (rows_of_page P (store_after run))
            (page_rows P 0 None (fragments_on py_int P pages_data)).
Proof.
  intros Hunique Hnone.
  destruct loaded_grows
    as (s1 & cache' & _ & _ & Hpv & _ & _ & (new & Hnew & Hwritten) & _ & _ & _ & Hnd
        & Hsound & _).
  exists cache'. split; [apply Hsound, cache_sound_empty|].
  rewrite Hpv in *. specialize (Hnd Hunique).
  rewrite Hnew, fmap_app in Hnd. apply NoDup_app in Hnd as (_ & _ & Hnd).
  rewrite (written_orders _ _ _ Hwritten) in Hnd.
  unfold rows_of_page in *. rewrite Hnew, filter_app, Hnone. simpl.
  unfold fragments_on. rewrite <- (rows_of_page_groupings P _ Hnd).
  apply Forall2_filter; [exact Hwritten|].
  intros r e [Hshape _]. unfold row_shape in Hshape. rewrite <- Hshape. reflexivity.
Qed.


(** C3. Take a store whose [UNIQUE (page_id, verse_order)] holds, a page [P]
    without rows in it (in a new store, every page), and a run that loaded a
    corpus into it. Then the rows of [page_verses] of [P] carry, in insertion
    order, the [verse_order] values 0, 1, ..., k-1, for k the number of
    fragments of [P] in the corpus: no value is repeated, and the values are
    exactly those from 0 to k-1. *)
Theorem page_orders_contiguous (P : Z) :
  NoDup (page_order <$> page_verses db) ->
  rows_of_page P db = [] ->
  verse_order <$> rows_of_page P (store_after run)
    = seqZ 0 (Z.of_nat (length (fragments_on py_int P pages_data))) /\
  NoDup (verse_order <$> rows_of_page P (store_after run)) /\
  (forall o,
     o ∈ verse_order <$> rows_of_page P (store_after run)
     <-> 0 <= o < Z.of_nat (length (fragments_on py_int P pages_data))).
Proof.
  intros Hunique Hnone.
  destruct (rows_of_page_written P Hunique Hnone) as (cache' & _ & Hwritten).
  assert (Horders :
    verse_order <$> rows_of_page P (store_after run)
    = seqZ 0 (Z.of_nat (length (fragments_on py_int P pages_data)))).
  { rewrite (written_verse_orders _ _ _ Hwritten). apply page_rows_orders. }
  rewrite Horders. split; [reflexivity|]. split; [apply NoDup_seqZ|].
  intros o. rewrite elem_of_seqZ. lia.
Qed.

(** C4. Take a store whose [UNIQUE (page_id, verse_order)] holds, a page [P]
    without rows in it (in a new store, every page), and a run that loaded a
    corpus into it. Then the rows of [page_verses] of [P] are as many as the
    fragments of [P]; the row at position [i] was written for the fragment at
    position [i]: it has [verse_order = i] and references the verse row that
    carries the (chapter, verse number) pair of that fragment; and its
    [starts_new_chapter] is true exactly when it is the first row of the page
    ([verse_order] 0: the cursor starts unset on every page) or the chapter of
    its fragment differs from the chapter of the fragment just before it on
    the page. *)
Theorem chapter_boundaries_marked (P : Z) :
  NoDup (page_order <$> page_verses db) ->
  rows_of_page P db = [] ->
  length (rows_of_page P (store_after run))
    = length (fragments_on py_int P pages_data) /\
  forall (i : nat) r,
    rows_of_page P (store_after run) !! i = Some r ->
    exists f, fragments_on py_int P pages_data !! i = Some f /\
      verse_order r = Z.of_nat i /\
      (exists v, v ∈ verses (store_after run) /\
                 verse_id v = pv_verse_id r /\ verse_key v = fragment_key f) /\
      (starts_new_chapter r = true <->
         i = 0%nat \/
         exists g, fragments_on py_int P pages_data !! (i - 1)%nat = Some g /\
                   chapter g <> chapter f).
Proof.
  intros Hunique Hnone.
  destruct (rows_of_page_written P Hunique Hnone) as (cache' & Hsound & Hwritten).
  split.
  { rewrite (Forall2_length _ _ _ Hwritten). apply page_rows_length. }
  intros i r Hr.
  destruct (Forall2_lookup_l _ _ _ _ _ Hwritten Hr) as (e & Hi & Hshape & Hcached).
  apply page_rows_lookup in Hi as (f & Hf & ->).
  exists f. split; [exact Hf|].
  unfold row_shape in Hshape. simpl in *. injection Hshape as Hp Hord Hflag.
  split; [lia|]. split.
  { destruct (Hsound _ _ Hcached) as (v & Hin & Hkey & Hid). by exists v. }
  rewrite Hflag, bool_decide_eq_true. destruct i as [|j]; simpl.
  - split; [by left | congruence].
  - rewrite Nat.sub_0_r.
    destruct (fragments_on py_int P pages_data !! j) as [g|] eqn:Hg; simpl.
    + split.
      * intros Hne. right. exists g. split; [reflexivity | congruence].
      * intros [?|(g' & Hg' & Hne)]; [discriminate|]. congruence.
    + apply lookup_ge_None in Hg. apply lookup_lt_Some in Hf. lia.
Qed.

(** What the code makes of the two counts of C1, for a run that loaded into a
    store without verses. A chapter row of the run has as [total_verses] the
    number of fragments of its chapter (pass 1 tallies fragments), while the
    rows of [verses] that reference it are as many as the distinct (chapter,
    verse number) pairs of its chapter (pass 2 stores a pair once). The two
    agree when no pair is carried by two fragments. *)
Lemma chapter_counts :
  verses db = [] ->
  forall row, row ∈ chapters (store_after run) -> row ∉ chapters db ->
    total_verses row
      = Z.of_nat (length (filter (fun f => chapter f = chapter_id row)
                                 (corpus_fragments pages_data))) /\
    actual_verses (store_after run) (chapter_id row)
      = Z.of_nat (length (filter (fun k => fst k = chapter_id row)
                                 (remove_dups (fragment_key <$> corpus_fragments pages_data)))) /\
    (NoDup (fragment_key <$> corpus_fragments pages_data) ->
       total_verses row = actual_verses (store_after run) (chapter_id row)).
Proof.
  intros Hempty row Hrow Hnew.
  destruct loaded_grows
    as (s1 & cache' & H1 & Hv & _ & Hch & (vs & Hvs & Hin) & _ & _ & Hcached & Hnd & _
        & Hsound & _).
  rewrite Hv, Hempty in *. simpl in Hvs. specialize (Hnd (NoDup_nil_2)).
  rewrite Hvs in Hnd.
  assert (Hsame : forall k, k ∈ verse_key <$> vs <-> k ∈ fragment_key <$> corpus_fragments pages_data).
  { intros k. split.
    - intros Hk. apply list_elem_of_fmap in Hk as (v & -> & Hv'). by apply Hin.
    - intros Hk. destruct (Hcached k Hk) as [i Hi].
      destruct (Hsound (cache_sound_empty s1) _ i Hi) as (v & Hv' & <- & _).
      rewrite Hvs in Hv'. by apply list_elem_of_fmap_2. }
  assert (Hrows : forall c, actual_verses (store_after run) c
                  = Z.of_nat (length (filter (fun k => fst k = c) (verse_key <$> vs)))).
  { intros c. unfold actual_verses. rewrite Hvs, filter_fmap, length_fmap. reflexivity. }
  assert (Htotal : total_verses row
                   = Z.of_nat (length (filter (fun f => chapter f = chapter_id row)
                                              (corpus_fragments pages_data)))).
  { rewrite Hch in Hrow.
    destruct (insert_chapters_inv _ _ _ _ _ H1) as (_ & _ & _ & _ & Hrows').
    destruct (Hrows' row Hrow) as [?|[-> _]]; [done|].
    apply calculate_verse_counts_tally. }
  split; [exact Htotal|]. split.
  - rewrite Hrows. f_equal. apply Permutation_length, filter_Permutation.
    apply NoDup_Permutation; [exact Hnd | apply NoDup_remove_dups|].
    intros k. rewrite elem_of_remove_dups. apply Hsame.
  - intros Hdistinct. rewrite Htotal, Hrows. f_equal.
    transitivity (length (filter (fun k => fst k = chapter_id row)
                                 (fragment_key <$> corpus_fragments pages_data))).
    + rewrite filter_fmap, length_fmap. reflexivity.
    + apply Permutation_length, filter_Permutation. symmetry.
      by apply NoDup_Permutation.
Qed.

End LoadedRun.

(** *** The outcomes of a run *)

(** Three outcomes: the run loaded; it raised, and the file is as before; or
    it returned at the guard on the two documents without opening a
    connection. *)
Lemma run_cases db quran_path chapters_names_path :
  loaded (load_data py_int db quran_path chapters_names_path) \/
  (exists e, load_data py_int db quran_path chapters_names_path
             = (Raises e, connect db)) \/
  (load_data py_int db quran_path chapters_names_path = (Returns tt, connect db) /\
   (_load_json quran_path = Returns None \/ _load_json quran_path = Returns (Some []) \/
    _load_json chapters_names_path = Returns None \/
    _load_json chapters_names_path = Returns (Some []))).
Proof.
  unfold load_data.
  destruct (_load_json quran_path) as [[[|entry quran_data]|]|e] eqn:Hq;
    [| | |right; left; by exists e].
  1,3: destruct (_load_json chapters_names_path) as [names|e] eqn:Hn;
    [right; right; split; [by destruct names as [[|? ?]|] | auto]
    |right; left; by exists e].
  destruct (_load_json chapters_names_path) as [[[|name names]|]|e] eqn:Hn;
    [right; right; split; [reflexivity | auto]| |right; right; split; [reflexivity | auto]
    |right; left; by exists e].
  unfold get_connection, load_body.
  destruct (getitem (entry :: quran_data) "pages") as [pages_data|e].
  2:{ right. left. exists e. destruct e; reflexivity. }
  unfold execute, cbind, connect. simpl.
  destruct (_insert_chapters py_int (name :: names) _ db) as [[[]|e] s1].
  2:{ right. left. exists e. destruct e; reflexivity. }
  destruct (_insert_pages_and_verses py_int pages_data s1) as [[[]|e] s2].
  2:{ right. left. exists e. destruct e; reflexivity. }
  left. split; reflexivity.
Qed.

(** A run whose two passes return commits what they reached. *)
Lemma passes_commit db quran_data chapters_names pages_data s1 s2 :
  chapters_names <> [] ->
  getitem quran_data "pages" = Returns pages_data ->
  _insert_chapters py_int chapters_names (_calculate_verse_counts pages_data) db
    = (Returns tt, s1) ->
  _insert_pages_and_verses py_int pages_data s1 = (Returns tt, s2) ->
  load_data py_int db (Document quran_data) (Document chapters_names)
  = (Returns tt, {| durable := s2; working := s2; commits := 1 |}).
Proof.
  intros Hne Hget H1 H2. unfold load_data. simpl.
  destruct quran_data as [|kv quran_data]; [discriminate|].
  destruct chapters_names as [|nm chapters_names]; [done|].
  unfold get_connection, load_body. rewrite Hget.
  unfold execute, cbind. simpl. rewrite H1, H2. reflexivity.
Qed.

(** C9. Whatever the inputs, a run of [load_data] commits at most once. When
    it raises, nothing was committed and the file holds what it held before
    the run: no row of the failed run is left. When it commits, it has run
    chapter insertion and the whole of pass 2 in the one transaction, and the
    file holds their result. And it does commit: when chapter insertion and
    pass 2 return, the run returns with exactly one commit, made after them,
    and the file holds the store that pass 2 reached. *)
Theorem single_commit db quran_path chapters_names_path :
  (commits (snd (load_data py_int db quran_path chapters_names_path)) <= 1)%nat /\
  (forall e, fst (load_data py_int db quran_path chapters_names_path) = Raises e ->
     store_after (load_data py_int db quran_path chapters_names_path) = db /\
     commits (snd (load_data py_int db quran_path chapters_names_path)) = 0%nat) /\
  (commits (snd (load_data py_int db quran_path chapters_names_path)) = 0%nat ->
     store_after (load_data py_int db quran_path chapters_names_path) = db) /\
  (commits (snd (load_data py_int db quran_path chapters_names_path)) = 1%nat ->
     exists quran_data chapters_names pages_data s1 s2,
       quran_path = Document quran_data /\
       chapters_names_path = Document chapters_names /\
       getitem quran_data "pages" = Returns pages_data /\
       _insert_chapters py_int chapters_names (_calculate_verse_counts pages_data) db
         = (Returns tt, s1) /\
       _insert_pages_and_verses py_int pages_data s1 = (Returns tt, s2) /\
       fst (load_data py_int db quran_path chapters_names_path) = Returns tt /\
       store_after (load_data py_int db quran_path chapters_names_path) = s2) /\
  (forall quran_data chapters_names pages_data s1 s2,
     quran_path = Document quran_data ->
     chapters_names_path = Document chapters_names ->
     chapters_names <> [] ->
     getitem quran_data "pages" = Returns pages_data ->
     _insert_chapters py_int chapters_names (_calculate_verse_counts pages_data) db
       = (Returns tt, s1) ->
     _insert_pages_and_verses py_int pages_data s1 = (Returns tt, s2) ->
     load_data py_int db quran_path chapters_names_path
     = (Returns tt, {| durable := s2; working := s2; commits := 1 |})).
Proof.
  unfold store_after.
  assert (Hpos : forall quran_data chapters_names pages_data s1 s2,
     quran_path = Document quran_data ->
     chapters_names_path = Document chapters_names ->
     chapters_names <> [] ->
     getitem quran_data "pages" = Returns pages_data ->
     _insert_chapters py_int chapters_names (_calculate_verse_counts pages_data) db
       = (Returns tt, s1) ->
     _insert_pages_and_verses py_int pages_data s1 = (Returns tt, s2) ->
     load_data py_int db quran_path chapters_names_path
     = (Returns tt, {| durable := s2; working := s2; commits := 1 |})).
  { intros qd names pd s1 s2 -> -> Hne Hget H1 H2. by apply (passes_commit _ _ _ pd s1). }
  destruct (run_cases db quran_path chapters_names_path)
    as [Hloaded|[(e & Hrun)|(Hrun & _)]].
  - destruct (loaded_inv _ _ _ Hloaded)
      as (qd & names & pd & s1 & s2 & Hq & Hn & _ & Hpd & H1 & H2 & Hrun).
    destruct Hloaded as [Hret Hcommits]. rewrite Hrun in *. simpl in *.
    split; [lia|]. split; [intros e He; congruence|]. split; [lia|].
    split; [|exact Hpos].
    intros _. exists qd, names, pd, s1, s2. repeat split; auto.
  - split; [rewrite Hrun; simpl; lia|]. split; [rewrite Hrun; auto|].
    split; [rewrite Hrun; auto|]. split; [rewrite Hrun; simpl; lia|exact Hpos].
  - split; [rewrite Hrun; simpl; lia|].
    split; [rewrite Hrun; intros e He; discriminate|].
    split; [rewrite Hrun; auto|]. split; [rewrite Hrun; simpl; lia|exact Hpos].
Qed.

(** C8, as the code has it. When the corpus document or the chapter-name map
    is missing or is not JSON, [load_data] opens no connection: no row is
    inserted, nothing is committed and the file is as it was. When the
    reading of neither file raises, [load_data] returns to its caller without
    raising (the failure is only logged). When the reading of a file raises
    (an exception that [_load_json] does not catch), [load_data] raises it:
    that of the corpus file, which is read first, or else that of the name
    file. *)
Theorem unreadable_input_returns db quran_path chapters_names_path :
  _load_json quran_path = Returns None \/ _load_json chapters_names_path = Returns None ->
  store_after (load_data py_int db quran_path chapters_names_path) = db /\
  commits (snd (load_data py_int db quran_path chapters_names_path)) = 0%nat /\
  ((exists quran_data, _load_json quran_path = Returns quran_data) ->
   (exists chapters_names, _load_json chapters_names_path = Returns chapters_names) ->
   load_data py_int db quran_path chapters_names_path = (Returns tt, connect db)) /\
  (forall e, _load_json quran_path = Raises e ->
     load_data py_int db quran_path chapters_names_path = (Raises e, connect db)) /\
  (forall e, _load_json chapters_names_path = Raises e ->
     load_data py_int db quran_path chapters_names_path = (Raises e, connect db)).
Proof.
  intros Hnone. unfold store_after, load_data.
  destruct (_load_json quran_path) as [quran_data|e] eqn:Hq.
  - destruct (_load_json chapters_names_path) as [chapters_names|e] eqn:Hn.
    + assert (Hrun : match quran_data, chapters_names with
                     | Some ((_ :: _) as quran_data), Some ((_ :: _) as chapters_names) =>
                         get_connection db (load_body py_int quran_data chapters_names)
                     | _, _ => (Returns tt, connect db)
                     end = (Returns tt, connect db)).
      { destruct Hnone as [Hnone|Hnone]; inversion Hnone; subst; [reflexivity|].
        by destruct quran_data as [[|? ?]|]. }
      rewrite Hrun. repeat split; auto; intros e He; discriminate.
    + destruct Hnone as [Hnone|Hnone]; [|discriminate].
      repeat split; auto.
      * intros _ [? ?]. discriminate.
      * intros e' He'. discriminate.
      * intros e' He'. by inversion He'.
  - destruct Hnone as [Hnone|Hnone]; [discriminate|].
    repeat split; auto.
    + intros [? ?]. discriminate.
    + intros e' He'. by inversion He'.
    + intros e' He'. rewrite Hnone in He'. discriminate.
Qed.

(** *** Chapters without a name, pages that recur *)

(** A run that loaded named every chapter it stored a verse for. *)
Lemma loaded_chapters_named db quran_data chapters_names pages_data f :
  getitem quran_data "pages" = Returns pages_data ->
  loaded (load_data py_int db (Document quran_data) (Document chapters_names)) ->
  f ∈ corpus_fragments pages_data ->
  chapter f ∈ chapter_id <$> chapters db \/
  exists k, k ∈ fst <$> chapters_names /\ py_int k = Some (chapter f).
Proof.
  intros Hpages Hloaded Hf.
  destruct (loaded_inv _ _ _ Hloaded)
    as (qd & names & pd & s1 & s2 & Hq & Hn & _ & Hpd & H1 & H2 & _).
  inversion Hq; subst qd. inversion Hn; subst names.
  rewrite Hpages in Hpd. inversion Hpd; subst pd. clear Hq Hn Hpd.
  destruct (pass2_grows _ _ _ H2)
    as (cache' & Hch & _ & _ & _ & Hcached & _ & _ & _ & Hfk).
  destruct (Hcached (fragment_key f)) as [i Hi]; [by apply list_elem_of_fmap_2|].
  pose proof (Hfk (cache_fk_empty s1) _ _ Hi) as Hin. simpl in Hin. rewrite Hch in Hin.
  apply list_elem_of_fmap in Hin as (row & Hid & Hrow).
  destruct (insert_chapters_inv _ _ _ _ _ H1) as (_ & _ & _ & _ & Hrows).
  destruct (Hrows row Hrow) as [Hold|(_ & k & Hk & Hint)].
  - left. rewrite Hid. by apply list_elem_of_fmap_2.
  - right. exists k. split; [exact Hk | congruence].
Qed.

(** C10, as the code has it. When a fragment of the corpus names a chapter
    that has no row in the store and no entry in the chapter-name map, the run
    does not load: nothing is committed and the file is as it was. With a
    non-empty map the run raises; with an empty map it returns at the guard on
    the two documents, without raising. The verse insertion for such a chapter
    fails on the foreign key. *)
Theorem unnamed_chapter_blocks_load db quran_data chapters_names pages_data f :
  getitem quran_data "pages" = Returns pages_data ->
  f ∈ corpus_fragments pages_data ->
  chapter f ∉ chapter_id <$> chapters db ->
  (forall k, k ∈ fst <$> chapters_names -> py_int k <> Some (chapter f)) ->
  ~ loaded (load_data py_int db (Document quran_data) (Document chapters_names)) /\
  store_after (load_data py_int db (Document quran_data) (Document chapters_names)) = db /\
  commits (snd (load_data py_int db (Document quran_data) (Document chapters_names)))
    = 0%nat /\
  (chapters_names <> [] ->
     exists e, fst (load_data py_int db (Document quran_data) (Document chapters_names))
               = Raises e) /\
  (chapters_names = [] ->
     fst (load_data py_int db (Document quran_data) (Document chapters_names))
       = Returns tt) /\
  (forall vn txt s, chapter f ∉ chapter_id <$> chapters s ->
     insert_verse (chapter f) vn txt s = (Raises IntegrityError, s)).
Proof.
  intros Hpages Hf Hrow Hname.
  assert (Hnot : ~ loaded (load_data py_int db (Document quran_data)
                             (Document chapters_names))).
  { intros Hloaded.
    destruct (loaded_chapters_named _ _ _ _ _ Hpages Hloaded Hf) as [?|(k & Hk & Hint)];
      [done | by apply (Hname k)]. }
  split; [exact Hnot|]. unfold store_after.
  destruct (run_cases db (Document quran_data) (Document chapters_names))
    as [Hloaded|[(e & Hrun)|(Hrun & Hearly)]]; [done| |].
  - rewrite Hrun. simpl. repeat split; eauto.
    + intros ->. destruct quran_data; discriminate.
    + intros vn txt s Hs. unfold insert_verse. by case_decide.
  - rewrite Hrun. simpl. repeat split; auto.
    + intros Hne. exfalso. simpl in Hearly.
      destruct Hearly as [?|[Hq|[?|Hn]]]; try discriminate.
      * inversion Hq; subst. discriminate.
      * inversion Hn; subst. done.
    + intros vn txt s Hs. unfold insert_verse. by case_decide.
Qed.

Lemma page_step_pages cache item s cache' s' :
  page_step py_int cache item s = (Returns cache', s') ->
  NoDup (pages s) -> NoDup (pages s').
Proof.
  unfold page_step, cbind, lift, ret. intros H Hnd.
  destruct (page_num_of py_int (fst item)) as [p|e]; [|discriminate].
  unfold bind_int in H.
  destruct (decide (Forall int64 [p])) as [Hbind|Hbind]; [|discriminate].
  destruct (insert_page_or_ignore_inv p s) as (s1 & Hins & _ & _ & _ & _ & Hold & Hnew).
  rewrite Hins in H.
  destruct (cfor (verse_step p) (snd item) _ s1) as [[st|e] s2] eqn:Hloop;
    inversion H; subst; clear H.
  apply fragments_grow in Hloop as (_ & ->).
  destruct (decide (p ∈ pages s)) as [Hin|Hout].
  - by rewrite (Hold Hin).
  - rewrite (Hnew Hout). by apply NoDup_snoc.
Qed.

Lemma groupings_pages items cache s cache' s' :
  cfor (page_step py_int) items cache s = (Returns cache', s') ->
  NoDup (pages s) -> NoDup (pages s').
Proof.
  revert cache s. induction items as [|item items IH]; intros cache s H Hnd; simpl in *.
  - by inversion H; subst.
  - unfold cbind in H.
    destruct (page_step py_int cache item s) as [[cache1|e] s1] eqn:Hstep; [|discriminate].
    eapply IH; [exact H|]. by eapply page_step_pages.
Qed.

(** The first row of a grouping that has fragments. *)
Lemma grouping_first_row item p :
  page_num_of py_int (fst item) = Returns p -> snd item <> [] ->
  (p, 0) ∈ entry_order <$> grouping_rows py_int item.
Proof.
  intros Hp Hfrs. unfold grouping_rows. rewrite Hp.
  destruct (snd item) as [|f frs]; [done|]. simpl. left.
Qed.

(** Two groupings of one page that both have fragments break
    [UNIQUE (page_id, verse_order)]. *)
Lemma two_groupings_clash (items : list (string * list fragment)) (i j : nat) it1 it2 p :
  items !! i = Some it1 -> items !! j = Some it2 -> (i < j)%nat ->
  page_num_of py_int (fst it1) = Returns p -> page_num_of py_int (fst it2) = Returns p ->
  snd it1 <> [] -> snd it2 <> [] ->
  ~ NoDup (entry_order <$> concat (grouping_rows py_int <$> items)).
Proof.
  intros Hi Hj Hlt Hp1 Hp2 Hf1 Hf2 Hnd.
  rewrite <- (take_drop_middle items i it1 Hi) in Hnd.
  rewrite fmap_app, concat_app, fmap_cons, concat_cons, !fmap_app in Hnd.
  apply NoDup_app in Hnd as (_ & _ & Hnd). apply NoDup_app in Hnd as (_ & Hdisj & _).
  apply (Hdisj (p, 0)); [by apply grouping_first_row|].
  assert (Hin : it2 ∈ drop (S i) items).
  { apply list_elem_of_lookup. exists (j - S i)%nat. rewrite lookup_drop.
    replace (S i + (j - S i))%nat with j by lia. exact Hj. }
  apply list_elem_of_fmap.
  pose proof (grouping_first_row it2 p Hp2 Hf2) as Hrow.
  apply list_elem_of_fmap in Hrow as (x & Hx & Hxin).
  exists x. split; [exact Hx|].
  apply elem_of_concat. exists (grouping_rows py_int it2).
  split; [by apply list_elem_of_fmap_2 | exact Hxin].
Qed.

Lemma pass2_pages pages_data s s' :
  _insert_pages_and_verses py_int pages_data s = (Returns tt, s') ->
  NoDup (pages s) -> NoDup (pages s').
Proof.
  unfold _insert_pages_and_verses, cbind, ret. rewrite cfor_concat. intros H.
  destruct (cfor (page_step py_int) (concat pages_data) ∅ s) as [[cache'|e] s1] eqn:Hloop;
    inversion H; subst; clear H.
  by eapply groupings_pages.
Qed.

Lemma empty_names_return db quran_path :
  (exists quran_data, _load_json quran_path = Returns quran_data) ->
  load_data py_int db quran_path (Document []) = (Returns tt, connect db).
Proof.
  intros [quran_data Hq]. unfold load_data. rewrite Hq. simpl.
  by destruct quran_data as [[|? ?]|].
Qed.

(** C5, in the code. When a page number recurs, the insertion of its Page
    row is ignored: it raises nothing and leaves the store as it was, so that
    no run leaves two rows of [pages] with one [page_id]; and a later grouping
    of the page without fragments changes nothing and raises nothing. But
    when two groupings of one page both carry fragments, no run loads them:
    the later grouping numbers its rows from 0 again, against
    [UNIQUE (page_id, verse_order)]. The store stays as it was and nothing is
    committed; with a name map that is not empty the run raises, and with an
    empty one it returns at the guard of [load_data]. *)
Theorem repeated_page_number :
  (forall p s, p ∈ pages s -> insert_page_or_ignore p s = (Returns tt, s)) /\
  (forall cache key p s,
     page_num_of py_int key = Returns p -> int64 p -> p ∈ pages s ->
     page_step py_int cache (key, []) s = (Returns cache, s)) /\
  (forall db quran_path chapters_names_path,
     NoDup (pages db) ->
     NoDup (pages (store_after (load_data py_int db quran_path chapters_names_path)))) /\
  (forall db quran_data chapters_names pages_data (i j : nat) it1 it2 p,
     NoDup (page_order <$> page_verses db) ->
     getitem quran_data "pages" = Returns pages_data ->
     groupings pages_data !! i = Some it1 -> groupings pages_data !! j = Some it2 ->
     i <> j ->
     page_num_of py_int (fst it1) = Returns p -> page_num_of py_int (fst it2) = Returns p ->
     snd it1 <> [] -> snd it2 <> [] ->
     ~ loaded (load_data py_int db (Document quran_data) (Document chapters_names)) /\
     store_after (load_data py_int db (Document quran_data) (Document chapters_names)) = db /\
     commits (snd (load_data py_int db (Document quran_data) (Document chapters_names)))
       = 0%nat /\
     (chapters_names <> [] ->
        exists e, load_data py_int db (Document quran_data) (Document chapters_names)
                  = (Raises e, connect db)) /\
     (chapters_names = [] ->
        load_data py_int db (Document quran_data) (Document chapters_names)
        = (Returns tt, connect db))).
Proof.
  assert (Hignored : forall p s, p ∈ pages s -> insert_page_or_ignore p s = (Returns tt, s)).
  { intros p s Hin.
    destruct (insert_page_or_ignore_inv p s) as (s' & Hins & _ & _ & _ & _ & Hold & _).
    by rewrite Hins, (Hold Hin). }
  split; [exact Hignored|]. split; [|split].
  - intros cache key p s Hkey Hp Hin.
    unfold page_step, lift. unfold cbind at 1. simpl. rewrite Hkey.
    rewrite bound_returns by (by constructor).
    unfold cbind, ret. simpl. by rewrite (Hignored p s Hin).
  - intros db quran_path chapters_names_path Hnd. unfold store_after.
    destruct (run_cases db quran_path chapters_names_path)
      as [Hloaded|[(e & Hrun)|(Hrun & _)]]; [|by rewrite Hrun..].
    destruct (loaded_inv _ _ _ Hloaded)
      as (qd & names & pd & s1 & s2 & _ & _ & _ & _ & H1 & H2 & Hrun).
    rewrite Hrun. simpl.
    destruct (insert_chapters_inv _ _ _ _ _ H1) as (_ & _ & Hp & _).
    apply (pass2_pages _ _ _ H2). by rewrite Hp.
  - intros db quran_data chapters_names pages_data i j it1 it2 p
           Hnd Hpages Hi Hj Hij Hp1 Hp2 Hf1 Hf2.
    assert (Hnot : ~ loaded (load_data py_int db (Document quran_data)
                               (Document chapters_names))).
    { intros Hloaded.
      destruct (loaded_inv _ _ _ Hloaded)
        as (qd & names & pd & s1 & s2 & Hq & Hn & _ & Hpd & H1 & H2 & _).
      inversion Hq; subst qd. rewrite Hpages in Hpd. inversion Hpd; subst pd.
      destruct (insert_chapters_inv _ _ _ _ _ H1) as (_ & _ & _ & Hpv & _).
      destruct (pass2_grows _ _ _ H2)
        as (cache' & _ & _ & (new & Hnew & Hwritten) & _ & _ & _ & Horders & _).
      rewrite Hpv in Horders. specialize (Horders Hnd). rewrite Hnew, Hpv, fmap_app in Horders.
      apply NoDup_app in Horders as (_ & _ & Horders).
      assert (Hrows : NoDup (entry_order
                               <$> concat (grouping_rows py_int <$> groupings pages_data))).
      { by rewrite <- (written_orders _ _ _ Hwritten). }
      destruct (decide (i < j)%nat).
      * by apply (two_groupings_clash _ i j it1 it2 p Hi Hj).
      * apply (two_groupings_clash _ j i it2 it1 p Hj Hi); auto. lia. }
    split; [exact Hnot|]. unfold store_after.
    destruct (run_cases db (Document quran_data) (Document chapters_names))
      as [Hloaded|[(e & Hrun)|(Hrun & Hearly)]]; [done| |].
    + rewrite Hrun. simpl. repeat split; [by exists e|].
      intros ->. rewrite empty_names_return in Hrun by (by eexists). discriminate.
    + rewrite Hrun. simpl. repeat split; auto.
      intros Hne. exfalso. simpl in Hearly.
      destruct Hearly as [?|[Hq|[?|Hn]]]; try discriminate.
      * inversion Hq; subst. discriminate.
      * inversion Hn; subst. done.
Qed.

End Loader.

(** *** Concrete runs *)

Lemma page_orders_contiguous_witness :
  verse_order <$> rows_of_page 1 (store_after (load_data int_of_digits empty_store
                                    (Document scenario_doc) (Document scenario_names)))
    = seqZ 0 (Z.of_nat (length (fragments_on int_of_digits 1 scenario_pages))) /\
  NoDup (verse_order <$> rows_of_page 1 (store_after (load_data int_of_digits empty_store
                                    (Document scenario_doc) (Document scenario_names)))) /\
  (forall o,
     o ∈ verse_order <$> rows_of_page 1 (store_after (load_data int_of_digits empty_store
                                    (Document scenario_doc) (Document scenario_names)))
     <-> 0 <= o < Z.of_nat (length (fragments_on int_of_digits 1 scenario_pages))).
Proof.
  apply (page_orders_contiguous int_of_digits empty_store scenario_doc scenario_names
           scenario_pages); [reflexivity | split; reflexivity | constructor | reflexivity].
Defined.

Lemma chapter_boundaries_marked_witness :
  length (rows_of_page 1 (store_after (load_data int_of_digits empty_store
                            (Document scenario_doc) (Document scenario_names))))
    = length (fragments_on int_of_digits 1 scenario_pages) /\
  forall (i : nat) r,
    rows_of_page 1 (store_after (load_data int_of_digits empty_store
                      (Document scenario_doc) (Document scenario_names))) !! i = Some r ->
    exists f, fragments_on int_of_digits 1 scenario_pages !! i = Some f /\
      verse_order r = Z.of_nat i /\
      (exists v, v ∈ verses (store_after (load_data int_of_digits empty_store
                                            (Document scenario_doc)
                                            (Document scenario_names))) /\
                 verse_id v = pv_verse_id r /\ verse_key v = fragment_key f) /\
      (starts_new_chapter r = true <->
         i = 0%nat \/
         exists g, fragments_on int_of_digits 1 scenario_pages !! (i - 1)%nat = Some g /\
                   chapter g <> chapter f).
Proof.
  apply (chapter_boundaries_marked int_of_digits empty_store scenario_doc scenario_names
           scenario_pages); [reflexivity | split; reflexivity | constructor | reflexivity].
Defined.

Lemma unreadable_input_returns_witness :
  store_after (load_data int_of_digits empty_store Missing (Document scenario_names))
    = empty_store /\
  commits (snd (load_data int_of_digits empty_store Missing (Document scenario_names)))
    = 0%nat /\
  ((exists quran_data, _load_json (Missing : file quran_doc) = Returns quran_data) ->
   (exists chapters_names, _load_json (Document scenario_names) = Returns chapters_names) ->
   load_data int_of_digits empty_store Missing (Document scenario_names)
   = (Returns tt, connect empty_store)) /\
  (forall e, _load_json (Missing : file quran_doc) = Raises e ->
     load_data int_of_digits empty_store Missing (Document scenario_names)
     = (Raises e, connect empty_store)) /\
  (forall e, _load_json (Document scenario_names) = Raises e ->
     load_data int_of_digits empty_store Missing (Document scenario_names)
     = (Raises e, connect empty_store)).
Proof.
  apply (unreadable_input_returns int_of_digits empty_store Missing (Document scenario_names)).
  left. reflexivity.
Defined.

(** With the corpus file missing and a chapter-name file whose bytes are not
    UTF-8, the reading of the second file raises and so does [load_data]. *)
Example missing_corpus_undecodable_names :
  load_data int_of_digits empty_store Missing (Unreadable ValueError)
  = (Raises ValueError, connect empty_store).
Proof. reflexivity. Qed.

(** A run that commits: the scenario of the specification. The two passes
    return, and the run returns with one commit and their result in the file. *)
Lemma single_commit_witness :
  load_data int_of_digits empty_store (Document scenario_doc) (Document scenario_names)
  = (Returns tt,
     {| durable := snd (_insert_pages_and_verses int_of_digits scenario_pages
                          (snd (_insert_chapters int_of_digits scenario_names
                                  (_calculate_verse_counts scenario_pages) empty_store)));
        working := snd (_insert_pages_and_verses int_of_digits scenario_pages
                          (snd (_insert_chapters int_of_digits scenario_names
                                  (_calculate_verse_counts scenario_pages) empty_store)));
        commits := 1 |}).
Proof.
  apply (proj2 (proj2 (proj2 (proj2
           (single_commit int_of_digits empty_store (Document scenario_doc)
              (Document scenario_names)))))
           scenario_doc scenario_names scenario_pages
           (snd (_insert_chapters int_of_digits scenario_names
                   (_calculate_verse_counts scenario_pages) empty_store)));
    [reflexivity | reflexivity | discriminate | reflexivity | reflexivity | reflexivity].
Defined.

(** The file after that run holds the rows of the run. *)
Example committed_rows :
  length (chapters (store_after (load_data int_of_digits empty_store (Document scenario_doc)
                                   (Document scenario_names)))) = 2%nat /\
  length (verses (store_after (load_data int_of_digits empty_store (Document scenario_doc)
                                 (Document scenario_names)))) = 3%nat /\
  length (page_verses (store_after (load_data int_of_digits empty_store
                                      (Document scenario_doc)
                                      (Document scenario_names)))) = 3%nat.
Proof. repeat split. Qed.

(** C8 as stated fails: with the corpus file missing (and with a chapter-name
    map that is not JSON), [load_data] raises nothing to its caller. *)
Lemma missing_corpus_not_raised :
  ~ (exists e, fst (load_data int_of_digits empty_store Missing (Document scenario_names))
               = Raises e) /\
  ~ (exists e, fst (load_data int_of_digits empty_store (Document scenario_doc) Malformed)
               = Raises e).
Proof. split; intros [e He]; discriminate. Qed.

(** A failed run with rows in its transaction: chapter 2 has no name, so the
    second fragment fails; the transaction then holds a chapter, a page, a
    verse and a link, and the file none of them. *)
Example partial_rows_are_discarded :
  let names := [("1", "first")] : names_map in
  let statements :=
    cbind (_insert_chapters int_of_digits names (_calculate_verse_counts scenario_pages))
          (fun _ => _insert_pages_and_verses int_of_digits scenario_pages) in
  fst (execute statements (connect empty_store)) = Raises IntegrityError /\
  length (page_verses (working (snd (execute statements (connect empty_store))))) = 1%nat /\
  load_data int_of_digits empty_store (Document scenario_doc) (Document names)
    = (Raises IntegrityError, connect empty_store).
Proof. repeat split. Qed.

(** The failing run of C5: page 1 submitted twice with its fragment. The
    second Page insertion is ignored, but the link of the fragment to the page
    is refused and the run raises. *)
Example repeated_page_raises :
  load_data int_of_digits empty_store (Document repeated_page_doc) (Document scenario_names)
    = (Raises IntegrityError, connect empty_store).
Proof. reflexivity. Qed.

(** Page 1 submitted a second time without fragments: the run loads, with
    one row of [pages]. *)
Example repeated_empty_page_loads :
  loaded (load_data int_of_digits empty_store (Document repeated_empty_page_doc)
            (Document scenario_names)) /\
  pages (store_after (load_data int_of_digits empty_store
                        (Document repeated_empty_page_doc) (Document scenario_names)))
    = [1].
Proof. repeat split. Qed.

Lemma unnamed_chapter_blocks_load_witness :
  ~ loaded (load_data int_of_digits empty_store (Document scenario_doc)
              (Document [("1", "first")])) /\
  store_after (load_data int_of_digits empty_store (Document scenario_doc)
                 (Document [("1", "first")])) = empty_store /\
  commits (snd (load_data int_of_digits empty_store (Document scenario_doc)
                  (Document [("1", "first")]))) = 0%nat /\
  ([("1", "first")] <> ([] : names_map) ->
     exists e, fst (load_data int_of_digits empty_store (Document scenario_doc)
                      (Document [("1", "first")])) = Raises e) /\
  ([("1", "first")] = ([] : names_map) ->
     fst (load_data int_of_digits empty_store (Document scenario_doc)
            (Document [("1", "first")])) = Returns tt) /\
  (forall vn txt s, chapter (frag 2 1 "text B") ∉ chapter_id <$> chapters s ->
     insert_verse (chapter (frag 2 1 "text B")) vn txt s = (Raises IntegrityError, s)).
Proof.
  apply (unnamed_chapter_blocks_load int_of_digits empty_store scenario_doc
           [("1", "first")] scenario_pages (frag 2 1 "text B")).
  - reflexivity.
  - right. left.
  - simpl. apply not_elem_of_nil.
  - intros k Hk. apply list_elem_of_singleton in Hk. subst k. discriminate.
Defined.

(** C10 as stated fails: with an empty chapter-name map, every chapter of
    the corpus is absent from the map, and the run returns without raising. *)
Lemma empty_name_map_not_raised :
  ~ (exists e, fst (load_data int_of_digits empty_store (Document scenario_doc)
                      (Document [])) = Raises e).
Proof. intros [e He]. discriminate. Qed.

(** C1 fails on the code: the verse (1, 1) is a fragment of page 1 and of
    page 2. The run loads; chapter 1 gets [total_verses = 2], the number of
    its fragments, whereas one verse row references it, and the verification
    of the run reports this very discrepancy. *)
Theorem repeated_verse_miscounted :
  loaded (load_data int_of_digits empty_store (Document repeated_verse_doc)
            (Document scenario_names)) /\
  chapters (store_after (load_data int_of_digits empty_store (Document repeated_verse_doc)
                           (Document scenario_names)))
    = [{| chapter_id := 1; chapter_name := "first"; total_verses := 2 |}] /\
  actual_verses (store_after (load_data int_of_digits empty_store
                                (Document repeated_verse_doc) (Document scenario_names))) 1
    = 1 /\
  _verify_data_integrity (store_after (load_data int_of_digits empty_store
                                         (Document repeated_verse_doc)
                                         (Document scenario_names)))
    = ([(1, 2, 1)], []).
Proof. repeat split. Qed.

End BuilderFacts.

(** * Further properties of the code *)

(** ** The loader and its store *)

Module BuilderMore.

Import Builder BuilderFacts.
Local Open Scope cur_scope.

(** *** The schema's constraints are kept *)

Lemma keeps_ret {A : Type} (P : store -> Prop) (a : A) : keeps P (ret a).
Proof. intros s r s' H. by inversion H. Qed.

Lemma keeps_raise {A : Type} (P : store -> Prop) (e : exn) : keeps P (raise (A := A) e).
Proof. intros s r s' H. by inversion H. Qed.

Lemma keeps_lift {A : Type} (P : store -> Prop) (c : py A) : keeps P (lift c).
Proof. intros s r s' H. by inversion H. Qed.

Lemma keeps_bind_int (P : store -> Prop) (params : list Z) : keeps P (bind_int params).
Proof. intros s r s' H. unfold bind_int in H. case_decide; by inversion H. Qed.

Lemma keeps_bind {A B : Type} (P : store -> Prop) (m : cur A) (k : A -> cur B) :
  keeps P m -> (forall a, keeps P (k a)) -> keeps P (cbind m k).
Proof.
  intros Hm Hk s r s' H HP. unfold cbind in H.
  destruct (m s) as [[a|e] s1] eqn:Hms.
  - eapply Hk; [exact H|]. by eapply Hm.
  - inversion H; subst. by eapply Hm.
Qed.

Lemma keeps_cfor {S A : Type} (P : store -> Prop) (body : S -> A -> cur S) (l : list A) :
  (forall acc x, keeps P (body acc x)) -> forall acc, keeps P (cfor body l acc).
Proof.
  intros Hbody. induction l as [|x l IH]; intros acc; simpl.
  - apply keeps_ret.
  - apply keeps_bind; [apply Hbody | exact IH].
Qed.

Lemma next_verse_id_above (s : store) v :
  v ∈ verses s -> verse_id v < next_verse_id s.
Proof.
  unfold next_verse_id. generalize (verses_seq s). induction (verses s) as [|w l IH]; intros q Hv.
  - by apply elem_of_nil in Hv.
  - rewrite fmap_cons. cbn [foldr]. apply elem_of_cons in Hv as [->|Hv]; [lia|].
    specialize (IH q Hv). lia.
Qed.

Lemma next_verse_id_above_seq (s : store) : verses_seq s < next_verse_id s.
Proof.
  unfold next_verse_id. induction (verses s) as [|w l IH]; [simpl; lia|].
  rewrite fmap_cons. cbn [foldr]. lia.
Qed.

Lemma insert_chapter_keeps cid name total : keeps store_ok (insert_chapter cid name total).
Proof.
  intros s r s' H Hok.
  apply insert_chapter_inv in H as [[_ ->]|(_ & Hfree & Hpos & Hc & Hv & Hq & Hp & Hpv)];
    [exact Hok|].
  destruct Hok. constructor; rewrite ?Hc, ?Hv, ?Hq, ?Hp, ?Hpv; auto.
  - rewrite fmap_app. by apply NoDup_snoc.
  - intros c Hin. apply elem_of_app in Hin as [Hin|Hin]; [auto|].
    apply list_elem_of_singleton in Hin. by subst.
  - intros v Hin. rewrite fmap_app. apply elem_of_app. left. auto.
Qed.

Lemma insert_verse_keeps cid vn txt : keeps store_ok (insert_verse cid vn txt).
Proof.
  intros s r s' H Hok.
  assert (Hq : s' = s \/ verses_seq s' = next_verse_id s).
  { revert H. unfold insert_verse. repeat case_decide; intros H'; inversion H'; auto. }
  apply insert_verse_inv in H as [[_ ->]|(_ & Hfk & Hpos & Hfree & Hc & Hv & Hp & Hpv)];
    [exact Hok|].
  destruct Hq as [->|Hq]; [exact Hok|].
  destruct Hok. constructor; rewrite ?Hc, ?Hv, ?Hq, ?Hp, ?Hpv; auto.
  - rewrite fmap_app. apply NoDup_snoc; [done|]. simpl.
    intros Hin. apply list_elem_of_fmap in Hin as (v & Hid & Hin).
    pose proof (next_verse_id_above s v Hin). lia.
  - rewrite fmap_app. by apply NoDup_snoc.
  - intros v Hin. apply elem_of_app in Hin as [Hin|Hin]; [auto|].
    apply list_elem_of_singleton in Hin. by subst.
  - intros v Hin. apply elem_of_app in Hin as [Hin|Hin]; [auto|].
    apply list_elem_of_singleton in Hin. by subst.
  - intros v Hin. apply elem_of_app in Hin as [Hin|Hin].
    + pose proof (next_verse_id_above s v Hin). lia.
    + apply list_elem_of_singleton in Hin. subst. simpl. lia.
  - intros r0 Hin. rewrite fmap_app. apply elem_of_app. left. auto.
Qed.

Lemma insert_page_or_ignore_keeps p : keeps store_ok (insert_page_or_ignore p).
Proof.
  intros s r s' H Hok.
  destruct (insert_page_or_ignore_inv p s) as (s1 & Hins & Hc & Hv & Hq & Hpv & Hold & Hnew).
  rewrite Hins in H. inversion H; subst s1.
  destruct (decide (p ∈ pages s)) as [Hin|Hout]; [by rewrite (Hold Hin)|].
  specialize (Hnew Hout).
  destruct Hok. constructor; rewrite ?Hc, ?Hv, ?Hq, ?Hnew, ?Hpv; auto.
  - by apply NoDup_snoc.
  - intros r0 Hin. apply elem_of_app. left. auto.
Qed.

Lemma insert_page_verse_keeps p vid ord flag :
  keeps store_ok (insert_page_verse p vid ord flag).
Proof.
  intros s r s' H Hok. unfold insert_page_verse in H.
  repeat case_decide; inversion H; subst; try exact Hok.
  destruct Hok. constructor; simpl; auto.
  - rewrite fmap_app. by apply NoDup_snoc.
  - rewrite fmap_app. by apply NoDup_snoc.
  - intros r0 Hin. apply elem_of_app in Hin as [Hin|Hin]; [auto|].
    apply list_elem_of_singleton in Hin. by subst.
  - intros r0 Hin. apply elem_of_app in Hin as [Hin|Hin]; [auto|].
    apply list_elem_of_singleton in Hin. by subst.
Qed.

Lemma verse_step_keeps p st f : keeps store_ok (verse_step p st f).
Proof.
  unfold verse_step. apply keeps_bind.
  - destruct (verse_cache st !! (chapter f, verse f)); [apply keeps_ret|].
    apply keeps_bind; [apply keeps_bind_int|]. intros _.
    apply keeps_bind; [apply insert_verse_keeps | intros; apply keeps_ret].
  - intros cache. apply keeps_bind.
    + destruct (cache !! (chapter f, verse f)); [apply keeps_ret | apply keeps_raise].
    + intros vid. apply keeps_bind; [apply insert_page_verse_keeps|].
      intros; apply keeps_ret.
Qed.

Section Loader.

Variable py_int : string -> option Z.

Lemma page_step_keeps cache item : keeps store_ok (page_step py_int cache item).
Proof.
  unfold page_step. apply keeps_bind; [apply keeps_lift|]. intros p.
  apply keeps_bind; [apply keeps_bind_int|]. intros _.
  apply keeps_bind; [apply insert_page_or_ignore_keeps|]. intros _.
  apply keeps_bind; [|intros; apply keeps_ret].
  apply keeps_cfor. intros. apply verse_step_keeps.
Qed.

Lemma pass2_keeps pages_data : keeps store_ok (_insert_pages_and_verses py_int pages_data).
Proof.
  unfold _insert_pages_and_verses. apply keeps_bind; [|intros; apply keeps_ret].
  apply keeps_cfor. intros cache page_data. apply keeps_cfor. intros. apply page_step_keeps.
Qed.

Lemma insert_chapters_keeps names counts :
  keeps store_ok (_insert_chapters py_int names counts).
Proof.
  unfold _insert_chapters. apply keeps_cfor. intros [] [k name]. unfold chapter_step. simpl.
  destruct (py_int k) as [cid|]; [|apply keeps_raise].
  destruct (get_count counts cid =? 0); [apply keeps_ret|].
  apply keeps_bind; [apply keeps_bind_int | intros; apply insert_chapter_keeps].
Qed.

Lemma run_keeps_constraints db quran_path chapters_names_path :
  store_ok db ->
  store_ok (store_after (load_data py_int db quran_path chapters_names_path)).
Proof.
  intros Hok. unfold store_after.
  destruct (run_cases py_int db quran_path chapters_names_path)
    as [Hloaded|[(e & Hrun)|(Hrun & _)]]; [|by rewrite Hrun..].
  destruct (loaded_inv _ _ _ _ Hloaded)
    as (qd & names & pd & s1 & s2 & _ & _ & _ & _ & H1 & H2 & Hrun).
  rewrite Hrun. simpl.
  eapply pass2_keeps; [exact H2|]. eapply insert_chapters_keeps; [exact H1 | exact Hok].
Qed.

(** X1. The constraints that [create_tables] declares hold after a run of
    [load_data] on a store where they hold, whatever the two documents are and
    whether the run loads, raises, or returns at the guard: primary keys,
    UNIQUE and CHECK constraints, foreign keys, and the AUTOINCREMENT counter. *)
Theorem load_data_keeps_constraints db quran_path chapters_names_path :
  store_ok db ->
  store_ok (store_after (load_data py_int db quran_path chapters_names_path)).
Proof.
  intros Hok. unfold store_after.
  destruct (run_cases py_int db quran_path chapters_names_path)
    as [Hloaded|[(e & Hrun)|(Hrun & _)]].
  - destruct (loaded_inv _ _ _ _ Hloaded)
      as (qd & names & pd & s1 & s2 & _ & _ & _ & _ & H1 & H2 & Hrun).
    rewrite Hrun. simpl.
    eapply pass2_keeps; [exact H2|]. eapply insert_chapters_keeps; [exact H1|exact Hok].
  - by rewrite Hrun.
  - by rewrite Hrun.
Qed.

End Loader.

Lemma empty_store_ok_lemma : store_ok empty_store.
Proof.
  constructor; simpl; try apply NoDup_nil_2; intros x Hx; by apply elem_of_nil in Hx.
Qed.

(** *** What the integrity verification finds *)

Lemma omap_nil_iff {A B : Type} (f : A -> option B) (l : list A) :
  omap f l = [] <-> forall x, x ∈ l -> f x = None.
Proof.
  induction l as [|x l IH]; simpl.
  - split; [intros _ y Hy; by apply elem_of_nil in Hy | done].
  - destruct (f x) as [y|] eqn:Hfx; split.
    + discriminate.
    + intros Hall. specialize (Hall x (list_elem_of_here _ _)). congruence.
    + intros Hnil y Hy. apply elem_of_cons in Hy as [->|Hy]; [done|]. by apply IH.
    + intros Hall. apply IH. intros y Hy. apply Hall. by right.
Qed.

Lemma NoDup_counts {A B : Type} `{EqDecision B} (f : A -> B) (l : list A) :
  NoDup (f <$> l) <->
  forall k, k ∈ f <$> l -> (length (filter (fun x => f x = k) l) <= 1)%nat.
Proof.
  split.
  - intros Hnd k Hk. by rewrite (count_one f l k Hnd Hk).
  - induction l as [|x l IH]; intros Hcount; [constructor|].
    rewrite fmap_cons. apply NoDup_cons. split.
    + intros Hin. specialize (Hcount (f x) (list_elem_of_here _ _)).
      rewrite filter_cons_True in Hcount by reflexivity. simpl in Hcount.
      apply list_elem_of_fmap in Hin as (y & Hy & Hin).
      assert (Hy' : y ∈ filter (fun z => f z = f x) l)
        by (apply list_elem_of_filter; split; [by symmetry | exact Hin]).
      destruct (filter (fun z => f z = f x) l); [by apply elem_of_nil in Hy'|].
      simpl in Hcount. lia.
    + apply IH. intros k Hk. specialize (Hcount k (list_elem_of_further _ _ _ Hk)).
      rewrite filter_cons in Hcount. destruct (decide (f x = k)); simpl in Hcount; lia.
Qed.

Lemma count_discrepancies_nil (s : store) :
  count_discrepancies s = [] <->
  forall c, c ∈ chapters s -> total_verses c = actual_verses s (chapter_id c).
Proof.
  unfold count_discrepancies. rewrite omap_nil_iff.
  split; intros H c Hc; specialize (H c Hc); simpl in *; by case_decide.
Qed.

Lemma duplicate_orders_nil (s : store) :
  duplicate_orders s = [] <-> NoDup (page_order <$> page_verses s).
Proof.
  unfold duplicate_orders. rewrite omap_nil_iff, NoDup_counts.
  split; intros H k Hk.
  - specialize (H k (proj2 (elem_of_remove_dups _ _) Hk)). simpl in H.
    case_decide; [discriminate | lia].
  - specialize (H k (proj1 (elem_of_remove_dups _ _) Hk)). simpl.
    case_decide; [lia | reflexivity].
Qed.

Lemma verifier_silent (s : store) :
  _verify_data_integrity s = ([], []) <->
  count_discrepancies s = [] /\ duplicate_orders s = [].
Proof.
  unfold _verify_data_integrity. split.
  - intros H. by inversion H.
  - intros [-> ->]. reflexivity.
Qed.

(** X2. [_verify_data_integrity] finds nothing exactly when every chapter
    row has as [total_verses] the number of verse rows that reference it and
    no (page_id, verse_order) pair is carried by two rows of [page_verses]. *)
Theorem verification_silent_iff (s : store) :
  _verify_data_integrity s = ([], []) <->
  (forall c, c ∈ chapters s -> total_verses c = actual_verses s (chapter_id c)) /\
  NoDup (page_order <$> page_verses s).
Proof.
  rewrite verifier_silent. split.
  - intros [Hcounts Horders].
    split; [by apply count_discrepancies_nil | by apply duplicate_orders_nil].
  - intros [Hcounts Horders].
    split; [by apply count_discrepancies_nil | by apply duplicate_orders_nil].
Qed.

Section Loader.

Variable py_int : string -> option Z.

(** X3. After a run of [load_data] on a store that satisfies its
    constraints, the second check of [_verify_data_integrity] (duplicate
    orders on a page) finds nothing, whatever the documents: the UNIQUE
    constraint has already refused what it looks for. *)
Theorem order_check_finds_nothing db quran_path chapters_names_path :
  store_ok db ->
  snd (_verify_data_integrity
         (store_after (load_data py_int db quran_path chapters_names_path))) = [].
Proof.
  intros Hok.
  pose proof (run_keeps_constraints py_int db quran_path chapters_names_path Hok)
    as [].
  unfold _verify_data_integrity, duplicate_orders. simpl.
  rewrite omap_nil_iff. intros k Hk.
  pose proof (proj1 (NoDup_counts page_order _) page_verses_unique0 k
                (proj1 (elem_of_remove_dups _ _) Hk)).
  case_decide; [lia | reflexivity].
Qed.

Lemma filter_remove_dups {A : Type} `{EqDecision A} (P : A -> Prop)
    `{forall x, Decision (P x)} (l : list A) :
  filter P (remove_dups l) = remove_dups (filter P l).
Proof.
  induction l as [|x l IH]; [reflexivity|].
  rewrite (filter_cons P x l). cbn [remove_dups].
  destruct (decide (P x)) as [HP|HP]; cbn [remove_dups].
  - destruct (decide_rel elem_of x l) as [Hin|Hout],
             (decide_rel elem_of x (filter P l)) as [Hin'|Hout'].
    + exact IH.
    + exfalso. apply Hout'. apply list_elem_of_filter. by split.
    + exfalso. apply Hout. by apply list_elem_of_filter in Hin' as [_ ?].
    + rewrite filter_cons_True by exact HP. by rewrite IH.
  - destruct (decide_rel elem_of x l) as [Hin|Hout]; [exact IH|].
    rewrite filter_cons_False by exact HP. exact IH.
Qed.

Lemma remove_dups_length {A : Type} `{EqDecision A} (l : list A) :
  (length (remove_dups l) <= length l)%nat.
Proof.
  induction l as [|x l IH]; simpl; [lia|].
  destruct (decide_rel elem_of x l); simpl; lia.
Qed.

Lemma remove_dups_same_length {A : Type} `{EqDecision A} (l : list A) :
  length (remove_dups l) = length l -> NoDup l.
Proof.
  induction l as [|x l IH]; simpl; [constructor|].
  pose proof (remove_dups_length l).
  destruct (decide_rel elem_of x l) as [Hin|Hout]; simpl; intros Hlen; [lia|].
  apply NoDup_cons. split; [exact Hout | apply IH; lia].
Qed.

(** Pairs that repeat share their chapter. *)
Lemma NoDup_by_chapter (l : list (Z * Z)) :
  (forall c, NoDup (filter (fun k => fst k = c) l)) -> NoDup l.
Proof.
  induction l as [|k l IH]; intros Hall; [constructor|].
  apply NoDup_cons. split.
  - specialize (Hall (fst k)). rewrite filter_cons_True in Hall by reflexivity.
    apply NoDup_cons in Hall as [Hout _]. intros Hin. apply Hout.
    apply list_elem_of_filter. by split.
  - apply IH. intros c. specialize (Hall c). rewrite filter_cons in Hall.
    destruct (decide (fst k = c)); [by apply NoDup_cons in Hall as [_ ?] | exact Hall].
Qed.

(** X4. For a run that loaded a corpus into a new store,
    [_verify_data_integrity] finds nothing exactly when no (chapter, verse
    number) pair is carried by two fragments of the corpus; when a pair
    recurs, the chapter counts of the run do not reconcile and the
    verification reports it. *)
Theorem verification_after_load quran_data chapters_names pages_data :
  getitem quran_data "pages" = Returns pages_data ->
  loaded (load_data py_int empty_store (Document quran_data) (Document chapters_names)) ->
  _verify_data_integrity
    (store_after (load_data py_int empty_store (Document quran_data)
                    (Document chapters_names))) = ([], [])
  <-> NoDup (fragment_key <$> corpus_fragments pages_data).
Proof.
  intros Hpages Hloaded.
  pose proof (chapter_counts py_int empty_store quran_data chapters_names pages_data
                Hpages Hloaded eq_refl) as Hcounts.
  pose proof (run_keeps_constraints py_int empty_store (Document quran_data)
                (Document chapters_names) empty_store_ok_lemma) as Hok.
  rewrite verifier_silent, count_discrepancies_nil, duplicate_orders_nil. split.
  - intros [Hrec _]. apply NoDup_by_chapter. intros c.
    destruct (filter (fun k => fst k = c) (fragment_key <$> corpus_fragments pages_data))
      as [|k ks] eqn:Hks; [constructor|]. rewrite <- Hks.
    assert (Hk : k ∈ filter (fun k => fst k = c)
                   (fragment_key <$> corpus_fragments pages_data))
      by (rewrite Hks; left).
    apply list_elem_of_filter in Hk as [Hc Hk].
    apply list_elem_of_fmap in Hk as (f & -> & Hf).
    destruct (loaded_grows py_int empty_store quran_data chapters_names pages_data
                Hpages Hloaded)
      as (s1 & cache' & _ & _ & _ & _ & _ & _ & _ & Hcached & _ & _ & _ & Hfk).
    destruct (Hcached (fragment_key f)) as [i Hi]; [by apply list_elem_of_fmap_2|].
    pose proof (Hfk (cache_fk_empty s1) _ _ Hi) as Hrow. simpl in Hrow, Hc.
    apply list_elem_of_fmap in Hrow as (row & Hid & Hrow).
    destruct (Hcounts row Hrow) as (Htotal & Hactual & _); [apply not_elem_of_nil|].
    specialize (Hrec row Hrow).
    pose proof (eq_trans (eq_trans (eq_sym Htotal) Hrec) Hactual) as Hlen.
    apply Nat2Z.inj in Hlen. rewrite <- Hid, Hc in Hlen. clear Hrec. rename Hlen into Hrec.
    apply remove_dups_same_length. rewrite <- filter_remove_dups, <- Hrec.
    rewrite filter_fmap, length_fmap. reflexivity.
  - intros Hdistinct. split; [|by destruct Hok].
    intros row Hrow. destruct (Hcounts row Hrow) as (_ & _ & Hsame); [apply not_elem_of_nil|].
    by apply Hsame.
Qed.

(** *** Chapter insertion *)

Lemma with_chapters_nil s : with_chapters s [] = s.
Proof. destruct s. unfold with_chapters. simpl. by rewrite app_nil_r. Qed.

Lemma with_chapters_app s rows1 rows2 :
  with_chapters (with_chapters s rows1) rows2 = with_chapters s (rows1 ++ rows2).
Proof. unfold with_chapters. simpl. by rewrite app_assoc. Qed.

Lemma cfor_cons {S A : Type} (body : S -> A -> cur S) x l acc s :
  cfor body (x :: l) acc s =
  match body acc x s with
  | (Returns acc', s') => cfor body l acc' s'
  | (Raises e, s') => (Raises e, s')
  end.
Proof. reflexivity. Qed.

Lemma chapter_rows_of_cons k name names counts :
  chapter_rows_of py_int ((k, name) :: names) counts =
  match py_int k with
  | Some cid =>
      if get_count counts cid =? 0 then chapter_rows_of py_int names counts
      else {| chapter_id := cid; chapter_name := name;
              total_verses := get_count counts cid |}
             :: chapter_rows_of py_int names counts
  | None => chapter_rows_of py_int names counts
  end.
Proof.
  unfold chapter_rows_of. simpl. destruct (py_int k) as [cid|]; [|reflexivity].
  by destruct (get_count counts cid =? 0).
Qed.

Lemma insert_chapters_returns names pages_data s :
  (forall k, k ∈ fst <$> names -> is_Some (py_int k)) ->
  (forall row, row ∈ chapter_rows_of py_int names (_calculate_verse_counts pages_data) ->
     int64 (chapter_id row)) ->
  NoDup (chapter_id <$> chapters s ++
           chapter_rows_of py_int names (_calculate_verse_counts pages_data)) ->
  _insert_chapters py_int names (_calculate_verse_counts pages_data) s
  = (Returns tt,
     with_chapters s (chapter_rows_of py_int names (_calculate_verse_counts pages_data))).
Proof.
  unfold _insert_chapters. set (counts := _calculate_verse_counts pages_data).
  revert s. induction names as [|[k name] names IH]; intros s Hparse Hrange Hnd.
  - simpl. by rewrite with_chapters_nil.
  - rewrite cfor_cons. unfold chapter_step at 1. cbn [fst snd].
    rewrite chapter_rows_of_cons in Hrange, Hnd.
    destruct (Hparse k (list_elem_of_here _ _)) as [cid Hk].
    rewrite chapter_rows_of_cons. rewrite Hk in *.
    assert (Hrest : forall k0, k0 ∈ fst <$> names -> is_Some (py_int k0))
      by (intros k0 Hk0; apply Hparse; by right).
    destruct (get_count counts cid =? 0) eqn:Hzero.
    + unfold ret. cbv beta iota. by apply IH.
    + rewrite bound_returns.
      2:{ constructor; [|constructor]. apply (Hrange _ (list_elem_of_here _ _)). }
      unfold insert_chapter. rewrite fmap_app, fmap_cons in Hnd. simpl in Hnd.
      rewrite decide_False.
      2:{ intros Hin. apply NoDup_app in Hnd as (_ & Hdisj & _).
          apply (Hdisj cid Hin). left. }
      rewrite decide_True.
      2:{ apply Z.eqb_neq in Hzero. unfold counts in *.
          rewrite calculate_verse_counts_tally in *. lia. }
      fold (with_chapters s [{| chapter_id := cid; chapter_name := name;
                                total_verses := get_count counts cid |}]).
      rewrite IH; [by rewrite with_chapters_app | exact Hrest| |].
      * intros row Hrow. apply Hrange. by right.
      * simpl. rewrite <- app_assoc, fmap_app. exact Hnd.
Qed.

Lemma insert_chapters_returned names counts s s' :
  _insert_chapters py_int names counts s = (Returns tt, s') ->
  (forall k, k ∈ fst <$> names -> is_Some (py_int k)) /\
  s' = with_chapters s (chapter_rows_of py_int names counts) /\
  NoDup (chapter_id <$> chapter_rows_of py_int names counts) /\
  (forall row, row ∈ chapter_rows_of py_int names counts ->
     chapter_id row ∉ chapter_id <$> chapters s) /\
  (forall row, row ∈ chapter_rows_of py_int names counts -> int64 (chapter_id row)).
Proof.
  unfold _insert_chapters. revert s.
  induction names as [|[k name] names IH]; intros s H.
  - simpl in H. inversion H; subst. simpl. rewrite with_chapters_nil.
    split; [|split; [reflexivity|split; [apply NoDup_nil_2|split]]];
      intros x Hx; by apply elem_of_nil in Hx.
  - rewrite cfor_cons in H. unfold chapter_step at 1 in H. cbn [fst snd] in H.
    destruct (py_int k) as [cid|] eqn:Hk; [|discriminate].
    destruct (get_count counts cid =? 0) eqn:Hzero.
    + unfold ret in H. cbv beta iota in H.
      apply IH in H as (Hparse & -> & Hnd & Hfresh & Hrange).
      rewrite ?chapter_rows_of_cons, ?Hk, ?Hzero.
      split; [|split; [reflexivity|split; [exact Hnd|split; [exact Hfresh|exact Hrange]]]].
      intros k0 Hk0. apply elem_of_cons in Hk0 as [->|Hk0]; [simpl; by rewrite Hk | auto].
    + destruct (cbind (bind_int [cid])
                  (fun _ => insert_chapter cid name (get_count counts cid)) s)
        as [[[]|e] s1] eqn:Hins; [|discriminate].
      apply bound_inv in Hins as [(? & _)|[Hb Hins]]; [discriminate|].
      apply Forall_cons in Hb as [Hb _].
      apply IH in H as (Hparse & -> & Hnd & Hfresh & Hrange).
      rewrite ?chapter_rows_of_cons, ?Hk, ?Hzero.
      apply insert_chapter_inv in Hins
        as [[? _]|(_ & Hfree & _ & Hc & Hv & Hq & Hp & Hpv)]; [discriminate|].
      assert (Hs1 : s1 = with_chapters s [{| chapter_id := cid; chapter_name := name;
                                             total_verses := get_count counts cid |}]).
      { destruct s1. unfold with_chapters. simpl in *. congruence. }
      rewrite Hs1, with_chapters_app. simpl.
      split; [|split; [reflexivity|split; [|split]]].
      * intros k0 Hk0. apply elem_of_cons in Hk0 as [->|Hk0]; [simpl; by rewrite Hk | auto].
      * apply NoDup_cons. split; [|exact Hnd]. intros Hin.
        apply list_elem_of_fmap in Hin as (row & Hid & Hrow).
        apply (Hfresh row Hrow). rewrite Hc, fmap_app, <- Hid. apply elem_of_app. right. left.
      * intros row Hrow. apply elem_of_cons in Hrow as [->|Hrow]; [exact Hfree|].
        intros Hin. apply (Hfresh row Hrow). rewrite Hc, fmap_app. apply elem_of_app. by left.
      * intros row Hrow. apply elem_of_cons in Hrow as [->|Hrow]; [exact Hb|by apply Hrange].
Qed.

(** Why chapter insertion raises: a key of the name map that does not read
    as an integer, a chapter to insert outside the range of an SQLite
    INTEGER, or a chapter id met twice. *)
Lemma insert_chapters_raised names pages_data s e s' :
  _insert_chapters py_int names (_calculate_verse_counts pages_data) s = (Raises e, s') ->
  (e = ValueError /\ exists k, k ∈ fst <$> names /\ py_int k = None) \/
  (e = OverflowError /\
   exists row, row ∈ chapter_rows_of py_int names (_calculate_verse_counts pages_data) /\
     ~ int64 (chapter_id row)) \/
  (e = IntegrityError /\
   ~ NoDup (chapter_id <$> chapters s ++
              chapter_rows_of py_int names (_calculate_verse_counts pages_data))).
Proof.
  unfold _insert_chapters. set (counts := _calculate_verse_counts pages_data).
  revert s. induction names as [|[k name] names IH]; intros s H; [discriminate|].
  rewrite cfor_cons in H. unfold chapter_step at 1 in H. cbn [fst snd] in H.
  rewrite chapter_rows_of_cons.
  destruct (py_int k) as [cid|] eqn:Hk.
  2:{ inversion H; subst. left. split; [reflexivity|]. exists k. split; [left|exact Hk]. }
  assert (Htail : forall s0,
            cfor (chapter_step py_int counts) names tt s0 = (Raises e, s') ->
            (e = ValueError /\ exists k0, k0 ∈ fst <$> (k, name) :: names /\ py_int k0 = None) \/
            (e = OverflowError /\
             exists row, row ∈ chapter_rows_of py_int names counts /\ ~ int64 (chapter_id row)) \/
            (e = IntegrityError /\
             ~ NoDup (chapter_id <$> chapters s0 ++ chapter_rows_of py_int names counts))).
  { intros s0 H0. apply IH in H0 as [(-> & k0 & Hk0 & Hnone)|[Hov|Hint]]; [|by auto..].
    left. split; [reflexivity|]. exists k0. split; [by right|exact Hnone]. }
  destruct (get_count counts cid =? 0) eqn:Hzero; [by apply (Htail s)|].
  destruct (cbind (bind_int [cid])
              (fun _ => insert_chapter cid name (get_count counts cid)) s)
    as [[[]|e1] s1] eqn:Hins.
  - apply bound_inv in Hins as [(? & _)|[_ Hins]]; [discriminate|].
    apply insert_chapter_inv in Hins as [[? _]|(_ & _ & _ & Hc & _)]; [discriminate|].
    apply Htail in H as [Hval|[(-> & row & Hrow & Hr)|(-> & Hnd)]]; [by left| |].
    + right; left. split; [reflexivity|]. exists row. split; [by right|exact Hr].
    + right; right. split; [reflexivity|]. by rewrite Hc, <- app_assoc in Hnd.
  - inversion H; subst e1 s1.
    apply bound_inv in Hins as [(He & _ & Hb)|[_ Hins]].
    + inversion He; subst e.
      right; left. split; [reflexivity|]. eexists. split; [left|]. simpl.
      intros Hi. apply Hb. constructor; [exact Hi|constructor].
    + right; right. unfold insert_chapter in Hins.
      destruct (decide (cid ∈ chapter_id <$> chapters s)) as [Hin|Hout].
      * inversion Hins; subst. split; [reflexivity|]. intros Hnd.
        rewrite fmap_app, fmap_cons in Hnd. apply NoDup_app in Hnd as (_ & Hdisj & _).
        apply (Hdisj cid Hin). left.
      * exfalso. apply Z.eqb_neq in Hzero. unfold counts in *.
        rewrite calculate_verse_counts_tally in *.
        rewrite decide_True in Hins by lia. discriminate.
Qed.


(** *** Loading twice *)

Lemma insert_chapters_again names counts s :
  (forall k, k ∈ fst <$> names -> is_Some (py_int k)) ->
  (forall row, row ∈ chapter_rows_of py_int names counts -> int64 (chapter_id row)) ->
  (forall row, row ∈ chapter_rows_of py_int names counts ->
     chapter_id row ∈ chapter_id <$> chapters s) ->
  chapter_rows_of py_int names counts <> [] ->
  _insert_chapters py_int names counts s = (Raises IntegrityError, s).
Proof.
  unfold _insert_chapters.
  induction names as [|[k name] names IH]; intros Hparse Hrange Hin Hrows; [done|].
  rewrite cfor_cons. unfold chapter_step at 1. cbn [fst snd].
  rewrite chapter_rows_of_cons in Hin, Hrows, Hrange.
  destruct (Hparse k (list_elem_of_here _ _)) as [cid Hk]. rewrite Hk in *.
  destruct (get_count counts cid =? 0) eqn:Hzero.
  - unfold ret. cbv beta iota. apply IH; auto. intros k0 Hk0. apply Hparse. by right.
  - rewrite bound_returns.
    2:{ constructor; [|constructor]. apply (Hrange _ (list_elem_of_here _ _)). }
    unfold insert_chapter. rewrite decide_True; [reflexivity|].
    apply (Hin _ (list_elem_of_here _ _)).
Qed.

(** X6. A run of [load_data] that loaded and inserted at least one chapter
    cannot be repeated: on the store it left, the same two documents make
    [load_data] raise [IntegrityError] at the first chapter (its row is
    there already), and the store stays as the first run left it. *)
Theorem load_again_refused db quran_data chapters_names pages_data :
  getitem quran_data "pages" = Returns pages_data ->
  loaded (load_data py_int db (Document quran_data) (Document chapters_names)) ->
  chapter_rows_of py_int chapters_names (_calculate_verse_counts pages_data) <> [] ->
  load_data py_int
    (store_after (load_data py_int db (Document quran_data) (Document chapters_names)))
    (Document quran_data) (Document chapters_names)
  = (Raises IntegrityError,
     connect (store_after (load_data py_int db (Document quran_data)
                             (Document chapters_names)))).
Proof.
  intros Hpages Hloaded Hrows.
  destruct (loaded_inv _ _ _ _ Hloaded)
    as (qd & names & pd & s1 & s2 & Hq & Hn & Hne & Hpd & H1 & H2 & Hrun).
  inversion Hq; subst qd. inversion Hn; subst names.
  rewrite Hpages in Hpd. inversion Hpd; subst pd. clear Hq Hn Hpd.
  unfold store_after. rewrite Hrun. simpl.
  apply insert_chapters_returned in H1 as (Hparse & -> & _ & _ & Hrange).
  destruct (pass2_grows _ _ _ _ H2) as (cache' & Hch & _).
  assert (Hagain : _insert_chapters py_int chapters_names
                     (_calculate_verse_counts pages_data) s2 = (Raises IntegrityError, s2)).
  { apply insert_chapters_again; [exact Hparse|exact Hrange| |exact Hrows].
    intros row Hrow. rewrite Hch. simpl. rewrite fmap_app. apply elem_of_app. right.
    by apply list_elem_of_fmap_2. }
  unfold load_data. simpl.
  destruct quran_data as [|entry quran_data]; [discriminate|].
  destruct chapters_names as [|name chapters_names]; [done|].
  unfold get_connection, load_body. rewrite Hpages.
  unfold execute, cbind, connect. simpl. rewrite Hagain. reflexivity.
Qed.

(** X7. For a run that loaded into a store without verses, each chapter row
    of the run has as [total_verses] the number of fragments of its chapter
    in the corpus, while the rows of [verses] that reference the chapter are
    as many as the distinct (chapter, verse number) pairs of the chapter; the
    two agree when no pair is carried by two fragments. *)
Theorem chapter_totals_and_rows db quran_data chapters_names pages_data :
  getitem quran_data "pages" = Returns pages_data ->
  loaded (load_data py_int db (Document quran_data) (Document chapters_names)) ->
  verses db = [] ->
  forall row,
    row ∈ chapters (store_after (load_data py_int db (Document quran_data)
                                   (Document chapters_names))) ->
    row ∉ chapters db ->
    total_verses row
      = Z.of_nat (length (filter (fun f => chapter f = chapter_id row)
                                 (corpus_fragments pages_data))) /\
    actual_verses (store_after (load_data py_int db (Document quran_data)
                                  (Document chapters_names))) (chapter_id row)
      = Z.of_nat (length (filter (fun k => fst k = chapter_id row)
                                 (remove_dups (fragment_key <$> corpus_fragments pages_data)))) /\
    (NoDup (fragment_key <$> corpus_fragments pages_data) ->
       total_verses row
       = actual_verses (store_after (load_data py_int db (Document quran_data)
                                       (Document chapters_names))) (chapter_id row)).
Proof. apply chapter_counts. Qed.

(** *** Verse rows in reading order *)

Lemma foldr_max_bound (q : Z) (l : list Z) :
  (forall x, x ∈ l -> x <= q) -> foldr Z.max q l = q.
Proof.
  induction l as [|x l IH]; intros Hall; simpl; [reflexivity|].
  rewrite IH by (intros y Hy; apply Hall; by right).
  specialize (Hall x (list_elem_of_here _ _)). lia.
Qed.

Lemma numbered_next cache s :
  numbered cache s -> next_verse_id s = Z.of_nat (length (verses s)) + 1.
Proof.
  intros (_ & Hids & Hseq). unfold next_verse_id. rewrite Hids, Hseq.
  rewrite foldr_max_bound; [lia|].
  intros x Hx. apply elem_of_seqZ in Hx. lia.
Qed.

Lemma numbered_tables cache s s' :
  verses s' = verses s -> verses_seq s' = verses_seq s ->
  numbered cache s -> numbered cache s'.
Proof. unfold numbered. by intros -> ->. Qed.

Lemma insert_page_verse_verses p vid ord flag s r s' :
  insert_page_verse p vid ord flag s = (r, s') ->
  verses s' = verses s /\ verses_seq s' = verses_seq s.
Proof.
  unfold insert_page_verse. intros H. repeat case_decide; by inversion H.
Qed.

Lemma verse_step_numbered p st f s st' s' :
  verse_step p st f s = (Returns st', s') ->
  numbered (verse_cache st) s ->
  verse_key <$> verses s' = add_new (verse_key <$> verses s) (fragment_key f) /\
  numbered (verse_cache st') s'.
Proof.
  unfold verse_step, cbind, ret, raise. intros H Hnum.
  pose proof Hnum as (Hexact & Hids & Hseq).
  unfold add_new, fragment_key.
  destruct (verse_cache st !! (chapter f, verse f)) as [i|] eqn:Hcache.
  - rewrite Hcache in H.
    destruct (insert_page_verse p i (order st) _ s) as [[[]|e] s2] eqn:Hlink;
      inversion H; subst; clear H. simpl.
    apply insert_page_verse_verses in Hlink as [Hv Hq].
    rewrite decide_True by (apply Hexact; by exists i).
    split; [by rewrite Hv | by apply (numbered_tables _ s)].
  - unfold bind_int in H.
    destruct (decide (Forall int64 [chapter f; verse f])) as [Hbind|Hbind]; [|discriminate].
    destruct (insert_verse (chapter f) (verse f) (text f) s) as [[rowid|e] s1] eqn:Hins;
      [|discriminate].
    rewrite lookup_insert_eq in H.
    destruct (insert_page_verse p rowid (order st) _ s1) as [[[]|e] s2] eqn:Hlink;
      inversion H; subst; clear H. simpl.
    apply insert_page_verse_verses in Hlink as [Hv Hq].
    assert (Hq1 : verses_seq s1 = rowid).
    { revert Hins. unfold insert_verse. repeat case_decide; intros H'; by inversion H'. }
    apply insert_verse_inv in Hins
      as [[? _]|(Hid & _ & _ & Hnew & _ & Hv1 & _ & _)]; [discriminate|].
    injection Hid as ->. rewrite (numbered_next _ _ Hnum) in *.
    rewrite decide_False by exact Hnew.
    rewrite Hv, Hv1, fmap_app. split; [reflexivity|].
    unfold numbered. rewrite Hv, Hq, Hv1, Hq1, !fmap_app, length_app. simpl.
    split; [|split].
    + intros k. rewrite lookup_insert, elem_of_app, list_elem_of_singleton.
      unfold verse_key at 2. simpl. case_decide.
      * subst k. split; [by right | by eexists].
      * rewrite Hexact. split; [by left | intros [?|?]; congruence].
    + rewrite Nat2Z.inj_add, seqZ_app, <- Hids by lia.
      rewrite seqZ_cons, seqZ_nil by lia. do 2 f_equal. lia.
    + lia.
Qed.

Lemma fragments_numbered p frs st s st' s' :
  cfor (verse_step p) frs st s = (Returns st', s') ->
  numbered (verse_cache st) s ->
  verse_key <$> verses s' = foldl add_new (verse_key <$> verses s) (fragment_key <$> frs) /\
  numbered (verse_cache st') s'.
Proof.
  revert st s. induction frs as [|f frs IH]; intros st s H Hnum; simpl in *.
  - by inversion H; subst.
  - unfold cbind in H.
    destruct (verse_step p st f s) as [[st1|e] s1] eqn:Hstep; [|discriminate].
    apply verse_step_numbered in Hstep as [Hkeys Hnum1]; [|exact Hnum].
    apply IH in H as [Hkeys' Hnum']; [|exact Hnum1].
    by rewrite Hkeys', Hkeys.
Qed.

Lemma page_step_numbered cache item s cache' s' :
  page_step py_int cache item s = (Returns cache', s') ->
  numbered cache s ->
  verse_key <$> verses s' = foldl add_new (verse_key <$> verses s)
                                  (fragment_key <$> snd item) /\
  numbered cache' s'.
Proof.
  unfold page_step, cbind, lift, ret. intros H Hnum.
  destruct (page_num_of py_int (fst item)) as [p|e]; [|discriminate].
  unfold bind_int in H.
  destruct (decide (Forall int64 [p])) as [Hbind|Hbind]; [|discriminate].
  destruct (insert_page_or_ignore_inv p s) as (s1 & Hins & _ & Hv & Hq & _).
  rewrite Hins in H.
  destruct (cfor (verse_step p) (snd item) _ s1) as [[st|e] s2] eqn:Hloop;
    inversion H; subst; clear H.
  apply fragments_numbered in Hloop as [Hkeys Hnum'];
    [|by apply (numbered_tables _ s)].
  simpl in *. by rewrite Hkeys, Hv.
Qed.

Lemma groupings_numbered items cache s cache' s' :
  cfor (page_step py_int) items cache s = (Returns cache', s') ->
  numbered cache s ->
  verse_key <$> verses s' = foldl add_new (verse_key <$> verses s)
                                  (fragment_key <$> concat (snd <$> items)) /\
  numbered cache' s'.
Proof.
  revert cache s. induction items as [|item items IH]; intros cache s H Hnum; simpl in *.
  - by inversion H; subst.
  - unfold cbind in H.
    destruct (page_step py_int cache item s) as [[cache1|e] s1] eqn:Hstep; [|discriminate].
    apply page_step_numbered in Hstep as [Hkeys Hnum1]; [|exact Hnum].
    apply IH in H as [Hkeys' Hnum']; [|exact Hnum1].
    by rewrite Hkeys', Hkeys, fmap_app, foldl_app.
Qed.

(** X8. After a run that loaded a corpus into a new store, the rows of
    [verses] are, in insertion order, the (chapter, verse number) pairs of the
    corpus in the order of their first occurrence, and their ids are
    1, 2, ..., the number of rows. *)
Theorem verses_in_reading_order quran_data chapters_names pages_data :
  getitem quran_data "pages" = Returns pages_data ->
  loaded (load_data py_int empty_store (Document quran_data) (Document chapters_names)) ->
  verse_key <$> verses (store_after (load_data py_int empty_store (Document quran_data)
                                        (Document chapters_names)))
    = first_occurrences (fragment_key <$> corpus_fragments pages_data) /\
  verse_id <$> verses (store_after (load_data py_int empty_store (Document quran_data)
                                       (Document chapters_names)))
    = seqZ 1 (Z.of_nat (length (first_occurrences
                                  (fragment_key <$> corpus_fragments pages_data)))).
Proof.
  intros Hpages Hloaded.
  destruct (loaded_inv _ _ _ _ Hloaded)
    as (qd & names & pd & s1 & s2 & Hq & Hn & _ & Hpd & H1 & H2 & Hrun).
  inversion Hq; subst qd. rewrite Hpages in Hpd. inversion Hpd; subst pd.
  unfold store_after. rewrite Hrun. simpl.
  destruct (insert_chapters_inv _ _ _ _ _ _ H1) as (Hv & Hseq & _).
  unfold _insert_pages_and_verses, cbind, ret in H2. rewrite cfor_concat in H2.
  destruct (cfor (page_step py_int) (concat pages_data) ∅ s1) as [[cache'|e] s3] eqn:Hloop;
    inversion H2; subst; clear H2.
  apply groupings_numbered in Hloop as [Hkeys (_ & Hids & _)].
  - rewrite Hv in Hkeys. simpl in Hkeys. unfold first_occurrences, corpus_fragments, groupings.
    split; [exact Hkeys|]. rewrite <- Hkeys, length_fmap. exact Hids.
  - unfold numbered. rewrite Hv, Hseq. simpl. split; [|done].
    intros k. rewrite lookup_empty. split; [by intros [? ?] | intros Hk; by apply elem_of_nil in Hk].
Qed.

(** *** Which inputs load into a new store *)

Lemma NoDup_fmap_eq {A B : Type} (f : A -> B) (l : list A) (x y : A) :
  NoDup (f <$> l) -> x ∈ l -> y ∈ l -> f x = f y -> x = y.
Proof.
  induction l as [|a l IH]; intros Hnd Hx Hy Hxy; [by apply elem_of_nil in Hx|].
  rewrite fmap_cons in Hnd. apply NoDup_cons in Hnd as [Ha Hnd].
  apply elem_of_cons in Hx as [->|Hx]; apply elem_of_cons in Hy as [->|Hy]; auto.
  - exfalso. apply Ha. rewrite Hxy. apply list_elem_of_fmap. by exists y.
  - exfalso. apply Ha. rewrite <- Hxy. apply list_elem_of_fmap. by exists x.
Qed.

Lemma numbered_ids cache s : numbered cache s -> NoDup (verse_id <$> verses s).
Proof. intros (_ & -> & _). apply NoDup_seqZ. Qed.

(** Two keys of the cache have different ids. *)
Lemma cache_inj cache s k1 k2 i :
  cache_sound cache s -> NoDup (verse_id <$> verses s) ->
  cache !! k1 = Some i -> cache !! k2 = Some i -> k1 = k2.
Proof.
  intros Hsound Hnd H1 H2.
  destruct (Hsound _ _ H1) as (v1 & Hv1 & <- & Hi1).
  destruct (Hsound _ _ H2) as (v2 & Hv2 & <- & Hi2).
  f_equal. apply (NoDup_fmap_eq verse_id (verses s)); [done..|congruence].
Qed.

Lemma verse_step_returns P D p st f s :
  int64 (chapter f) -> int64 (verse f) ->
  chapter f ∈ chapter_id <$> chapters s -> 0 < verse f -> p ∈ pages s ->
  numbered (verse_cache st) s -> cache_sound (verse_cache st) s ->
  p ∉ P -> page_open P p (order st) D (verse_cache st) s ->
  fragment_key f ∉ D ->
  exists st' s', verse_step p st f s = (Returns st', s').
Proof.
  intros Hcr Hvr Hch Hpos Hp Hnum Hsound HpP Hopen HD.
  pose proof (numbered_ids _ _ Hnum) as Hids.
  assert (Hrow : forall r, r ∈ page_verses s -> pv_page_id r = p ->
            verse_order r < order st /\
            exists k, k ∈ D /\ verse_cache st !! k = Some (pv_verse_id r)).
  { intros r Hr Hpage. destruct (Hopen r Hr) as [Hin|(_ & ? & ?)]; [|done].
    rewrite Hpage in Hin. done. }
  assert (Hord : (p, order st) ∉ page_order <$> page_verses s).
  { intros Hin. apply list_elem_of_fmap in Hin as (r & Heq & Hr).
    unfold page_order in Heq. injection Heq as Hpage Ho.
    destruct (Hrow r Hr (eq_sym Hpage)) as [Hlt _]. lia. }
  unfold verse_step, cbind, ret, raise.
  destruct (verse_cache st !! (chapter f, verse f)) as [i|] eqn:Hcache.
  - rewrite Hcache. unfold insert_page_verse.
    rewrite decide_True by exact Hp.
    rewrite decide_True.
    2:{ destruct (Hsound _ _ Hcache) as (v & Hv & _ & <-).
        apply list_elem_of_fmap. by exists v. }
    rewrite decide_False.
    2:{ intros Hin. apply list_elem_of_fmap in Hin as (r & Heq & Hr).
        unfold page_verse in Heq. injection Heq as Hpage Hvid.
        destruct (Hrow r Hr (eq_sym Hpage)) as (_ & k & Hk & Hki).
        rewrite <- Hvid in Hki.
        apply HD. pose proof (cache_inj _ _ _ _ _ Hsound Hids Hki Hcache) as Heq.
        unfold fragment_key. by rewrite <- Heq. }
    rewrite decide_False by exact Hord. by eexists _, _.
  - unfold bind_int.
    rewrite decide_True by (constructor; [exact Hcr|constructor; [exact Hvr|constructor]]).
    unfold insert_verse.
    rewrite decide_True by exact Hch.
    rewrite decide_True by exact Hpos.
    rewrite decide_False.
    2:{ intros Hin. destruct Hnum as (Hexact & _).
        apply Hexact in Hin as [i Hi]. unfold verse_key in *. congruence. }
    rewrite lookup_insert_eq. unfold insert_page_verse. simpl.
    rewrite decide_True by exact Hp.
    rewrite decide_True.
    2:{ rewrite fmap_app. apply elem_of_app. right. left. }
    rewrite decide_False.
    2:{ intros Hin. apply list_elem_of_fmap in Hin as (r & Heq & Hr).
        unfold page_verse in Heq. injection Heq as Hpage Hvid.
        destruct (Hrow r Hr (eq_sym Hpage)) as (_ & k & Hk & Hki).
        destruct (Hsound _ _ Hki) as (v & Hv & _ & Hvi).
        rewrite (numbered_next _ _ Hnum) in Hvid.
        assert (Hin : verse_id v ∈ verse_id <$> verses s)
          by (apply list_elem_of_fmap; by exists v).
        destruct Hnum as (_ & Hseq & _). rewrite Hseq in Hin.
        apply elem_of_seqZ in Hin. lia. }
    rewrite decide_False by exact Hord. by eexists _, _.
Qed.

Lemma verse_step_open P D p st f s st' s' :
  verse_step p st f s = (Returns st', s') ->
  page_open P p (order st) D (verse_cache st) s ->
  page_open P p (order st') (D ++ [fragment_key f]) (verse_cache st') s'.
Proof.
  intros H Hopen.
  apply verse_step_grows in H
    as ((_ & _ & (new & Hpv & Hnew) & Hsub & _) & _ & Ho & _).
  intros r Hr. rewrite Hpv in Hr. apply elem_of_app in Hr as [Hr|Hr].
  - destruct (Hopen r Hr) as [?|(Hpage & Hlt & k & Hk & Hki)]; [by left|right].
    split; [exact Hpage|]. split; [lia|].
    exists k. split; [apply elem_of_app; by left|].
    by apply (lookup_weaken _ _ _ _ Hki).
  - right. apply Forall2_cons_inv_r in Hnew as (r0 & new' & [Hshape Hid] & Hnil & ->).
    apply Forall2_nil_inv_r in Hnil as ->.
    apply list_elem_of_singleton in Hr as ->.
    unfold row_shape in Hshape. simpl in *. injection Hshape as Hpage Hord _.
    split; [exact Hpage|]. split; [lia|].
    exists (fragment_key f). split; [apply elem_of_app; right; left | exact Hid].
Qed.

Lemma fragments_return P p frs : forall D st s,
  (forall f, f ∈ frs -> int64 (chapter f) /\ int64 (verse f)) ->
  (forall f, f ∈ frs -> chapter f ∈ chapter_id <$> chapters s /\ 0 < verse f) ->
  p ∈ pages s ->
  numbered (verse_cache st) s -> cache_sound (verse_cache st) s ->
  p ∉ P -> page_open P p (order st) D (verse_cache st) s ->
  NoDup (D ++ (fragment_key <$> frs)) ->
  exists st' s', cfor (verse_step p) frs st s = (Returns st', s') /\
    page_open P p (order st') (D ++ (fragment_key <$> frs)) (verse_cache st') s'.
Proof.
  induction frs as [|f frs IH]; intros D st s Hrange Hfr Hp Hnum Hsound HpP Hopen Hnd.
  - exists st, s. simpl. by rewrite app_nil_r.
  - rewrite fmap_cons in Hnd.
    assert (HD : fragment_key f ∉ D).
    { apply NoDup_app in Hnd as (_ & Hdisj & _). intros Hin.
      apply (Hdisj _ Hin). left. }
    destruct (Hfr f (list_elem_of_here _ _)) as [Hch Hpos].
    destruct (Hrange f (list_elem_of_here _ _)) as [Hcr Hvr].
    destruct (verse_step_returns P D p st f s Hcr Hvr Hch Hpos Hp Hnum Hsound HpP Hopen HD)
      as (st1 & s1 & Hstep).
    pose proof (verse_step_open _ _ _ _ _ _ _ _ Hstep Hopen) as Hopen1.
    pose proof (verse_step_numbered _ _ _ _ _ _ Hstep Hnum) as [_ Hnum1].
    pose proof (verse_step_grows _ _ _ _ _ _ Hstep)
      as ((Hc & _ & _ & _ & _ & _ & _ & Hs & _) & _ & _ & Hpages).
    destruct (IH (D ++ [fragment_key f]) st1 s1) as (st' & s' & Hloop & Hopen').
    + intros g Hg. apply Hrange. by right.
    + intros g Hg. rewrite Hc. apply Hfr. by right.
    + by rewrite Hpages.
    + exact Hnum1.
    + by apply Hs.
    + exact HpP.
    + exact Hopen1.
    + rewrite <- app_assoc. exact Hnd.
    + exists st', s'. simpl. unfold cbind. rewrite Hstep.
      split; [exact Hloop|].
      by rewrite <- app_assoc in Hopen'.
Qed.

Lemma pages_with_fragments_cons it items :
  pages_with_fragments py_int (it :: items) =
  match snd it, page_num_of py_int (fst it) with
  | _ :: _, Returns p => p :: pages_with_fragments py_int items
  | _, _ => pages_with_fragments py_int items
  end.
Proof.
  unfold pages_with_fragments. simpl.
  destruct (snd it); [reflexivity|]. by destruct (page_num_of py_int (fst it)).
Qed.

Lemma page_step_returns P cache item p s :
  page_num_of py_int (fst item) = Returns p -> int64 p ->
  (forall f, f ∈ snd item -> int64 (chapter f) /\ int64 (verse f)) ->
  (forall f, f ∈ snd item -> chapter f ∈ chapter_id <$> chapters s /\ 0 < verse f) ->
  numbered cache s -> cache_sound cache s ->
  rows_in P s -> (snd item <> [] -> p ∉ P) ->
  NoDup (fragment_key <$> snd item) ->
  exists cache' s', page_step py_int cache item s = (Returns cache', s') /\
    rows_in (P ++ pages_with_fragments py_int [item]) s'.
Proof.
  intros Hkey Hpr Hrange Hfr Hnum Hsound Hrows HpP Hnd.
  unfold page_step, cbind, lift, ret. rewrite Hkey.
  unfold bind_int. rewrite decide_True by (constructor; [exact Hpr|constructor]).
  destruct (insert_page_or_ignore_inv p s) as (s1 & Hins & Hc & Hv & Hq & Hpv & Hold & Hnew).
  rewrite Hins. rewrite pages_with_fragments_cons, Hkey.
  destruct (snd item) as [|f frs] eqn:Hfrs.
  - simpl. eexists _, _. split; [reflexivity|].
    intros r Hr. rewrite Hpv in Hr. rewrite app_nil_r. by apply Hrows.
  - assert (Hp : p ∈ pages s1).
    { destruct (decide (p ∈ pages s)) as [Hin|Hout].
      - by rewrite (Hold Hin).
      - rewrite (Hnew Hout). apply elem_of_app. right. left. }
    destruct (fragments_return P p (f :: frs) []
                {| verse_cache := cache; current_chapter := None; order := 0 |} s1)
      as (st' & s' & Hloop & Hopen).
    + exact Hrange.
    + intros g Hg. rewrite Hc. by apply Hfr.
    + exact Hp.
    + by apply (numbered_tables _ s).
    + intros k i Hk. destruct (Hsound k i Hk) as (v & Hin & ?). exists v. by rewrite Hv.
    + by apply HpP.
    + intros r Hr. left. apply Hrows. by rewrite <- Hpv.
    + exact Hnd.
    + rewrite Hloop. eexists _, _. split; [reflexivity|].
      intros r Hr. apply elem_of_app.
      destruct (Hopen r Hr) as [?|(Hpage & _)]; [by left|right].
      rewrite Hpage. left.
Qed.

Lemma groupings_return items : forall P cache s,
  (forall it, it ∈ items -> exists p, page_num_of py_int (fst it) = Returns p /\ int64 p) ->
  (forall it f, it ∈ items -> f ∈ snd it -> int64 (chapter f) /\ int64 (verse f)) ->
  (forall it f, it ∈ items -> f ∈ snd it ->
     chapter f ∈ chapter_id <$> chapters s /\ 0 < verse f) ->
  (forall it, it ∈ items -> NoDup (fragment_key <$> snd it)) ->
  NoDup (P ++ pages_with_fragments py_int items) ->
  rows_in P s -> numbered cache s -> cache_sound cache s ->
  exists cache' s', cfor (page_step py_int) items cache s = (Returns cache', s').
Proof.
  induction items as [|it items IH];
    intros P cache s Hkeys Hrange Hfr Hnd HP Hrows Hnum Hsound.
  - by exists cache, s.
  - destruct (Hkeys it (list_elem_of_here _ _)) as (p & Hkey & Hpr).
    rewrite pages_with_fragments_cons, Hkey in HP.
    destruct (page_step_returns P cache it p s) as (cache1 & s1 & Hstep & Hrows1).
    + exact Hkey.
    + exact Hpr.
    + intros f Hf. apply (Hrange it); [left|exact Hf].
    + intros f Hf. apply (Hfr it); [left|exact Hf].
    + exact Hnum.
    + exact Hsound.
    + exact Hrows.
    + intros Hne. destruct (snd it); [done|].
      apply NoDup_app in HP as (_ & Hdisj & _). intros Hin. apply (Hdisj _ Hin). left.
    + apply Hnd. left.
    + pose proof (page_step_numbered _ _ _ _ _ Hstep Hnum) as [_ Hnum1].
      pose proof (page_step_grows _ _ _ _ _ _ Hstep)
        as ((Hc & _ & _ & _ & _ & _ & _ & Hs & _) & _).
      destruct (IH (P ++ pages_with_fragments py_int [it]) cache1 s1)
        as (cache' & s' & Hloop).
      * intros it' Hit'. apply Hkeys. by right.
      * intros it' f Hit' Hf. apply (Hrange it'); [by right|exact Hf].
      * intros it' f Hit' Hf. rewrite Hc. apply (Hfr it'); [by right|exact Hf].
      * intros it' Hit'. apply Hnd. by right.
      * rewrite pages_with_fragments_cons, Hkey.
        destruct (snd it); simpl; [by rewrite app_nil_r|].
        by rewrite <- app_assoc.
      * exact Hrows1.
      * exact Hnum1.
      * by apply Hs.
      * exists cache', s'. simpl. unfold cbind. by rewrite Hstep.
Qed.

Lemma load_data_loaded db quran_data chapters_names pages_data s1 s2 :
  getitem quran_data "pages" = Returns pages_data ->
  chapters_names <> [] ->
  _insert_chapters py_int chapters_names (_calculate_verse_counts pages_data) db
    = (Returns tt, s1) ->
  _insert_pages_and_verses py_int pages_data s1 = (Returns tt, s2) ->
  loaded (load_data py_int db (Document quran_data) (Document chapters_names)).
Proof.
  intros Hget Hne H1 H2. unfold load_data. simpl.
  destruct quran_data as [|kv quran_data]; [discriminate|].
  destruct chapters_names as [|nm chapters_names]; [done|].
  unfold get_connection, load_body. rewrite Hget.
  unfold execute, cbind. simpl. rewrite H1, H2. simpl. by split.
Qed.

Lemma groupings_parse items : forall cache s cache' s',
  cfor (page_step py_int) items cache s = (Returns cache', s') ->
  forall it, it ∈ items -> exists p, page_num_of py_int (fst it) = Returns p.
Proof.
  induction items as [|it0 items IH]; intros cache s cache' s' H it Hit;
    [by apply elem_of_nil in Hit|].
  simpl in H. unfold cbind in H.
  destruct (page_step py_int cache it0 s) as [[cache1|e] s1] eqn:Hstep; [|discriminate].
  apply elem_of_cons in Hit as [->|Hit].
  - apply page_step_grows in Hstep as (_ & p & Hp & _). by exists p.
  - by apply (IH _ _ _ _ H).
Qed.

Lemma written_page_verses cache new entries :
  Forall2 (written_for cache) new entries ->
  NoDup (page_verse <$> new) -> NoDup (entry_verse <$> entries).
Proof.
  induction 1 as [|r e new entries [Hshape Hid] Hall IH]; intros Hnd; [constructor|].
  rewrite fmap_cons in *. apply NoDup_cons in Hnd as [Hr Hnd].
  apply NoDup_cons. split; [|by apply IH].
  intros Hin. apply list_elem_of_fmap in Hin as (e' & Heq & He').
  apply list_elem_of_lookup in He' as [i Hi].
  destruct (Forall2_lookup_r _ _ _ _ _ Hall Hi) as (r' & Hr' & [Hshape' Hid']).
  apply Hr. apply list_elem_of_fmap. exists r'.
  split; [|by apply list_elem_of_lookup_2 in Hr'].
  pose proof (f_equal fst Heq) as Hpage. pose proof (f_equal snd Heq) as Hkey.
  unfold entry_verse in Hpage, Hkey. simpl in Hpage, Hkey.
  rewrite <- Hkey in Hid'. unfold page_verse. f_equal; [|congruence].
  unfold row_shape in *. rewrite <- Hshape, <- Hshape' in Hpage. exact Hpage.
Qed.

Lemma page_rows_verses p ord cursor frs :
  entry_verse <$> page_rows p ord cursor frs = pair p <$> (fragment_key <$> frs).
Proof.
  revert ord cursor. induction frs as [|f frs IH]; intros ord cursor; [reflexivity|].
  simpl. by rewrite IH.
Qed.

Lemma NoDup_concat_part {A B C : Type} (g : B -> C) (h : A -> list B) (items : list A) it :
  NoDup (g <$> concat (h <$> items)) -> it ∈ items -> NoDup (g <$> h it).
Proof.
  induction items as [|it0 items IH]; intros Hnd Hit; [by apply elem_of_nil in Hit|].
  rewrite fmap_cons, concat_cons, fmap_app in Hnd.
  apply NoDup_app in Hnd as (Hhd & _ & Htl).
  apply elem_of_cons in Hit as [->|Hit]; [exact Hhd | by apply IH].
Qed.

Lemma elem_of_pages_with_fragments p items :
  p ∈ pages_with_fragments py_int items ->
  exists it, it ∈ items /\ snd it <> [] /\ page_num_of py_int (fst it) = Returns p.
Proof.
  unfold pages_with_fragments. intros Hin.
  apply list_elem_of_omap in Hin as (it & Hit & Hsome).
  exists it. split; [exact Hit|].
  destruct (snd it); [discriminate|].
  destruct (page_num_of py_int (fst it)); [|discriminate].
  by inversion Hsome.
Qed.

Lemma orders_distinct_pages items :
  NoDup (entry_order <$> concat (grouping_rows py_int <$> items)) ->
  NoDup (pages_with_fragments py_int items).
Proof.
  induction items as [|it items IH]; intros Hnd; [constructor|].
  rewrite fmap_cons, concat_cons, fmap_app in Hnd.
  apply NoDup_app in Hnd as (_ & Hdisj & Htl).
  rewrite pages_with_fragments_cons.
  destruct (snd it) as [|f frs] eqn:Hfrs; [by apply IH|].
  destruct (page_num_of py_int (fst it)) as [p|e] eqn:Hkey; [|by apply IH].
  apply NoDup_cons. split; [|by apply IH].
  intros Hin. apply elem_of_pages_with_fragments in Hin as (it2 & Hit2 & Hne2 & Hkey2).
  apply (Hdisj (p, 0)).
  - apply grouping_first_row; [exact Hkey | by rewrite Hfrs].
  - apply list_elem_of_fmap.
    pose proof (grouping_first_row _ _ _ Hkey2 Hne2) as Hfirst.
    apply list_elem_of_fmap in Hfirst as (e & He & Hin).
    exists e. split; [exact He|]. apply elem_of_concat.
    exists (grouping_rows py_int it2). split; [|exact Hin].
    apply list_elem_of_fmap. by exists it2.
Qed.

Lemma named_chapter_row names pages_data f k :
  f ∈ corpus_fragments pages_data ->
  k ∈ fst <$> names -> py_int k = Some (chapter f) ->
  chapter f ∈ chapter_id <$> chapter_rows_of py_int names (_calculate_verse_counts pages_data).
Proof.
  intros Hf Hk Hint. apply list_elem_of_fmap in Hk as ([k' name] & -> & Hin).
  simpl in Hint.
  assert (Hcount : (get_count (_calculate_verse_counts pages_data) (chapter f) =? 0) = false).
  { apply Z.eqb_neq. rewrite calculate_verse_counts_tally.
    assert (Hin' : f ∈ filter (fun g => chapter g = chapter f) (corpus_fragments pages_data))
      by (apply list_elem_of_filter; by split).
    destruct (filter _ _); [by apply elem_of_nil in Hin'|]. simpl. lia. }
  apply list_elem_of_fmap.
  exists {| chapter_id := chapter f; chapter_name := name;
            total_verses := get_count (_calculate_verse_counts pages_data) (chapter f) |}.
  split; [reflexivity|].
  unfold chapter_rows_of. apply list_elem_of_omap. exists (k', name).
  split; [exact Hin|]. simpl. by rewrite Hint, Hcount.
Qed.

Lemma verse_step_range p st f s st' s' :
  verse_step p st f s = (Returns st', s') ->
  cache_int64 (verse_cache st) ->
  cache_int64 (verse_cache st') /\ int64 (chapter f) /\ int64 (verse f).
Proof.
  unfold verse_step, cbind, ret, raise. intros H Hcache.
  destruct (verse_cache st !! (chapter f, verse f)) as [i|] eqn:Hhit.
  - rewrite Hhit in H.
    destruct (insert_page_verse p i (order st) _ s) as [[[]|e] s2];
      inversion H; subst; clear H. simpl.
    split; [exact Hcache|]. apply (Hcache _ _ Hhit).
  - unfold bind_int in H.
    destruct (decide (Forall int64 [chapter f; verse f])) as [Hbind|Hbind]; [|discriminate].
    destruct (insert_verse (chapter f) (verse f) (text f) s) as [[rowid|e] s1];
      [|discriminate].
    rewrite lookup_insert_eq in H.
    destruct (insert_page_verse p rowid (order st) _ s1) as [[[]|e] s2];
      inversion H; subst; clear H. simpl.
    apply Forall_cons in Hbind as [Hcr Hbind]. apply Forall_cons in Hbind as [Hvr _].
    split; [|by split].
    intros k i. rewrite lookup_insert. case_decide; [|by apply Hcache].
    subst k. by intros _.
Qed.

Lemma fragments_range p frs : forall st s st' s',
  cfor (verse_step p) frs st s = (Returns st', s') ->
  cache_int64 (verse_cache st) ->
  cache_int64 (verse_cache st') /\
  forall f, f ∈ frs -> int64 (chapter f) /\ int64 (verse f).
Proof.
  induction frs as [|f frs IH]; intros st s st' s' H Hcache.
  - simpl in H. inversion H; subst. split; [exact Hcache|].
    intros f Hf. by apply elem_of_nil in Hf.
  - rewrite cfor_cons in H.
    destruct (verse_step p st f s) as [[st1|e] s1] eqn:Hstep; [|discriminate].
    apply verse_step_range in Hstep as (Hcache1 & Hf); [|exact Hcache].
    apply IH in H as [Hcache' Hrest]; [|exact Hcache1].
    split; [exact Hcache'|].
    intros g Hg. apply elem_of_cons in Hg as [->|Hg]; [exact Hf|by apply Hrest].
Qed.

Lemma page_step_range cache item s cache' s' :
  page_step py_int cache item s = (Returns cache', s') ->
  cache_int64 cache ->
  cache_int64 cache' /\
  (exists p, page_num_of py_int (fst item) = Returns p /\ int64 p) /\
  forall f, f ∈ snd item -> int64 (chapter f) /\ int64 (verse f).
Proof.
  unfold page_step, cbind, lift, ret. intros H Hcache.
  destruct (page_num_of py_int (fst item)) as [p|e]; [|discriminate].
  unfold bind_int in H.
  destruct (decide (Forall int64 [p])) as [Hbind|Hbind]; [|discriminate].
  destruct (insert_page_or_ignore p s) as [[[]|e] s1]; [|discriminate].
  destruct (cfor (verse_step p) (snd item) _ s1) as [[st|e] s2] eqn:Hloop;
    inversion H; subst; clear H.
  apply fragments_range in Hloop as [Hcache' Hfr]; [|exact Hcache].
  split; [exact Hcache'|]. split; [|exact Hfr].
  exists p. split; [reflexivity|]. by apply Forall_cons in Hbind as [? _].
Qed.

Lemma groupings_range items : forall cache s cache' s',
  cfor (page_step py_int) items cache s = (Returns cache', s') ->
  cache_int64 cache ->
  forall it, it ∈ items ->
    (exists p, page_num_of py_int (fst it) = Returns p /\ int64 p) /\
    forall f, f ∈ snd it -> int64 (chapter f) /\ int64 (verse f).
Proof.
  induction items as [|it0 items IH]; intros cache s cache' s' H Hcache it Hit;
    [by apply elem_of_nil in Hit|].
  rewrite cfor_cons in H.
  destruct (page_step py_int cache it0 s) as [[cache1|e] s1] eqn:Hstep; [|discriminate].
  apply page_step_range in Hstep as (Hcache1 & Hp & Hfr); [|exact Hcache].
  apply elem_of_cons in Hit as [->|Hit]; [by split|].
  by apply (IH _ _ _ _ H Hcache1).
Qed.

Lemma loaded_loadable quran_data chapters_names pages_data :
  getitem quran_data "pages" = Returns pages_data ->
  loaded (load_data py_int empty_store (Document quran_data) (Document chapters_names)) ->
  loadable py_int chapters_names pages_data.
Proof.
  intros Hget Hloaded.
  pose proof (run_keeps_constraints py_int empty_store (Document quran_data)
                (Document chapters_names) empty_store_ok_lemma) as Hok.
  destruct (loaded_inv _ _ _ _ Hloaded)
    as (qd & names & pd & s1 & s2 & Hq & Hn & _ & Hpd & H1 & H2 & Hrun).
  inversion Hq; subst qd. inversion Hn; subst names.
  rewrite Hget in Hpd. inversion Hpd; subst pd.
  unfold store_after in Hok. rewrite Hrun in Hok. simpl in Hok.
  destruct (insert_chapters_returned _ _ _ _ H1) as (Hparse & Hs1 & Hnd & _).
  destruct (pass2_grows _ _ _ _ H2)
    as (cache' & Hc & _ & (new & Hpv & Hnew) & _ & Hkeys & _ & _ & Hsound & _).
  rewrite Hs1 in Hpv. simpl in Hpv.
  assert (Hrange : forall it, it ∈ groupings pages_data ->
            (exists p, page_num_of py_int (fst it) = Returns p /\ int64 p) /\
            forall f, f ∈ snd it -> int64 (chapter f) /\ int64 (verse f)).
  { pose proof H2 as H2'.
    unfold _insert_pages_and_verses, cbind, ret in H2'. rewrite cfor_concat in H2'.
    destruct (cfor (page_step py_int) (concat pages_data) ∅ s1) as [[c|e] s3] eqn:Hloop;
      [|discriminate].
    apply (groupings_range _ _ _ _ _ Hloop).
    intros k i Hk. by rewrite lookup_empty in Hk. }
  pose proof (page_verses_pk _ Hok) as Hpk.
  pose proof (page_verses_unique _ Hok) as Huq.
  rewrite Hpv in Hpk, Huq.
  rewrite (written_orders _ _ _ Hnew) in Huq.
  apply (written_page_verses _ _ _ Hnew) in Hpk.
  split.
  - exact Hparse.
  - exact Hnd.
  - unfold _insert_pages_and_verses, cbind, ret in H2. rewrite cfor_concat in H2.
    destruct (cfor (page_step py_int) (concat pages_data) ∅ s1) as [[c|e] s3] eqn:Hloop;
      [|discriminate].
    by apply (groupings_parse _ _ _ _ _ Hloop).
  - intros f Hf.
    destruct (loaded_chapters_named py_int _ _ _ _ f Hget Hloaded Hf) as [Hin|?]; [|done].
    simpl in Hin. by apply elem_of_nil in Hin.
  - intros f Hf.
    destruct (Hkeys (fragment_key f)) as [i Hi];
      [apply list_elem_of_fmap; by exists f|].
    destruct (Hsound (cache_sound_empty _) _ _ Hi) as (v & Hv & Hkey & _).
    pose proof (verses_check _ Hok v Hv) as Hpos.
    unfold verse_key, fragment_key in Hkey. injection Hkey as _ Hvn. by rewrite <- Hvn.
  - intros it Hit.
    pose proof (NoDup_concat_part _ _ _ it Hpk Hit) as Hpart.
    unfold grouping_rows in Hpart.
    destruct (page_num_of py_int (fst it)) as [p|e] eqn:Hkey.
    + rewrite page_rows_verses in Hpart. by apply NoDup_fmap_1 in Hpart.
    + unfold _insert_pages_and_verses, cbind, ret in H2. rewrite cfor_concat in H2.
      destruct (cfor (page_step py_int) (concat pages_data) ∅ s1) as [[c|e'] s3] eqn:Hloop;
        [|discriminate].
      destruct (groupings_parse _ _ _ _ _ Hloop it Hit) as [p Hp]. congruence.
  - by apply orders_distinct_pages.
  - intros it p Hit Hkey. destruct (Hrange it Hit) as [(p' & Hp' & Hpr) _]. congruence.
  - intros f Hf. apply elem_of_concat in Hf as (frs & Hfrs & Hf).
    apply list_elem_of_fmap in Hfrs as (it & -> & Hit).
    by apply (Hrange it Hit).
Qed.

(** A chapter that is to be inserted has a fragment in the corpus. *)
Lemma chapter_row_fragment names pages_data row :
  row ∈ chapter_rows_of py_int names (_calculate_verse_counts pages_data) ->
  exists f, f ∈ corpus_fragments pages_data /\ chapter f = chapter_id row.
Proof.
  intros Hrow. apply list_elem_of_omap in Hrow as ([k name] & _ & Hsome). simpl in Hsome.
  destruct (py_int k) as [cid|]; [|discriminate].
  destruct (get_count _ cid =? 0) eqn:Hzero; [discriminate|].
  inversion Hsome; subst. simpl.
  apply Z.eqb_neq in Hzero. rewrite calculate_verse_counts_tally in Hzero.
  destruct (filter (fun f => chapter f = cid) (corpus_fragments pages_data))
    as [|f frs] eqn:Hfilter; [done|].
  assert (Hf : f ∈ filter (fun f => chapter f = cid) (corpus_fragments pages_data))
    by (rewrite Hfilter; left).
  apply list_elem_of_filter in Hf as [Hch Hf]. by exists f.
Qed.

Lemma loadable_loaded quran_data chapters_names pages_data :
  getitem quran_data "pages" = Returns pages_data ->
  chapters_names <> [] ->
  loadable py_int chapters_names pages_data ->
  loaded (load_data py_int empty_store (Document quran_data) (Document chapters_names)).
Proof.
  intros Hget Hne [Hparse Hnd Hkeys Hnamed Hpos Hpk Hpn Hpr Hfr].
  assert (Hcr : forall row,
            row ∈ chapter_rows_of py_int chapters_names (_calculate_verse_counts pages_data) ->
            int64 (chapter_id row)).
  { intros row Hrow. destruct (chapter_row_fragment _ _ _ Hrow) as (f & Hf & <-).
    by apply Hfr. }
  pose proof (insert_chapters_returns chapters_names pages_data empty_store Hparse Hcr Hnd)
    as H1.
  set (s1 := with_chapters empty_store
               (chapter_rows_of py_int chapters_names (_calculate_verse_counts pages_data)))
    in *.
  assert (Hin : forall it f, it ∈ groupings pages_data -> f ∈ snd it ->
            f ∈ corpus_fragments pages_data).
  { intros it f Hit Hf. apply elem_of_concat. exists (snd it). split; [|exact Hf].
    apply list_elem_of_fmap. by exists it. }
  destruct (groupings_return (groupings pages_data) [] ∅ s1) as (cache' & s2 & Hloop).
  - intros it Hit. destruct (Hkeys it Hit) as [p Hp]. exists p. split; [exact Hp|].
    by apply (Hpr it).
  - intros it f Hit Hf. apply Hfr. by apply (Hin it).
  - intros it f Hit Hf. specialize (Hin it f Hit Hf).
    split; [|by apply Hpos].
    destruct (Hnamed f Hin) as (k & Hk & Hint).
    by apply (named_chapter_row _ _ _ k).
  - exact Hpk.
  - exact Hpn.
  - intros r Hr. by apply elem_of_nil in Hr.
  - split; [|done]. intros k. rewrite lookup_empty.
    split; [by intros [? ?] | intros Hk; by apply elem_of_nil in Hk].
  - apply cache_sound_empty.
  - apply (load_data_loaded _ _ _ _ s1 s2 Hget Hne H1).
    unfold _insert_pages_and_verses, cbind, ret. rewrite cfor_concat.
    unfold groupings in Hloop. by rewrite Hloop.
Qed.


(** *** The tables [verses] and [pages] after a run on a new store *)

Lemma verse_step_verses p st f s st' s' :
  verse_step p st f s = (Returns st', s') ->
  numbered (verse_cache st) s ->
  verses s' = store_verse (verses s) f.
Proof.
  unfold verse_step, cbind, ret, raise, store_verse. intros H Hnum.
  pose proof Hnum as (Hexact & _).
  destruct (verse_cache st !! (chapter f, verse f)) as [i|] eqn:Hcache.
  - rewrite Hcache in H.
    destruct (insert_page_verse p i (order st) _ s) as [[[]|e] s2] eqn:Hlink;
      inversion H; subst; clear H.
    apply insert_page_verse_verses in Hlink as [Hv _].
    rewrite decide_True by (apply Hexact; by exists i). exact Hv.
  - unfold bind_int in H.
    destruct (decide (Forall int64 [chapter f; verse f])) as [Hbind|Hbind]; [|discriminate].
    destruct (insert_verse (chapter f) (verse f) (text f) s) as [[rowid|e] s1] eqn:Hins;
      [|discriminate].
    rewrite lookup_insert_eq in H.
    destruct (insert_page_verse p rowid (order st) _ s1) as [[[]|e] s2] eqn:Hlink;
      inversion H; subst; clear H.
    apply insert_page_verse_verses in Hlink as [Hv _].
    apply insert_verse_inv in Hins
      as [[? _]|(_ & _ & _ & Hnew & _ & Hv1 & _ & _)]; [discriminate|].
    rewrite decide_False by exact Hnew.
    by rewrite Hv, Hv1, (numbered_next _ _ Hnum).
Qed.

Lemma fragments_verses p frs : forall st s st' s',
  cfor (verse_step p) frs st s = (Returns st', s') ->
  numbered (verse_cache st) s ->
  verses s' = foldl store_verse (verses s) frs.
Proof.
  induction frs as [|f frs IH]; intros st s st' s' H Hnum; simpl in *.
  - by inversion H; subst.
  - unfold cbind in H.
    destruct (verse_step p st f s) as [[st1|e] s1] eqn:Hstep; [|discriminate].
    pose proof (verse_step_numbered _ _ _ _ _ _ Hstep Hnum) as [_ Hnum1].
    rewrite <- (verse_step_verses _ _ _ _ _ _ Hstep Hnum). by apply (IH st1 s1 st').
Qed.

Lemma page_step_tables cache item s cache' s' :
  page_step py_int cache item s = (Returns cache', s') ->
  numbered cache s ->
  verses s' = foldl store_verse (verses s) (snd item) /\
  pages s' = foldl add_page (pages s) (page_numbers py_int [item]).
Proof.
  unfold page_step, cbind, lift, ret, page_numbers. simpl. intros H Hnum.
  destruct (page_num_of py_int (fst item)) as [p|e]; [|discriminate].
  unfold bind_int in H.
  destruct (decide (Forall int64 [p])) as [Hbind|Hbind]; [|discriminate].
  destruct (insert_page_or_ignore_inv p s) as (s1 & Hins & _ & Hv & Hq & _ & Hold & Hnew).
  rewrite Hins in H.
  destruct (cfor (verse_step p) (snd item) _ s1) as [[st|e] s2] eqn:Hloop;
    inversion H; subst; clear H.
  pose proof (fragments_grow _ _ _ _ _ _ Hloop) as [_ Hpages].
  apply fragments_verses in Hloop; [|by apply (numbered_tables _ s)].
  rewrite Hloop, Hv, Hpages. split; [reflexivity|].
  simpl. unfold add_page. destruct (decide (p ∈ pages s)) as [Hin|Hout].
  - by rewrite (Hold Hin).
  - by apply Hnew.
Qed.

Lemma page_numbers_app items1 items2 :
  page_numbers py_int (items1 ++ items2)
  = page_numbers py_int items1 ++ page_numbers py_int items2.
Proof. unfold page_numbers. apply omap_app. Qed.

Lemma groupings_tables items : forall cache s cache' s',
  cfor (page_step py_int) items cache s = (Returns cache', s') ->
  numbered cache s ->
  verses s' = foldl store_verse (verses s) (concat (snd <$> items)) /\
  pages s' = foldl add_page (pages s) (page_numbers py_int items).
Proof.
  induction items as [|item items IH]; intros cache s cache' s' H Hnum.
  - by inversion H; subst.
  - simpl in H. unfold cbind in H.
    destruct (page_step py_int cache item s) as [[cache1|e] s1] eqn:Hstep; [|discriminate].
    pose proof (page_step_numbered _ _ _ _ _ Hstep Hnum) as [_ Hnum1].
    apply page_step_tables in Hstep as [Hv Hp]; [|exact Hnum].
    rewrite fmap_cons, concat_cons, foldl_app.
    change (item :: items) with ([item] ++ items).
    rewrite page_numbers_app, foldl_app, <- Hv, <- Hp.
    by apply (IH cache1 s1 cache').
Qed.

Lemma loaded_tables quran_data chapters_names pages_data :
  getitem quran_data "pages" = Returns pages_data ->
  loaded (load_data py_int empty_store (Document quran_data) (Document chapters_names)) ->
  verses (store_after (load_data py_int empty_store (Document quran_data)
                         (Document chapters_names)))
    = foldl store_verse [] (corpus_fragments pages_data) /\
  pages (store_after (load_data py_int empty_store (Document quran_data)
                        (Document chapters_names)))
    = foldl add_page [] (page_numbers py_int (groupings pages_data)).
Proof.
  intros Hpages Hloaded.
  destruct (loaded_inv _ _ _ _ Hloaded)
    as (qd & names & pd & s1 & s2 & Hq & Hn & _ & Hpd & H1 & H2 & Hrun).
  inversion Hq; subst qd. rewrite Hpages in Hpd. inversion Hpd; subst pd.
  unfold store_after. rewrite Hrun. simpl.
  destruct (insert_chapters_inv _ _ _ _ _ _ H1) as (Hv & Hseq & Hp & _).
  unfold _insert_pages_and_verses, cbind, ret in H2. rewrite cfor_concat in H2.
  destruct (cfor (page_step py_int) (concat pages_data) ∅ s1) as [[cache'|e] s3] eqn:Hloop;
    inversion H2; subst; clear H2.
  apply groupings_tables in Hloop as [Hvs Hps].
  - rewrite Hv in Hvs. rewrite Hp in Hps. by split.
  - unfold numbered. rewrite Hv, Hseq. simpl. split; [|done].
    intros k. rewrite lookup_empty. split; [by intros [? ?] | intros Hk; by apply elem_of_nil in Hk].
Qed.

Lemma store_verse_keeps rows f v : v ∈ rows -> v ∈ store_verse rows f.
Proof.
  intros Hv. unfold store_verse. case_decide; [exact Hv|]. apply elem_of_app. by left.
Qed.

Lemma list_find_cons {A : Type} (P : A -> Prop) `{forall x, Decision (P x)} (x : A) l :
  list_find P (x :: l)
  = if decide (P x) then Some (0%nat, x) else prod_map Datatypes.S id <$> list_find P l.
Proof. reflexivity. Qed.

(** A row that the fold adds has the text of the first fragment with its
    key. *)
Lemma store_verse_first frs : forall rows v,
  v ∈ foldl store_verse rows frs ->
  v ∈ rows \/
  ((verse_key v ∉ verse_key <$> rows) /\
   exists i f, list_find (fun f => fragment_key f = verse_key v) frs = Some (i, f) /\
     verse_text v = text f).
Proof.
  induction frs as [|f frs IH]; intros rows v Hv; [by left|].
  simpl in Hv. apply IH in Hv as [Hv|(Hnew & i & g & Hfind & Htext)].
  - unfold store_verse in Hv. destruct (decide (fragment_key f ∈ verse_key <$> rows)) as [Hin|Hout].
    + by left.
    + apply elem_of_app in Hv as [Hv|Hv]; [by left|right].
      apply list_elem_of_singleton in Hv as ->.
      split; [exact Hout|]. exists 0%nat, f. split; [|reflexivity].
      rewrite list_find_cons. by rewrite decide_True.
  - right.
    assert (Hrows : verse_key v ∉ verse_key <$> rows).
    { intros Hin. apply Hnew. apply list_elem_of_fmap in Hin as (v0 & Hk & Hv0).
      apply list_elem_of_fmap. exists v0. split; [exact Hk|by apply store_verse_keeps]. }
    split; [exact Hrows|].
    exists (Datatypes.S i), g. split; [|exact Htext].
    rewrite list_find_cons, decide_False.
    + by rewrite Hfind.
    + intros Hkey. apply Hnew. unfold store_verse.
      destruct (decide (fragment_key f ∈ verse_key <$> rows)) as [Hin|Hout].
      * by rewrite <- Hkey.
      * rewrite fmap_app. apply elem_of_app. right. rewrite <- Hkey. left.
Qed.

(** X20. The table [verses] after a run that loaded into a new store. It is
    the fold of [store_verse] over the fragments of the corpus in document
    order: a fragment whose verse has a row adds nothing, another adds a row
    with the next id and its own text. So the text stored for a verse is the
    text of the first fragment of that verse in the corpus; the text of a
    later fragment of the same verse is not stored. *)
Theorem verses_table quran_data chapters_names pages_data :
  getitem quran_data "pages" = Returns pages_data ->
  loaded (load_data py_int empty_store (Document quran_data) (Document chapters_names)) ->
  verses (store_after (load_data py_int empty_store (Document quran_data)
                         (Document chapters_names)))
    = foldl store_verse [] (corpus_fragments pages_data) /\
  forall v,
    v ∈ verses (store_after (load_data py_int empty_store (Document quran_data)
                               (Document chapters_names))) ->
    exists i f,
      list_find (fun f => fragment_key f = verse_key v) (corpus_fragments pages_data)
        = Some (i, f) /\
      verse_text v = text f.
Proof.
  intros Hpages Hloaded.
  destruct (loaded_tables _ _ _ Hpages Hloaded) as [Hv _].
  split; [exact Hv|].
  intros v Hin. rewrite Hv in Hin.
  apply store_verse_first in Hin as [Hin|(_ & Hex)]; [by apply elem_of_nil in Hin|exact Hex].
Qed.




Lemma add_page_elem seen l p :
  p ∈ foldl add_page seen l <-> p ∈ seen \/ p ∈ l.
Proof.
  revert seen. induction l as [|q l IH]; intros seen; simpl.
  - split; [by left|intros [?|H]; [done|by apply elem_of_nil in H]].
  - rewrite IH. unfold add_page. rewrite elem_of_cons.
    destruct (decide (q ∈ seen)) as [Hin|Hout].
    + split; [intros [?|?]; auto|intros [?|[->|?]]; auto].
    + rewrite elem_of_app, list_elem_of_singleton.
      split; [intros [[?|?]|?]; auto|intros [?|[?|?]]; auto].
Qed.

Lemma add_page_NoDup l : forall seen, NoDup seen -> NoDup (foldl add_page seen l).
Proof.
  induction l as [|q l IH]; intros seen Hnd; [exact Hnd|].
  simpl. apply IH. unfold add_page. case_decide; [exact Hnd|]. by apply NoDup_snoc.
Qed.

(** X21. The table [pages] after a run that loaded into a new store, as a
    set of rows (the table has no column besides its key): no page number
    has two rows; a number has a row exactly when it is the page number of a
    grouping of the corpus, whether or not the grouping has fragments; and
    every row is within the range of an SQLite INTEGER. *)
Theorem pages_table quran_data chapters_names pages_data :
  getitem quran_data "pages" = Returns pages_data ->
  loaded (load_data py_int empty_store (Document quran_data) (Document chapters_names)) ->
  NoDup (pages (store_after (load_data py_int empty_store (Document quran_data)
                               (Document chapters_names)))) /\
  (forall p,
     p ∈ pages (store_after (load_data py_int empty_store (Document quran_data)
                               (Document chapters_names))) <->
     exists it, it ∈ groupings pages_data /\ page_num_of py_int (fst it) = Returns p) /\
  (forall p,
     p ∈ pages (store_after (load_data py_int empty_store (Document quran_data)
                               (Document chapters_names))) ->
     int64 p).
Proof.
  intros Hpages Hloaded.
  destruct (loaded_tables _ _ _ Hpages Hloaded) as [_ Hp].
  assert (Hmem : forall p,
            p ∈ foldl add_page [] (page_numbers py_int (groupings pages_data)) <->
            exists it, it ∈ groupings pages_data /\ page_num_of py_int (fst it) = Returns p).
  { intros p. rewrite add_page_elem. unfold page_numbers. rewrite list_elem_of_omap.
    split.
    - intros [Hin|(it & Hit & Hsome)]; [by apply elem_of_nil in Hin|].
      exists it. split; [exact Hit|].
      destruct (page_num_of py_int (fst it)); [by inversion Hsome|discriminate].
    - intros (it & Hit & Hkey). right. exists it. split; [exact Hit|]. by rewrite Hkey. }
  rewrite Hp. split; [apply add_page_NoDup; constructor|]. split; [exact Hmem|].
  intros p Hin. apply Hmem in Hin as (it & Hit & Hkey).
  by apply (pages_in_range _ _ _ (loaded_loadable _ _ _ Hpages Hloaded) it).
Qed.

End Loader.

(** *** Concrete runs *)

Lemma empty_store_ok : store_ok empty_store.
Proof. exact empty_store_ok_lemma. Qed.

Lemma load_data_keeps_constraints_witness :
  store_ok (store_after (load_data int_of_digits empty_store (Document scenario_doc)
                           (Document scenario_names))).
Proof.
  apply (load_data_keeps_constraints int_of_digits empty_store (Document scenario_doc)
           (Document scenario_names)).
  exact empty_store_ok.
Defined.

Lemma order_check_finds_nothing_witness :
  snd (_verify_data_integrity
         (store_after (load_data int_of_digits empty_store (Document repeated_verse_doc)
                         (Document scenario_names)))) = [].
Proof.
  apply (order_check_finds_nothing int_of_digits empty_store (Document repeated_verse_doc)
           (Document scenario_names)).
  exact empty_store_ok.
Defined.

Lemma verification_after_load_witness :
  _verify_data_integrity
    (store_after (load_data int_of_digits empty_store (Document scenario_doc)
                    (Document scenario_names))) = ([], [])
  <-> NoDup (fragment_key <$> corpus_fragments scenario_pages).
Proof.
  apply (verification_after_load int_of_digits scenario_doc scenario_names scenario_pages);
    [reflexivity | split; reflexivity].
Defined.


(** In the scenario, chapter 115 has a name and no fragment: it gets no row. *)
Example chapter_without_fragments_skipped :
  chapter_rows_of int_of_digits scenario_names (_calculate_verse_counts scenario_pages)
  = [{| chapter_id := 1; chapter_name := "first"; total_verses := 1 |};
     {| chapter_id := 2; chapter_name := "second"; total_verses := 2 |}].
Proof. reflexivity. Qed.

Lemma load_again_refused_witness :
  load_data int_of_digits
    (store_after (load_data int_of_digits empty_store (Document scenario_doc)
                    (Document scenario_names)))
    (Document scenario_doc) (Document scenario_names)
  = (Raises IntegrityError,
     connect (store_after (load_data int_of_digits empty_store (Document scenario_doc)
                             (Document scenario_names)))).
Proof.
  apply (load_again_refused int_of_digits empty_store scenario_doc scenario_names
           scenario_pages); [reflexivity | split; reflexivity | discriminate].
Defined.

Lemma chapter_totals_and_rows_witness :
  total_verses {| chapter_id := 1; chapter_name := "first"; total_verses := 2 |}
    = Z.of_nat (length (filter (fun f => chapter f = 1)
                               (corpus_fragments repeated_verse_pages))) /\
  actual_verses (store_after (load_data int_of_digits empty_store
                                (Document repeated_verse_doc) (Document scenario_names))) 1
    = Z.of_nat (length (filter (fun k => fst k = 1)
                               (remove_dups (fragment_key <$>
                                               corpus_fragments repeated_verse_pages)))) /\
  (NoDup (fragment_key <$> corpus_fragments repeated_verse_pages) ->
     total_verses {| chapter_id := 1; chapter_name := "first"; total_verses := 2 |}
     = actual_verses (store_after (load_data int_of_digits empty_store
                                     (Document repeated_verse_doc)
                                     (Document scenario_names))) 1).
Proof.
  apply (chapter_totals_and_rows int_of_digits empty_store repeated_verse_doc
           scenario_names repeated_verse_pages eq_refl (conj eq_refl eq_refl) eq_refl
           {| chapter_id := 1; chapter_name := "first"; total_verses := 2 |}).
  - left.
  - intros H. by apply elem_of_nil in H.
Defined.

Lemma verses_in_reading_order_witness :
  verse_key <$> verses (store_after (load_data int_of_digits empty_store
                                        (Document repeated_verse_doc)
                                        (Document scenario_names)))
    = first_occurrences (fragment_key <$> corpus_fragments repeated_verse_pages) /\
  verse_id <$> verses (store_after (load_data int_of_digits empty_store
                                       (Document repeated_verse_doc)
                                       (Document scenario_names)))
    = seqZ 1 (Z.of_nat (length (first_occurrences
                                  (fragment_key <$> corpus_fragments repeated_verse_pages)))).
Proof.
  apply (verses_in_reading_order int_of_digits repeated_verse_doc scenario_names
           repeated_verse_pages); [reflexivity | split; reflexivity].
Defined.


Lemma verses_table_witness :
  verses (store_after (load_data int_of_digits empty_store (Document repeated_verse_doc)
                         (Document scenario_names)))
    = foldl store_verse [] (corpus_fragments repeated_verse_pages) /\
  forall v,
    v ∈ verses (store_after (load_data int_of_digits empty_store
                               (Document repeated_verse_doc) (Document scenario_names))) ->
    exists i f,
      list_find (fun f => fragment_key f = verse_key v) (corpus_fragments repeated_verse_pages)
        = Some (i, f) /\
      verse_text v = text f.
Proof.
  apply (verses_table int_of_digits repeated_verse_doc scenario_names repeated_verse_pages);
    [reflexivity | split; reflexivity].
Defined.

Lemma pages_table_witness :
  NoDup (pages (store_after (load_data int_of_digits empty_store
                               (Document repeated_empty_page_doc)
                               (Document scenario_names)))) /\
  (forall p,
     p ∈ pages (store_after (load_data int_of_digits empty_store
                               (Document repeated_empty_page_doc)
                               (Document scenario_names))) <->
     exists it, it ∈ groupings [[("page_1", [frag 1 1 "text A"])]; [("page_1", [])]] /\
       page_num_of int_of_digits (fst it) = Returns p) /\
  (forall p,
     p ∈ pages (store_after (load_data int_of_digits empty_store
                               (Document repeated_empty_page_doc)
                               (Document scenario_names))) ->
     int64 p).
Proof.
  apply (pages_table int_of_digits repeated_empty_page_doc scenario_names
           [[("page_1", [frag 1 1 "text A"])]; [("page_1", [])]]);
    [reflexivity | split; reflexivity].
Defined.


(** The run of the witness: both pages reference the one row of the verse. *)
Example recurring_verse_loaded :
  loaded (load_data int_of_digits empty_store (Document repeated_verse_doc)
            (Document scenario_names)) /\
  verses (store_after (load_data int_of_digits empty_store (Document repeated_verse_doc)
                         (Document scenario_names)))
  = [{| verse_id := 1; v_chapter_id := 1; verse_number := 1; verse_text := "text A" |}] /\
  page_verse <$> page_verses (store_after (load_data int_of_digits empty_store
                                              (Document repeated_verse_doc)
                                              (Document scenario_names)))
  = [(1, 1); (2, 1)].
Proof. repeat split. Qed.


(** A verse number one past the range of an SQLite INTEGER: the corpus meets
    every other condition, and binding the number raises. *)
Example verse_number_out_of_range :
  load_data int_of_digits empty_store
    (Document [("pages", [[("page_1", [frag 1 (2 ^ 63) "text A"])]])])
    (Document scenario_names)
  = (Raises OverflowError, connect empty_store).
Proof. reflexivity. Qed.

(** The same for a chapter number, in chapter insertion. *)
Example chapter_out_of_range :
  _insert_chapters int_of_digits [("9223372036854775808", "beyond")]
    (_calculate_verse_counts [[("page_1", [frag (2 ^ 63) 1 "text A"])]]) empty_store
  = (Raises OverflowError, empty_store).
Proof. reflexivity. Qed.

End BuilderMore.

(** ** The downloader, for every range and batch size *)

Module DownloaderMore.

Import Downloader DownloaderFacts.

Section Fetch.

Context {payload : Type}.
Implicit Types (w : remote payload) (self : QuranDownloader).

(** The batches tile the range, also when the range is empty. *)
Lemma range3_tiles_any (s stop bs : Z) :
  0 < bs ->
  exists starts, range3 s stop bs = Returns starts /\
    concat ((fun b => range2 b (Z.min (b + bs) stop)) <$> starts) = range2 s stop.
Proof.
  intros Hbs. destruct (decide (s <= stop)) as [Hle|Hgt]; [by apply range3_tiles|].
  unfold range3.
  destruct (bs =? 0) eqn:E0; [apply Z.eqb_eq in E0; lia|].
  destruct (0 <? bs) eqn:Epos; [|apply Z.ltb_ge in Epos; lia].
  eexists. split; [reflexivity|].
  assert (Hn : (stop - s + bs - 1) / bs <= 0).
  { apply Z.lt_succ_r. apply Z.div_lt_upper_bound; lia. }
  rewrite seqZ_nil by exact Hn. unfold range2. rewrite seqZ_nil by lia. reflexivity.
Qed.

(** With a negative batch size every batch is empty. *)
Lemma negative_batches_empty (bs stop : Z) (starts : list Z) :
  bs < 0 -> concat ((fun b => range2 b (Z.min (b + bs) stop)) <$> starts) = [].
Proof.
  intros Hbs. induction starts as [|b starts IH]; [reflexivity|].
  rewrite fmap_cons, concat_cons, IH. unfold range2. rewrite seqZ_nil by lia. reflexivity.
Qed.

(** X9. With a positive batch size and a combined file that can be written,
    [download_all] writes, for any [start_page] and [end_page], the page
    objects of the pages of the range whose fetch succeeded, in ascending
    order (none when the range is empty). The batch size has no part in the
    result: any two positive batch sizes give the same combined list. *)
Theorem download_all_any_range self w :
  0 < batch_size self -> save_complete w = true ->
  download_all self w
    = Returns (omap (survivor w) (range2 (start_page self) (end_page self + 1))) /\
  forall bs, 0 < bs ->
    download_all {| start_page := start_page self; end_page := end_page self;
                    batch_size := bs |} w
    = download_all self w.
Proof.
  assert (Hany : forall self', 0 < batch_size self' -> save_complete w = true ->
            download_all self' w
            = Returns (omap (survivor w)
                         (range2 (start_page self') (end_page self' + 1)))).
  { intros self' Hbs Hsave. unfold download_all.
    destruct (range3_tiles_any (start_page self') (end_page self' + 1) (batch_size self') Hbs)
      as (starts & -> & Htile).
    simpl. rewrite batches_survivors. simpl. by rewrite Htile, Hsave. }
  intros Hbs Hsave. split; [by apply Hany|].
  intros bs Hbs'. rewrite (Hany self Hbs Hsave). by rewrite Hany.
Qed.


End Fetch.

(** *** Concrete runs *)

Lemma download_all_any_range_witness :
  download_all {| start_page := 3; end_page := 5; batch_size := 2 |} page2_missing
    = Returns (omap (survivor page2_missing) (range2 3 (5 + 1))) /\
  forall bs, 0 < bs ->
    download_all {| start_page := 3; end_page := 5; batch_size := bs |} page2_missing
    = download_all {| start_page := 3; end_page := 5; batch_size := 2 |} page2_missing.
Proof.
  apply (download_all_any_range {| start_page := 3; end_page := 5; batch_size := 2 |}
           page2_missing); [simpl; lia | reflexivity].
Defined.

End DownloaderMore.

(** ** From the downloader and the extractor to the loader *)

Module PipelineFacts.

Import Downloader Builder Artifacts Names DownloaderFacts BuilderFacts.

(** *** Keys written and read back *)

Lemma split_digits (d : Decimal.uint) :
  split_underscore (NilEmpty.string_of_uint d) = [NilEmpty.string_of_uint d].
Proof. induction d; simpl; [reflexivity|by rewrite IHd..]. Qed.

Lemma split_py_str (n : Z) : split_underscore (py_str n) = [py_str n].
Proof.
  unfold py_str.
  assert (Hu : forall d, split_underscore (NilZero.string_of_uint d)
                         = [NilZero.string_of_uint d]).
  { intros d. destruct d; try apply (split_digits (_ _)). reflexivity. }
  destruct (Z.to_int n) as [d|d]; simpl; [apply Hu | by rewrite Hu].
Qed.

Lemma split_page_key (n : Z) : split_underscore (page_key n) = ["page"; py_str n].
Proof.
  unfold page_key. pose proof (split_py_str n) as H.
  revert H. generalize (py_str n). intros s H.
  change (String.append "page_" s) with
    (String "p" (String "a" (String "g" (String "e" (String "_" s))))).
  cbn [split_underscore Ascii.eqb Bool.eqb]. by rewrite H.
Qed.

Lemma int_of_decimal_str (n : Z) : int_of_decimal (py_str n) = Some n.
Proof.
  unfold int_of_decimal, py_str. rewrite NilZero.isi.
  - simpl. by rewrite DecimalZ.of_to.
  - destruct n; simpl; [discriminate| |discriminate].
    intros H. injection H. apply Unsigned.to_uint_nonnil.
  - destruct n; simpl; [discriminate|discriminate|].
    intros H. injection H. apply Unsigned.to_uint_nonnil.
Qed.

Lemma py_str_inj (n m : Z) : py_str n = py_str m -> n = m.
Proof.
  intros H. pose proof (int_of_decimal_str n) as Hn.
  rewrite H, int_of_decimal_str in Hn. by inversion Hn.
Qed.

Section Reader.

(** Python's [int], which reads what [str] writes of an integer. *)
Variable py_int : string -> option Z.
Hypothesis int_str : forall n, py_int (py_str n) = Some n.

Lemma page_num_of_page_key (n : Z) : page_num_of py_int (page_key n) = Returns n.
Proof. unfold page_num_of. rewrite split_page_key. simpl. by rewrite int_str. Qed.

(** X12. The key [f"page_{page_num}"] that [download_page] gives a page
    object reads back, in [_insert_pages_and_verses], as the page number:
    [int(key.split('_')[1])] is [page_num], for every integer, when [int]
    reads what [str] writes; [split] finds one underscore in the key. *)
Theorem page_key_reads_back (n : Z) :
  split_underscore (page_key n) = ["page"; py_str n] /\
  page_num_of py_int (page_key n) = Returns n.
Proof. split; [apply split_page_key | apply page_num_of_page_key]. Qed.

(** *** The corpus that [download_all] writes *)

(** What [download_all] returns, whatever the batch size. *)
Lemma download_all_returned (self : QuranDownloader) (w : remote (list fragment)) all_pages :
  download_all self w = Returns all_pages ->
  exists l, all_pages = omap (survivor w) l /\ NoDup l /\
    (forall n, n ∈ l -> start_page self <= n <= end_page self) /\
    (0 < batch_size self -> forall n, start_page self <= n <= end_page self -> n ∈ l).
Proof.
  intros H. destruct (Z.lt_trichotomy (batch_size self) 0) as [Hneg|[Hzero|Hpos]].
  - exists []. split; [|split; [constructor|split]].
    + revert H. unfold download_all, range3.
      destruct (batch_size self =? 0) eqn:E0; [discriminate|].
      destruct (0 <? batch_size self) eqn:Epos; [apply Z.ltb_lt in Epos; lia|].
      simpl. rewrite batches_survivors. simpl.
      rewrite DownloaderMore.negative_batches_empty by exact Hneg.
      destruct (save_complete w); [|discriminate]. intros H. by inversion H.
    + intros n Hn. by apply elem_of_nil in Hn.
    + lia.
  - exfalso. revert H. unfold download_all, range3. by rewrite Hzero.
  - exists (range2 (start_page self) (end_page self + 1)).
    split; [|split; [|split]].
    + revert H. unfold download_all.
      destruct (DownloaderMore.range3_tiles_any (start_page self) (end_page self + 1)
                  (batch_size self) Hpos) as (starts & -> & Htile).
      simpl. rewrite batches_survivors. simpl. rewrite Htile.
      destruct (save_complete w); [|discriminate]. intros H. by inversion H.
    + apply NoDup_seqZ.
    + intros n Hn. apply elem_of_seqZ in Hn. lia.
    + intros _ n Hn. apply elem_of_seqZ. lia.
Qed.

Lemma groupings_of_page_objects (all_pages : list (page_object (list fragment))) :
  groupings (page_object_dict <$> all_pages)
  = (fun o => (page_key (fst o), snd o)) <$> all_pages.
Proof.
  unfold groupings. induction all_pages as [|o l IH]; [reflexivity|].
  rewrite !fmap_cons, concat_cons, IH. reflexivity.
Qed.

Lemma survivors_pages (w : remote (list fragment)) l :
  NoDup l -> NoDup (fst <$> omap (survivor w) l) /\
  forall n, n ∈ fst <$> omap (survivor w) l -> n ∈ l.
Proof.
  intros Hnd.
  assert (Hsub : forall (l : list Z) n, n ∈ fst <$> omap (survivor w) l -> n ∈ l).
  { clear. intros l n Hn. apply list_elem_of_fmap in Hn as (o & -> & Ho).
    apply list_elem_of_omap in Ho as (m & Hm & Hs).
    by rewrite (survivor_page _ _ _ Hs). }
  split; [|apply Hsub].
  induction Hnd as [|n l Hn Hnd IH]; [constructor|].
  simpl. destruct (survivor w n) as [o|] eqn:Hs; [|exact IH].
  simpl. apply NoDup_cons. split; [|exact IH].
  rewrite (survivor_page _ _ _ Hs). intros Hin. apply Hn. by apply Hsub.
Qed.

Lemma pages_with_fragments_sub (all_pages : list (page_object (list fragment))) n :
  n ∈ pages_with_fragments py_int ((fun o => (page_key (fst o), snd o)) <$> all_pages) ->
  n ∈ fst <$> all_pages.
Proof.
  intros Hn. apply list_elem_of_omap in Hn as (it & Hit & Hsome).
  apply list_elem_of_fmap in Hit as (o & -> & Ho). simpl in Hsome.
  rewrite page_num_of_page_key in Hsome.
  destruct (snd o); [discriminate|]. inversion Hsome; subst.
  apply list_elem_of_fmap. by exists o.
Qed.

Lemma pages_with_fragments_NoDup (all_pages : list (page_object (list fragment))) :
  NoDup (fst <$> all_pages) ->
  NoDup (pages_with_fragments py_int ((fun o => (page_key (fst o), snd o)) <$> all_pages)).
Proof.
  induction all_pages as [|o l IH]; intros Hnd; [constructor|].
  rewrite !fmap_cons in *. apply NoDup_cons in Hnd as [Ho Hnd].
  rewrite BuilderMore.pages_with_fragments_cons. simpl.
  rewrite page_num_of_page_key.
  destruct (snd o); [by apply IH|].
  apply NoDup_cons. split; [|by apply IH].
  intros Hin. apply Ho. by apply pages_with_fragments_sub.
Qed.

Lemma fragments_on_survivors (w : remote (list fragment)) (P : Z) l :
  NoDup l ->
  fragments_on py_int P (page_object_dict <$> omap (survivor w) l)
  = if decide (P ∈ l) then default [] (snd <$> survivor w P) else [].
Proof.
  unfold fragments_on. rewrite groupings_of_page_objects.
  induction 1 as [|n l Hn Hnd IH]; [reflexivity|].
  assert (Htail : P = n ->
            concat (snd <$> filter (fun it => page_num_of py_int (fst it) = Returns P)
                      ((fun o => (page_key (fst o), snd o)) <$> omap (survivor w) l)) = []).
  { intros ->. rewrite IH. by rewrite decide_False. }
  change (omap (survivor w) (n :: l))
    with (match survivor w n with
          | Some o => o :: omap (survivor w) l
          | None => omap (survivor w) l
          end).
  destruct (survivor w n) as [o|] eqn:Hs.
  - rewrite fmap_cons, filter_cons. cbn [fst snd].
    rewrite page_num_of_page_key, (survivor_page _ _ _ Hs).
    destruct (decide (Returns n = Returns P)) as [Heq|Hne].
    + inversion Heq; subst P. rewrite fmap_cons, concat_cons, (Htail eq_refl), app_nil_r.
      rewrite decide_True by left. by rewrite Hs.
    + rewrite IH. assert (n <> P) by congruence.
      destruct (decide (P ∈ l)) as [Hin|Hout].
      * rewrite decide_True by (by right). reflexivity.
      * rewrite decide_False; [reflexivity|].
        intros Hin. apply elem_of_cons in Hin as [->|?]; done.
  - destruct (decide (P = n)) as [->|Hne].
    + rewrite (Htail eq_refl). rewrite decide_True by left. by rewrite Hs.
    + rewrite IH. destruct (decide (P ∈ l)) as [Hin|Hout].
      * rewrite decide_True by (by right). reflexivity.
      * rewrite decide_False; [reflexivity|].
        intros Hin. apply elem_of_cons in Hin as [->|?]; done.
Qed.

(** X13. The corpus that [download_all] writes, as [load_data] reads it. The
    document has its ["pages"] list; every grouping of it is a page object of
    a page of the range, under a key that reads back as that page's number,
    with the payload fetched for it; no page number is met twice; and, with
    a positive batch size, the fragments the loader finds for a page of the
    range are the payload fetched for that page, or none when its fetch
    failed. *)
Theorem downloaded_corpus_read (self : QuranDownloader) (w : remote (list fragment))
    all_pages :
  download_all self w = Returns all_pages ->
  getitem (complete_quran all_pages) "pages" = Returns (page_object_dict <$> all_pages) /\
  (forall it, it ∈ groupings (page_object_dict <$> all_pages) ->
     exists p, page_num_of py_int (fst it) = Returns p /\
       start_page self <= p <= end_page self /\ survivor w p = Some (p, snd it)) /\
  NoDup ((fun it => page_num_of py_int (fst it)) <$> groupings (page_object_dict <$> all_pages)) /\
  (0 < batch_size self -> forall P, start_page self <= P <= end_page self ->
     fragments_on py_int P (page_object_dict <$> all_pages)
     = default [] (snd <$> survivor w P)).
Proof.
  intros H. destruct (download_all_returned _ _ _ H) as (l & -> & Hnd & Hrange & Hall).
  split; [reflexivity|]. split; [|split].
  - intros it Hit. rewrite groupings_of_page_objects in Hit.
    apply list_elem_of_fmap in Hit as (o & -> & Ho). simpl.
    apply list_elem_of_omap in Ho as (n & Hn & Hs).
    pose proof (survivor_page _ _ _ Hs) as Hfst.
    exists n. rewrite Hfst. split; [apply page_num_of_page_key|].
    split; [by apply Hrange|]. rewrite Hs. by destruct o; simpl in *; subst.
  - rewrite groupings_of_page_objects, <- list_fmap_compose.
    destruct (survivors_pages w l Hnd) as [Hpages _].
    rewrite (list_fmap_ext _ (Returns ∘ fst) (omap (survivor w) l))
      by (intros i o _; apply page_num_of_page_key).
    rewrite list_fmap_compose.
    assert (Hinj : Inj eq eq (@Returns Z)) by (intros a b Hab; by inversion Hab).
    by apply (NoDup_fmap_2 _).
  - intros Hbs P HP. rewrite (fragments_on_survivors w P l Hnd).
    by rewrite decide_True by (by apply Hall).
Qed.

(** *** The name map that [get_quran_chapters_names] writes *)

Lemma last_name_snoc l k v c :
  last_name (l ++ [(k, v)]) c = if decide (k = c) then Some v else last_name l c.
Proof. unfold last_name. by rewrite foldl_app. Qed.

Lemma last_name_app l1 l2 c :
  last_name (l1 ++ l2) c = default (last_name l1 c) (Some <$> last_name l2 c).
Proof.
  revert l1. induction l2 as [|[k v] l2 IH] using rev_ind; intros l1.
  - by rewrite app_nil_r.
  - rewrite app_assoc, !last_name_snoc. case_decide; [reflexivity|apply IH].
Qed.

Lemma setitem_dict acc seen k v :
  dict_of acc seen -> dict_of (setitem acc k v) (seen ++ [(k, v)]).
Proof.
  intros [Hnd Hacc]. unfold setitem. destruct (decide (k ∈ fst <$> acc)) as [Hin|Hout].
  - split.
    + rewrite <- list_fmap_compose.
      rewrite (list_fmap_ext _ fst acc); [exact Hnd|].
      intros i kv _. simpl. by case_decide.
    + intros c name. rewrite last_name_snoc, list_elem_of_fmap. split.
      * intros ([k' v'] & Heq & Hkv). simpl in Heq. case_decide.
        -- inversion Heq; subst. by rewrite decide_True.
        -- inversion Heq; subst. rewrite decide_False by done. by apply Hacc.
      * case_decide.
        -- subst c. intros Heq. inversion Heq; subst.
           apply list_elem_of_fmap in Hin as ([k' v'] & -> & Hkv).
           exists (k', v'). simpl. by rewrite decide_True.
        -- intros Hlast. exists (c, name). simpl.
           rewrite decide_False by done. split; [reflexivity|by apply Hacc].
  - split.
    + rewrite fmap_app. by apply NoDup_snoc.
    + intros c name. rewrite last_name_snoc, elem_of_app, list_elem_of_singleton.
      case_decide.
      * subst c. split.
        -- intros [Hkv|Heq]; [|by inversion Heq].
           exfalso. apply Hout. apply list_elem_of_fmap. by exists (k, name).
        -- intros Heq. inversion Heq. by right.
      * rewrite Hacc. split; [intros [?|Heq]; [done|by inversion Heq] | by left].
Qed.

Lemma info_pairs_cons ch chapters :
  info_pairs (ch :: chapters) =
  match info_chapter ch, info_arabicname ch with
  | Some k, Some v => (k, v) :: info_pairs chapters
  | _, _ => info_pairs chapters
  end.
Proof.
  unfold info_pairs. simpl. destruct (info_chapter ch); [|reflexivity].
  by destruct (info_arabicname ch).
Qed.

Lemma comprehension_returned chapters : forall acc seen d,
  for_each comprehension_step chapters acc = Returns d ->
  dict_of acc seen ->
  dict_of d (seen ++ info_pairs chapters) /\ Forall complete chapters.
Proof.
  induction chapters as [|ch chapters IH]; intros acc seen d H Hacc.
  - inversion H; subst. simpl. rewrite app_nil_r. by split.
  - simpl in H. unfold comprehension_step at 1 in H. rewrite info_pairs_cons.
    destruct (info_chapter ch) as [k|] eqn:Hk; [|discriminate].
    destruct (info_arabicname ch) as [v|] eqn:Hv; [|discriminate].
    simpl in H. apply (IH _ (seen ++ [(k, v)])) in H as [Hd Hall];
      [|by apply setitem_dict].
    rewrite <- app_assoc in Hd. split; [exact Hd|].
    constructor; [|exact Hall]. unfold complete. by rewrite Hk, Hv.
Qed.


Lemma dict_of_nil : dict_of [] [].
Proof.
  split; [constructor|]. intros c name. split; [intros H; by apply elem_of_nil in H|done].
Qed.

Lemma extracted_inv w m :
  get_quran_chapters_names w = Returns (Some m) ->
  exists d names,
    output_dir w = true /\
    _get_quran_data w = Returns (Some d) /\ is_empty d = false /\ save_output w = true /\
    chapter_names_of (default [] (info_chapters d)) = Returns names /\
    m = dump_names names.
Proof.
  unfold get_quran_chapters_names. intros H.
  destruct (output_dir w); [|discriminate]. cbn [bind] in H.
  destruct (_get_quran_data w) as [[d|]|e]; cbn [bind] in H; [|discriminate..].
  destruct (is_empty d) eqn:Hne; [discriminate|].
  destruct (chapter_names_of _) as [names|e] eqn:Hnames; [|discriminate].
  destruct (save_output w) eqn:Hsave; [|discriminate].
  inversion H; subst. by exists d, names.
Qed.

Lemma elem_of_dump_names names k name :
  (k, name) ∈ dump_names names <-> exists c, k = py_str c /\ (c, name) ∈ names.
Proof.
  unfold dump_names. rewrite list_elem_of_fmap. split.
  - intros ([c v] & Heq & Hin). inversion Heq; subst. by exists c.
  - intros (c & -> & Hin). by exists (c, name).
Qed.

Lemma dump_names_keys names : fst <$> dump_names names = py_str <$> (fst <$> names).
Proof. unfold dump_names. rewrite <- !list_fmap_compose. reflexivity. Qed.

(** X14. The name map that [get_quran_chapters_names] writes. When the call
    writes the output file, the info document was read or downloaded and is
    not empty, every element of its ["chapters"] list has both fields, the
    keys of the map written are distinct, and the map holds a name under a
    key exactly when the key is [str] of a chapter number of the list and
    the name is the one given last to that chapter. *)
Theorem chapter_names_written w m :
  get_quran_chapters_names w = Returns (Some m) ->
  exists d,
    _get_quran_data w = Returns (Some d) /\ is_empty d = false /\
    Forall complete (default [] (info_chapters d)) /\
    NoDup (fst <$> m) /\
    forall k name,
      (k, name) ∈ m <->
      exists c, k = py_str c /\
        last_name (info_pairs (default [] (info_chapters d))) c = Some name.
Proof.
  intros H. destruct (extracted_inv _ _ H) as (d & names & _ & Hd & Hne & _ & Hnames & ->).
  exists d. split; [exact Hd|]. split; [exact Hne|].
  destruct (comprehension_returned _ _ [] _ Hnames dict_of_nil) as [[Hnd Hdict] Hall].
  simpl in Hdict. split; [exact Hall|]. split.
  - rewrite dump_names_keys.
    assert (Hinj : Inj eq eq py_str) by (intros a b; apply py_str_inj).
    by apply (NoDup_fmap_2 _).
  - intros k name. rewrite elem_of_dump_names.
    split; intros (c & -> & Hc); exists c; (split; [reflexivity|]); by apply Hdict.
Qed.


(** *** The extractor's name map in [_insert_chapters] *)

Lemma dump_rows_ids names counts c :
  c ∈ chapter_id <$> chapter_rows_of py_int (dump_names names) counts -> c ∈ fst <$> names.
Proof.
  intros Hc. apply list_elem_of_fmap in Hc as (row & -> & Hrow).
  apply list_elem_of_omap in Hrow as ([k name] & Hin & Hsome).
  apply elem_of_dump_names in Hin as (c & -> & Hin). simpl in Hsome.
  rewrite int_str in Hsome. destruct (get_count counts c =? 0); [discriminate|].
  inversion Hsome; subst. simpl. apply list_elem_of_fmap. by exists (c, name).
Qed.

Lemma dump_rows_NoDup names counts :
  NoDup (fst <$> names) ->
  NoDup (chapter_id <$> chapter_rows_of py_int (dump_names names) counts).
Proof.
  induction names as [|[c name] names IH]; intros Hnd; [constructor|].
  rewrite fmap_cons in Hnd. apply NoDup_cons in Hnd as [Hc Hnd].
  change (dump_names ((c, name) :: names)) with ((py_str c, name) :: dump_names names).
  rewrite BuilderMore.chapter_rows_of_cons, int_str.
  destruct (get_count counts c =? 0); [by apply IH|].
  rewrite fmap_cons. apply NoDup_cons. split; [|by apply IH].
  simpl. intros Hin. apply Hc. by apply (dump_rows_ids _ counts).
Qed.

Lemma dump_names_read names k : k ∈ fst <$> dump_names names -> is_Some (py_int k).
Proof.
  rewrite dump_names_keys. intros Hk. apply list_elem_of_fmap in Hk as (c & -> & _).
  rewrite int_str. by eexists.
Qed.

(** X16. The extractor's name map in chapter insertion. With the name map
    that [get_quran_chapters_names] wrote, [_insert_chapters] on a new store
    returns, for every corpus, exactly when every chapter of the map that has
    a fragment in the corpus is within the range of an SQLite INTEGER; the
    only exception it can raise is [OverflowError]: every key reads as an
    integer and no chapter is inserted twice. When it returns, the table
    [chapters] holds one row for each chapter of the map that has a fragment
    in the corpus, and no other. *)
Theorem extracted_names_insert w m pages_data :
  get_quran_chapters_names w = Returns (Some m) ->
  ((exists s', _insert_chapters py_int m (_calculate_verse_counts pages_data) empty_store
               = (Returns tt, s')) <->
   (forall f, f ∈ corpus_fragments pages_data -> py_str (chapter f) ∈ fst <$> m ->
      int64 (chapter f))) /\
  (forall r s', _insert_chapters py_int m (_calculate_verse_counts pages_data) empty_store
                = (r, s') ->
     r = Returns tt \/ r = Raises OverflowError) /\
  (forall s', _insert_chapters py_int m (_calculate_verse_counts pages_data) empty_store
              = (Returns tt, s') ->
     chapters s' ≡ₚ chapter_rows_of py_int m (_calculate_verse_counts pages_data)) /\
  forall c, c ∈ chapter_id <$> chapter_rows_of py_int m (_calculate_verse_counts pages_data)
    <-> py_str c ∈ fst <$> m /\
        exists f, f ∈ corpus_fragments pages_data /\ chapter f = c.
Proof.
  intros H. destruct (extracted_inv _ _ H) as (d & names & _ & _ & _ & _ & Hnames & ->).
  destruct (comprehension_returned _ _ [] _ Hnames dict_of_nil) as [[Hnd _] _].
  assert (Hrows : NoDup (chapter_id <$> chapters empty_store ++
                           chapter_rows_of py_int (dump_names names)
                             (_calculate_verse_counts pages_data)))
    by (simpl; by apply dump_rows_NoDup).
  assert (Hmem : forall c,
            c ∈ chapter_id <$> chapter_rows_of py_int (dump_names names)
                                 (_calculate_verse_counts pages_data)
            <-> py_str c ∈ fst <$> dump_names names /\
                exists f, f ∈ corpus_fragments pages_data /\ chapter f = c).
  { intros c. split.
    - intros Hc. pose proof (dump_rows_ids _ _ _ Hc) as Hkey.
      split; [rewrite dump_names_keys; apply list_elem_of_fmap; by exists c|].
      apply list_elem_of_fmap in Hc as (row & -> & Hrow).
      destruct (BuilderMore.chapter_row_fragment py_int _ _ _ Hrow) as (f & Hf & Hch).
      by exists f.
    - intros [Hkey (f & Hf & <-)].
      apply (BuilderMore.named_chapter_row py_int _ _ _ (py_str (chapter f)));
        [exact Hf | exact Hkey | apply int_str]. }
  split; [|split; [|split]].
  - split.
    + intros (s' & Hs) f Hf Hkey.
      apply BuilderMore.insert_chapters_returned in Hs as (_ & _ & _ & _ & Hrange).
      assert (Hc : chapter f ∈ chapter_id <$> chapter_rows_of py_int (dump_names names)
                                             (_calculate_verse_counts pages_data))
        by (apply Hmem; split; [exact Hkey|by exists f]).
      apply list_elem_of_fmap in Hc as (row & -> & Hrow). by apply Hrange.
    + intros Hrange. eexists. apply BuilderMore.insert_chapters_returns;
        [apply dump_names_read | | exact Hrows].
      intros row Hrow.
      assert (Hc : chapter_id row ∈ chapter_id <$> chapter_rows_of py_int (dump_names names)
                                                 (_calculate_verse_counts pages_data))
        by (apply list_elem_of_fmap; by exists row).
      apply Hmem in Hc as [Hkey (f & Hf & Hch)].
      rewrite <- Hch. apply Hrange; [exact Hf|by rewrite Hch].
  - intros r s' Hrun. destruct r as [[]|e]; [by left|]. right.
    apply BuilderMore.insert_chapters_raised
      in Hrun as [(_ & k & Hk & Hnone)|[(-> & _)|(_ & Hdup)]]; [|reflexivity|done].
    destruct (dump_names_read _ _ Hk) as [c Hc]. congruence.
  - intros s' Hs.
    apply BuilderMore.insert_chapters_returned in Hs as (_ & -> & _). by simpl.
  - exact Hmem.
Qed.

(** *** Download, extract, load *)

Lemma corpus_fragments_of_page_objects (all_pages : list (page_object (list fragment))) f :
  f ∈ corpus_fragments (page_object_dict <$> all_pages)
  <-> exists o, o ∈ all_pages /\ f ∈ snd o.
Proof.
  unfold corpus_fragments. rewrite groupings_of_page_objects, <- list_fmap_compose.
  rewrite elem_of_concat. split.
  - intros (l & Hl & Hf). apply list_elem_of_fmap in Hl as (o & -> & Ho). by exists o.
  - intros (o & Ho & Hf). exists (snd o). split; [|exact Hf].
    apply list_elem_of_fmap. by exists o.
Qed.

(** X17. Download, extract, load. For the corpus that [download_all] wrote
    and the name map that [get_quran_chapters_names] wrote, [load_data] on a
    new store returns after its commit exactly when the map is not empty,
    the number of every page fetched is within the range of an SQLite
    INTEGER, every fragment fetched has a chapter and a verse number within
    that range, a positive verse number and a chapter that the map names,
    and no page fetched has two fragments of one verse. The keys of the two
    files and a page number met twice cannot make the load fail. *)
Theorem pipeline_loads_iff (self : QuranDownloader) (w : remote (list fragment))
    all_pages nw m :
  download_all self w = Returns all_pages ->
  get_quran_chapters_names nw = Returns (Some m) ->
  (loaded (load_data py_int empty_store (Document (complete_quran all_pages)) (Document m))
   <-> m <> [] /\
       (forall o, o ∈ all_pages -> int64 (fst o)) /\
       (forall o f, o ∈ all_pages -> f ∈ snd o ->
          int64 (chapter f) /\ int64 (verse f) /\
          0 < verse f /\ py_str (chapter f) ∈ fst <$> m) /\
       (forall o, o ∈ all_pages -> NoDup (fragment_key <$> snd o))).
Proof.
  intros Hdown Hext.
  destruct (download_all_returned _ _ _ Hdown) as (l & Hall & Hnd & _).
  destruct (extracted_inv _ _ Hext) as (d & names & _ & _ & _ & _ & Hnames & Hm).
  destruct (comprehension_returned _ _ [] _ Hnames dict_of_nil) as [[Hkeys _] _].
  assert (Hget : getitem (complete_quran all_pages) "pages"
                 = Returns (page_object_dict <$> all_pages)) by reflexivity.
  split.
  - intros Hloaded.
    destruct (loaded_inv _ _ _ _ Hloaded) as (? & m' & ? & ? & ? & _ & Hm' & Hne & _).
    inversion Hm'; subst m'. split; [exact Hne|].
    destruct (BuilderMore.loaded_loadable py_int _ _ _ Hget Hloaded)
      as [_ _ _ Hnamed Hpos Hpk _ Hpr Hfr].
    split; [|split].
    + intros o Ho. apply (Hpr (page_key (fst o), snd o)).
      * rewrite groupings_of_page_objects. apply list_elem_of_fmap. by exists o.
      * apply page_num_of_page_key.
    + intros o f Ho Hf.
      assert (Hin : f ∈ corpus_fragments (page_object_dict <$> all_pages))
        by (apply corpus_fragments_of_page_objects; by exists o).
      destruct (Hfr f Hin) as [Hcr Hvr].
      split; [exact Hcr|]. split; [exact Hvr|]. split; [by apply Hpos|].
      destruct (Hnamed f Hin) as (k & Hk & Hint).
      rewrite Hm, dump_names_keys in Hk |- *.
      apply list_elem_of_fmap in Hk as (c & -> & Hc).
      rewrite int_str in Hint. inversion Hint; subst.
      apply list_elem_of_fmap. by exists (chapter f).
    + intros o Ho. apply (Hpk (page_key (fst o), snd o)).
      rewrite groupings_of_page_objects. apply list_elem_of_fmap. by exists o.
  - intros (Hne & Hpr & Hfr & Hpk).
    apply (BuilderMore.loadable_loaded py_int _ _ _ Hget Hne).
    split.
    + rewrite Hm. apply dump_names_read.
    + rewrite Hm. by apply dump_rows_NoDup.
    + intros it Hit. rewrite groupings_of_page_objects in Hit.
      apply list_elem_of_fmap in Hit as (o & -> & Ho).
      exists (fst o). apply page_num_of_page_key.
    + intros f Hf. apply corpus_fragments_of_page_objects in Hf as (o & Ho & Hf).
      destruct (Hfr o f Ho Hf) as (_ & _ & _ & Hk).
      exists (py_str (chapter f)). split; [exact Hk | apply int_str].
    + intros f Hf. apply corpus_fragments_of_page_objects in Hf as (o & Ho & Hf).
      by destruct (Hfr o f Ho Hf) as (_ & _ & ? & _).
    + intros it Hit. rewrite groupings_of_page_objects in Hit.
      apply list_elem_of_fmap in Hit as (o & -> & Ho). by apply Hpk.
    + rewrite groupings_of_page_objects. apply pages_with_fragments_NoDup.
      rewrite Hall. by apply survivors_pages.
    + intros it p Hit Hp. rewrite groupings_of_page_objects in Hit.
      apply list_elem_of_fmap in Hit as (o & -> & Ho). simpl in Hp.
      rewrite page_num_of_page_key in Hp. inversion Hp; subst. by apply Hpr.
    + intros f Hf. apply corpus_fragments_of_page_objects in Hf as (o & Ho & Hf).
      destruct (Hfr o f Ho Hf) as (? & ? & _). by split.
Qed.

End Reader.


(** *** Concrete runs *)

Lemma page_key_reads_back_witness :
  split_underscore (page_key 12) = ["page"; py_str 12] /\
  page_num_of int_of_decimal (page_key 12) = Returns 12.
Proof. apply (page_key_reads_back int_of_decimal int_of_decimal_str 12). Defined.

Lemma downloaded_corpus_read_witness :
  getitem (complete_quran two_pages_written) "pages"
    = Returns (page_object_dict <$> two_pages_written) /\
  (forall it, it ∈ groupings (page_object_dict <$> two_pages_written) ->
     exists p, page_num_of int_of_decimal (fst it) = Returns p /\
       start_page two_pages_run <= p <= end_page two_pages_run /\
       survivor two_pages p = Some (p, snd it)) /\
  NoDup ((fun it => page_num_of int_of_decimal (fst it))
           <$> groupings (page_object_dict <$> two_pages_written)) /\
  (0 < batch_size two_pages_run ->
   forall P, start_page two_pages_run <= P <= end_page two_pages_run ->
     fragments_on int_of_decimal P (page_object_dict <$> two_pages_written)
     = default [] (snd <$> survivor two_pages P)).
Proof.
  apply (downloaded_corpus_read int_of_decimal int_of_decimal_str two_pages_run two_pages
           two_pages_written).
  reflexivity.
Defined.

Lemma chapter_names_written_witness :
  exists d,
    _get_quran_data world_scenario = Returns (Some d) /\ is_empty d = false /\
    Forall complete (default [] (info_chapters d)) /\
    NoDup (fst <$> [("1", "first"); ("2", "second")]) /\
    forall k name,
      (k, name) ∈ [("1", "first"); ("2", "second")] <->
      exists c, k = py_str c /\
        last_name (info_pairs (default [] (info_chapters d))) c = Some name.
Proof.
  apply (chapter_names_written world_scenario [("1", "first"); ("2", "second")]).
  reflexivity.
Defined.

Lemma extracted_names_insert_witness :
  ((exists s', _insert_chapters int_of_decimal [("1", "first"); ("2", "second")]
                 (_calculate_verse_counts scenario_pages) empty_store
               = (Returns tt, s')) <->
   (forall f, f ∈ corpus_fragments scenario_pages ->
      py_str (chapter f) ∈ fst <$> [("1", "first"); ("2", "second")] ->
      int64 (chapter f))) /\
  (forall r s', _insert_chapters int_of_decimal [("1", "first"); ("2", "second")]
                  (_calculate_verse_counts scenario_pages) empty_store
                = (r, s') ->
     r = Returns tt \/ r = Raises OverflowError) /\
  (forall s', _insert_chapters int_of_decimal [("1", "first"); ("2", "second")]
                (_calculate_verse_counts scenario_pages) empty_store
              = (Returns tt, s') ->
     chapters s' ≡ₚ chapter_rows_of int_of_decimal [("1", "first"); ("2", "second")]
                      (_calculate_verse_counts scenario_pages)) /\
  forall c, c ∈ chapter_id <$> chapter_rows_of int_of_decimal [("1", "first"); ("2", "second")]
                                 (_calculate_verse_counts scenario_pages)
    <-> py_str c ∈ fst <$> [("1", "first"); ("2", "second")] /\
        exists f, f ∈ corpus_fragments scenario_pages /\ chapter f = c.
Proof.
  apply (extracted_names_insert int_of_decimal int_of_decimal_str world_scenario
           [("1", "first"); ("2", "second")] scenario_pages).
  reflexivity.
Defined.

Lemma pipeline_loads_iff_witness :
  loaded (load_data int_of_decimal empty_store (Document (complete_quran two_pages_written))
            (Document [("1", "first"); ("2", "second")]))
  <-> [("1", "first"); ("2", "second")] <> [] /\
      (forall o, o ∈ two_pages_written -> int64 (fst o)) /\
      (forall o f, o ∈ two_pages_written -> f ∈ snd o ->
         int64 (chapter f) /\ int64 (verse f) /\
         0 < verse f /\ py_str (chapter f) ∈ fst <$> [("1", "first"); ("2", "second")]) /\
      (forall o, o ∈ two_pages_written -> NoDup (fragment_key <$> snd o)).
Proof.
  apply (pipeline_loads_iff int_of_decimal int_of_decimal_str two_pages_run two_pages
           two_pages_written world_scenario [("1", "first"); ("2", "second")]);
    reflexivity.
Defined.

(** The run of the witness loads: the pipeline's condition holds of it. *)
Example two_pages_load :
  loaded (load_data int_of_decimal empty_store (Document (complete_quran two_pages_written))
            (Document [("1", "first"); ("2", "second")])).
Proof. split; reflexivity. Qed.

(** A file stands where the directory of the output file should be: [mkdir]
    raises before anything is read. *)
Example output_directory_blocked :
  get_quran_chapters_names
    {| output_dir := false; input_path := Document info_scenario; api := RequestFailed;
       json_error_caught := true; input_dir := true; open_input := true;
       write_input := true; save_output := true |}
  = Raises OSError.
Proof. reflexivity. Qed.

(** An input file that is there and cannot be read: the [OSError] of [open]
    is not a [json.JSONDecodeError] and leaves the function. *)
Example input_not_readable :
  get_quran_chapters_names
    {| output_dir := true; input_path := Unreadable OSError; api := RequestFailed;
       json_error_caught := true; input_dir := true; open_input := true;
       write_input := true; save_output := true |}
  = Raises OSError.
Proof. reflexivity. Qed.

End PipelineFacts.

(** ** The command lines *)

Module CliFacts.

Import Builder BuilderFacts Cli.

Section Menu.

Variable py_int : string -> option Z.

Lemma ends_as_again line rest r :
  asks_again py_int line -> ends_as py_int rest r -> ends_as py_int (line :: rest) r.
Proof.
  intros Hagain. destruct r as [e| | |]; simpl.
  - intros (skipped & l & rest' & n & -> & Hsk & Hrest).
    exists (line :: skipped), l, rest', n. split; [reflexivity|]. split; [|exact Hrest].
    by constructor.
  - intros (skipped & rest' & -> & Hsk).
    exists (line :: skipped), rest'. split; [reflexivity|]. by constructor.
  - intros Hall. by constructor.
  - done.
Qed.

Lemma menu_cons line rest :
  get_user_edition_selection py_int (line :: rest) =
  if String.eqb line "0" then Exited
  else
    match py_int line with
    | None => get_user_edition_selection py_int rest
    | Some n =>
        if (1 <=? n) && (n <=? Z.of_nat (length QURAN_EDITIONS))
        then match QURAN_EDITIONS !! Z.to_nat (n - 1) with
             | Some e => Selected e
             | None => OutOfRange
             end
        else get_user_edition_selection py_int rest
    end.
Proof. reflexivity. Qed.

(** X18. How the edition menu ends ([get_user_edition_selection], and
    [get_user_selection] of the downloader, which has the same body). It
    skips every line that is not exactly [0] and does not read as a number
    from 1 to the number of editions; at the first other line it exits when
    the line is [0], and otherwise returns the edition at that number; when
    the lines run out it ends with [EOFError]. An edition it returns is
    always one of [QURAN_EDITIONS], and the list is never indexed out of
    range. *)
Theorem menu_selection (lines : list string) :
  ends_as py_int lines (get_user_edition_selection py_int lines) /\
  (forall e, get_user_edition_selection py_int lines = Selected e -> e ∈ QURAN_EDITIONS).
Proof.
  assert (Hends : ends_as py_int lines (get_user_edition_selection py_int lines)).
  { induction lines as [|line rest IH]; [by constructor|].
    rewrite menu_cons.
    destruct (String.eqb line "0") eqn:E0.
    - apply String.eqb_eq in E0 as ->. hnf. by exists [], rest.
    - apply String.eqb_neq in E0.
      destruct (py_int line) as [n|] eqn:Hint.
      + destruct ((1 <=? n) && (n <=? Z.of_nat (length QURAN_EDITIONS))) eqn:Hrange.
        * apply andb_true_iff in Hrange as [H1 H2].
          apply Z.leb_le in H1. apply Z.leb_le in H2.
          destruct (QURAN_EDITIONS !! Z.to_nat (n - 1)) as [e|] eqn:Hlook.
          -- hnf. exists [], line, rest, n. by repeat split.
          -- hnf. apply lookup_ge_None in Hlook. lia.
        * apply ends_as_again; [|exact IH]. split; [exact E0|]. rewrite Hint.
          intros [H1 H2]. apply Z.leb_le in H1. apply Z.leb_le in H2.
          by rewrite H1, H2 in Hrange.
      + apply ends_as_again; [|exact IH]. split; [exact E0|]. by rewrite Hint. }
  split; [exact Hends|].
  intros e He. rewrite He in Hends. destruct Hends as (_ & _ & _ & n & _ & _ & _ & _ & _ & Hlook).
  by apply list_elem_of_lookup_2 in Hlook.
Qed.



End Menu.

End CliFacts.
